(** * A workflow-graph engine: shallow embedding and verified properties

    The development follows [app/engine.py] (with the record shapes of
    [app/models.py]).  The engine is Python code that shares mutable
    dictionaries between the caller, the tools and the executor, so the
    embedding keeps an explicit object store: dictionaries and lists live
    at locations of a heap and values refer to them by reference.  Every
    engine operation is a function of the heap that either returns or
    raises.

    Conventions of the embedding:
    - a tool is any function of the heap taking the locations of the state
      and of the node's configuration; it returns a value or raises;
    - the identifiers drawn by [uuid4()] are arguments of [create_graph]
      and [run_graph];
    - the engine object is passed and returned explicitly; an operation
      that raises returns no engine, so it stores nothing;
    - values are [None], booleans, integers, strings and references to
      dictionaries (with string keys) and lists; floating-point numbers are
      left out.

    After the engine come the tools of [app/tools.py], the example
    workflow of [app/workflows.py] and the two run handlers of
    [app/main.py]; there a string is the sequence of its characters, each
    a code point below 256, and an HTTP error is its status code. *)

From stdpp Require Import gmap strings list fin_maps fin_sets.
From Stdlib Require Import ZArith Lia.

Open Scope Z_scope.

(** ** The host-language object model *)

(** Locations of heap objects (Python object identities). *)
Abbreviation loc := nat.

(** Python values as the engine sees them ([Any]).  Containers are held
    by reference.  Floating-point numbers are left out. *)
Inductive value :=
  | VNone
  | VBool (b : bool)
  | VInt (n : Z)
  | VStr (s : string)
  | VRef (l : loc).

#[global] Instance value_eq_dec : EqDecision value.
Proof. solve_decision. Defined.

(** Heap objects: a [dict] with string keys ([Dict[str, Any]]) or a
    [list]. *)
Inductive obj :=
  | ODict (d : gmap string value)
  | OList (xs : list value).

#[global] Instance obj_eq_dec : EqDecision obj.
Proof. solve_decision. Defined.

Abbreviation heap := (gmap nat obj).

(** Exceptions.  [KeyError] and [ValueError] carry their message. *)
Inductive exn :=
  | KeyError (msg : string)
  | ValueError (msg : string)
  | TypeError
  | RecursionError
  | OtherError (name : string).

#[global] Instance exn_eq_dec : EqDecision exn.
Proof. solve_decision. Defined.

(** Result of a pure operation that may raise. *)
Inductive result (A : Type) :=
  | Ok (a : A)
  | Raise (e : exn).
Arguments Ok {A} a.
Arguments Raise {A} e.

(** Outcome of an operation on the heap: it returns a value in a new heap
    or raises, the heap keeping the mutations made so far. *)
Inductive outcome (A : Type) :=
  | Done (h : heap) (a : A)
  | Fail (h : heap) (e : exn).
Arguments Done {A} h a.
Arguments Fail {A} h e.

Definition heap_of {A} (o : outcome A) : heap :=
  match o with Done h _ => h | Fail h _ => h end.

(** The heap-and-exception monad. *)
Definition M (A : Type) : Type := heap → outcome A.

Definition ret {A} (a : A) : M A := λ h, Done h a.
Definition raise {A} (e : exn) : M A := λ h, Fail h e.
Definition bind {A B} (c : M A) (k : A → M B) : M B :=
  λ h, match c h with
       | Done h' a => k a h'
       | Fail h' e => Fail h' e
       end.
Definition lift {A} (r : result A) : M A :=
  match r with Ok a => ret a | Raise e => raise e end.

Notation "'do' x <- c ; k" := (bind c (λ x, k))
  (at level 10, x pattern, c at level 100, k at level 200).

(** *** References held by values and objects *)

Definition val_refs (v : value) : gset nat :=
  match v with VRef l => {[ l ]} | _ => ∅ end.

Definition obj_values (o : obj) : list value :=
  match o with
  | ODict d => (map_to_list d).*2
  | OList xs => xs
  end.

Definition obj_refs (o : obj) : gset nat :=
  ⋃ (val_refs <$> obj_values o).

(** First location above every allocated object: where allocation goes. *)
Definition heap_top (h : heap) : nat :=
  S (max_list (elements (dom h))).

Definition alloc (o : obj) : M nat :=
  λ h, let l := heap_top h in Done (<[l := o]> h) l.

(** *** Truth value of an object ([x or y], [if x]) *)

Definition truthy (h : heap) (v : value) : bool :=
  match v with
  | VNone => false
  | VBool b => b
  | VInt n => negb (n =? 0)
  | VStr s => negb (String.eqb s "")
  | VRef l =>
      match h !! l with
      | Some (ODict d) => negb (bool_decide (d = ∅))
      | Some (OList xs) => negb (bool_decide (xs = []))
      | None => true
      end
  end.

(** *** Rich comparison *)

Inductive cmp_op := Lt | Le | Gt | Ge | Eq_ | Ne.

Definition as_int (v : value) : option Z :=
  match v with
  | VBool b => Some (if b then 1 else 0)
  | VInt n => Some n
  | _ => None
  end.

Definition int_cmp (op : cmp_op) (a b : Z) : bool :=
  match op with
  | Lt => a <? b | Le => a <=? b | Gt => a >? b | Ge => a >=? b
  | Eq_ => a =? b | Ne => negb (a =? b)
  end.

Definition str_cmp (op : cmp_op) (a b : string) : bool :=
  match op, String.compare a b with
  | Lt, Datatypes.Lt => true
  | Le, (Datatypes.Lt | Datatypes.Eq) => true
  | Gt, Datatypes.Gt => true
  | Ge, (Datatypes.Gt | Datatypes.Eq) => true
  | Eq_, Datatypes.Eq => true
  | Ne, (Datatypes.Lt | Datatypes.Gt) => true
  | _, _ => false
  end.

Definition nat_cmp (op : cmp_op) (a b : nat) : bool :=
  int_cmp op (Z.of_nat a) (Z.of_nat b).

(** Operands of unrelated types: [==] is false, [!=] is true, an ordering
    raises [TypeError]. *)
Definition mismatch (op : cmp_op) : result bool :=
  match op with
  | Eq_ => Ok false
  | Ne => Ok true
  | _ => Raise TypeError
  end.

(** Element-wise equality of two lists, left to right, stopping at the
    first difference or error. *)
Fixpoint all_eq (eqv : value → value → result bool) (xs ys : list value)
  : result bool :=
  match xs, ys with
  | x :: xs', y :: ys' =>
      match eqv x y with
      | Ok true => all_eq eqv xs' ys'
      | r => r
      end
  | _, _ => Ok true
  end.

(** [list.__lt__] and the like: the first pair of unequal elements
    decides; without one the lengths decide. *)
Fixpoint list_cmp (cmpv : cmp_op → value → value → result bool)
    (op : cmp_op) (xs ys : list value) : result bool :=
  match xs, ys with
  | x :: xs', y :: ys' =>
      match cmpv Eq_ x y with
      | Ok true => list_cmp cmpv op xs' ys'
      | Ok false =>
          match op with
          | Eq_ => Ok false
          | Ne => Ok true
          | _ => cmpv op x y
          end
      | Raise e => Raise e
      end
  | _, _ => Ok (nat_cmp op (length xs) (length ys))
  end.

(** [dict.__eq__]: same size, and every key of the left operand is bound
    to an equal value on the right. *)
Definition dict_eq (eqv : value → value → result bool)
    (d1 d2 : gmap string value) : result bool :=
  if bool_decide (size d1 = size d2) then
    foldr (λ '(k, x) acc,
             match d2 !! k with
             | None => Ok false
             | Some y =>
                 match eqv x y with
                 | Ok true => acc
                 | r => r
                 end
             end) (Ok true) (map_to_list d1)
  else Ok false.

Definition negate (r : result bool) : result bool :=
  match r with Ok b => Ok (negb b) | Raise e => Raise e end.

(** Comparison of two values; [fuel] bounds the nesting depth, and running
    out of it is Python's [RecursionError] on self-containing objects. *)
Fixpoint py_cmp_fuel (fuel : nat) (h : heap) (op : cmp_op)
    (a b : value) : result bool :=
  match as_int a, as_int b with
  | Some x, Some y => Ok (int_cmp op x y)
  | _, _ =>
    match a, b with
    | VStr s, VStr t => Ok (str_cmp op s t)
    | VNone, VNone =>
        match op with
        | Eq_ => Ok true
        | Ne => Ok false
        | _ => Raise TypeError
        end
    | VRef l1, VRef l2 =>
        match fuel with
        | O => Raise RecursionError
        | S fuel' =>
            let rec := py_cmp_fuel fuel' h in
            let same := bool_decide (l1 = l2) in
            match h !! l1, h !! l2 with
            | Some (OList xs), Some (OList ys) =>
                match op with
                | Eq_ =>
                    if same then Ok true
                    else if bool_decide (length xs = length ys)
                         then all_eq (λ x y, if bool_decide (x = y) then Ok true else rec Eq_ x y) xs ys
                         else Ok false
                | Ne =>
                    if same then Ok false
                    else if bool_decide (length xs = length ys)
                         then negate (all_eq (λ x y, if bool_decide (x = y) then Ok true else rec Eq_ x y) xs ys)
                         else Ok true
                | _ =>
                    list_cmp (λ o x y,
                                match o with
                                | Eq_ => if bool_decide (x = y) then Ok true else rec Eq_ x y
                                | _ => rec o x y
                                end) op xs ys
                end
            | Some (ODict d1), Some (ODict d2) =>
                match op with
                | Eq_ =>
                    if same then Ok true
                    else dict_eq (λ x y, if bool_decide (x = y) then Ok true else rec Eq_ x y) d1 d2
                | Ne =>
                    if same then Ok false
                    else negate (dict_eq (λ x y, if bool_decide (x = y) then Ok true else rec Eq_ x y) d1 d2)
                | _ => Raise TypeError
                end
            | _, _ =>
                match op with
                | Eq_ => Ok same
                | Ne => Ok (negb same)
                | _ => Raise TypeError
                end
            end
        end
    | _, _ => mismatch op
    end
  end.

Definition py_cmp (h : heap) (op : cmp_op) (a b : value) : result bool :=
  py_cmp_fuel (S (size h * size h)) h op a b.

(** *** Reachability and [copy.deepcopy] *)

Definition succs (h : heap) (l : loc) : gset nat :=
  from_option obj_refs ∅ (h !! l).

(** One round of following references from the allocated objects of [X]. *)
Definition expand (h : heap) (X : gset nat) : gset nat :=
  X ∪ (set_bind (succs h) X ∩ dom h).

(** The allocated objects reachable from the references [roots]. *)
Definition reach (h : heap) (roots : gset nat) : gset nat :=
  Nat.iter (size (dom h)) (expand h) (roots ∩ dom h).

(** The copy of a value: references to copied objects move [n] places up,
    everything else (atoms) is shared. *)
Definition rename (n : nat) (R : gset nat) (v : value) : value :=
  match v with
  | VRef l => if decide (l ∈ R) then VRef (n + l)%nat else v
  | _ => v
  end.

Definition rename_obj (n : nat) (R : gset nat) (o : obj) : obj :=
  match o with
  | ODict d => ODict (rename n R <$> d)
  | OList xs => OList (rename n R <$> xs)
  end.

(** The copies of the objects of [R], each [n] places above its original. *)
Definition copied (n : nat) (R : gset nat) (h : heap) : heap :=
  kmap (Nat.add n) (rename_obj n R <$> filter (λ p, p.1 ∈ R) h).

(** [copy.deepcopy(v)]: every container reachable from [v] is copied once
    (sharing and cycles are kept, as with deepcopy's memo) into fresh
    locations; the copy of the object at [l] goes to [heap_top h + l]. *)
Definition deepcopy (v : value) : M value :=
  λ h, let n := heap_top h in
       let R := reach h (val_refs v) in
       Done (h ∪ copied n R h) (rename n R v).

(** *** Dictionary operations *)

(** [dict(d)]: a new dictionary with the bindings of [d].  The argument is
    declared a [Dict]; anything else raises. *)
Definition dict_copy (l : loc) : M loc :=
  λ h, match h !! l with
       | Some (ODict d) => alloc (ODict d) h
       | _ => Fail h TypeError
       end.

(** [d.get(k)]: the value bound to [k], [None] when unbound. *)
Definition dict_get (l : loc) (k : string) : M value :=
  λ h, match h !! l with
       | Some (ODict d) => Done h (default VNone (d !! k))
       | _ => Fail h TypeError
       end.

(** [x or {}]. *)
Definition or_empty (v : value) : M value :=
  λ h, if truthy h v then Done h v
       else (do l <- alloc (ODict ∅); ret (VRef l)) h.

(** [d.update(u)] for a dictionary [u]: the bindings of [u] are written
    into [d], overwriting on key collision.  Tools are declared to return
    a [Dict]; another (truthy) object is not a mapping and raises. *)
Definition dict_update (l : loc) (u : value) : M unit :=
  λ h, match h !! l, u with
       | Some (ODict d), VRef lu =>
           match h !! lu with
           | Some (ODict du) => Done (<[l := ODict (du ∪ d)]> h) ()
           | _ => Fail h TypeError
           end
       | _, _ => Fail h TypeError
       end.

(** ** The engine's data model ([engine.py], [models.py]) *)

(** A tool: a callable on the state and configuration dictionaries,
    returning its updates. *)
Definition tool_fn : Type := loc → loc → M value.

Module Node.
Record t := mk { id : string; tool : string; config : loc }.
End Node.

Module Edge.
Record t := mk {
    from_node : string;
    to_node : option string;
    condition_key : option string;
    condition_op : option string;
    condition_value : value;
    true_target : option string;
    false_target : option string }.
End Edge.

Module Graph.
Record t := mk {
    id : string;
    name : string;
    start_node : string;
    nodes : gmap string Node.t;
    edges : gmap string Edge.t }.
End Graph.

Module StepLog.
Record t := mk {
    step_index : Z;
    node_id : string;
    tool : string;
    state_snapshot : value }.
End StepLog.

Module Run.
Record t := mk {
    id : string;
    graph_id : string;
    status : string;
    current_node : option string;
    state : loc;
    log : list StepLog.t }.
End Run.

(** [NodeConfig] and [EdgeConfig] of [models.py]. *)
Module NodeConfig.
Record t := mk { id : string; tool : string; config : loc }.
End NodeConfig.

Module EdgeConfig.
Record t := mk {
    from_node : string;
    to_node : option string;
    condition_key : option string;
    condition_op : option string;
    condition_value : value;
    true_target : option string;
    false_target : option string }.
End EdgeConfig.

(** *** ToolRegistry *)

Module ToolRegistry.
Record t := mk { _tools : gmap string tool_fn }.

Definition init : t := mk ∅.

Definition register (self : t) (name : string) (func : tool_fn) : t :=
    mk (<[name := func]> (_tools self)).

Definition get (self : t) (name : string) : result tool_fn :=
    match _tools self !! name with
    | None => Raise (KeyError ("Tool '" +:+ name +:+ "' is not registered."))
    | Some f => Ok f
    end.

Definition list_tools (self : t) : list string :=
    (map_to_list (_tools self)).*1.
End ToolRegistry.

(** *** GraphEngine *)

Module GraphEngine.
Record t := mk {
    tool_registry : ToolRegistry.t;
    graphs : gmap string Graph.t;
    runs : gmap string Run.t }.

Definition init (tool_registry : ToolRegistry.t) : t := mk tool_registry ∅ ∅.
End GraphEngine.

(** [create_graph]; [graph_id] is the identifier drawn by [uuid4()]. *)
Definition create_graph (self : GraphEngine.t) (graph_id : string)
    (name start_node : string)
    (nodes_cfg : list NodeConfig.t) (edges_cfg : list EdgeConfig.t)
  : GraphEngine.t * string :=
  let nodes :=
    foldl (λ (nodes : gmap string Node.t) nc,
             <[NodeConfig.id nc :=
                 Node.mk (NodeConfig.id nc) (NodeConfig.tool nc) (NodeConfig.config nc)]> nodes)
          ∅ nodes_cfg in
  let edges :=
    foldl (λ (edges : gmap string Edge.t) ec,
             <[EdgeConfig.from_node ec :=
                 Edge.mk (EdgeConfig.from_node ec) (EdgeConfig.to_node ec)
                         (EdgeConfig.condition_key ec) (EdgeConfig.condition_op ec)
                         (EdgeConfig.condition_value ec)
                         (EdgeConfig.true_target ec) (EdgeConfig.false_target ec)]> edges)
          ∅ edges_cfg in
  let graph := Graph.mk graph_id name start_node nodes edges in
  (GraphEngine.mk (GraphEngine.tool_registry self)
                  (<[graph_id := graph]> (GraphEngine.graphs self))
                  (GraphEngine.runs self),
   graph_id).

Definition get_graph (self : GraphEngine.t) (graph_id : string) : result Graph.t :=
  match GraphEngine.graphs self !! graph_id with
  | None => Raise (KeyError ("Graph '" +:+ graph_id +:+ "' not found."))
  | Some g => Ok g
  end.

(** *** Transition resolution *)

Definition _compare (h : heap) (lhs : value) (op : string) (rhs : value)
  : result bool :=
  if String.eqb op "gt" then py_cmp h Gt lhs rhs
  else if String.eqb op "ge" then py_cmp h Ge lhs rhs
  else if String.eqb op "lt" then py_cmp h Lt lhs rhs
  else if String.eqb op "le" then py_cmp h Le lhs rhs
  else if String.eqb op "eq" then py_cmp h Eq_ lhs rhs
  else if String.eqb op "ne" then py_cmp h Ne lhs rhs
  else Raise (ValueError ("Unsupported operator '" +:+ op +:+ "'.")).

Definition _next_node_id (graph : Graph.t) (current_node_id : string)
    (state : loc) : M (option string) :=
  match Graph.edges graph !! current_node_id with
  | None => ret None
  | Some edge =>
      match Edge.condition_key edge, Edge.condition_op edge with
      | Some key, Some op =>
          do value <- dict_get state key;
          do result <- (λ h, lift (_compare h value op (Edge.condition_value edge)) h);
          ret (if result : bool then Edge.true_target edge else Edge.false_target edge)
      | _, _ => ret (Edge.to_node edge)
      end
  end.

(** *** The step loop *)

Section executor.
Context (registry : ToolRegistry.t) (graph : Graph.t) (state : loc).

  (** Tool lookup, tool call and merge of its updates into the state. *)
Definition merge_phase (node : Node.t) : M unit :=
    do tool <- lift (ToolRegistry.get registry (Node.tool node));
    do r <- tool state (Node.config node);
    do updates <- or_empty r;
    dict_update state updates.

  (** Snapshot of the merged state, then choice of the next node. *)
Definition log_phase (step_index : Z) (current_node_id : string)
      (node : Node.t) : M (StepLog.t * option string) :=
    do snapshot <- deepcopy (VRef state);
    do next_node_id <- _next_node_id graph current_node_id state;
    ret (StepLog.mk step_index (Node.id node) (Node.tool node) snapshot,
         next_node_id).

  (** The body of the loop once the node is found. *)
Definition exec_node (step_index : Z) (current_node_id : string)
      (node : Node.t) : M (StepLog.t * option string) :=
    do _ <- merge_phase node;
    log_phase step_index current_node_id node.

  (** [for step_index in range(max_steps): ... else: status = "failed"];
      [fuel] is the number of indices left in the range. *)
Fixpoint loop (fuel : nat) (step_index : Z) (current_node_id : option string)
      (logs : list StepLog.t) : M (string * option string * list StepLog.t) :=
    match fuel with
    | O => ret ("failed", current_node_id, logs)
    | S fuel' =>
        match current_node_id with
        | None => ret ("completed", current_node_id, logs)
        | Some cid =>
            match Graph.nodes graph !! cid with
            | None => ret ("failed", current_node_id, logs)
            | Some node =>
                do r <- exec_node step_index cid node;
                let '(entry, next_node_id) := r in
                loop fuel' (step_index + 1) next_node_id (logs ++ [entry])
            end
        end
    end.
End executor.

(** [run_graph]; [run_id] is the identifier drawn by [uuid4()].  The run is
    stored and returned together with the updated engine. *)
Definition run_graph (self : GraphEngine.t) (run_id : string)
    (graph_id : string) (initial_state : loc) (max_steps : Z)
  : M (GraphEngine.t * Run.t) :=
  do graph <- lift (get_graph self graph_id);
  do state <- dict_copy initial_state;
  do r <- loop (GraphEngine.tool_registry self) graph state
               (Z.to_nat max_steps) 0 (Some (Graph.start_node graph)) [];
  let '(status, current_node_id, logs) := r in
  let run := Run.mk run_id graph_id status current_node_id state logs in
  ret (GraphEngine.mk (GraphEngine.tool_registry self)
                      (GraphEngine.graphs self)
                      (<[run_id := run]> (GraphEngine.runs self)),
       run).

Definition get_run (self : GraphEngine.t) (run_id : string) : result Run.t :=
  match GraphEngine.runs self !! run_id with
  | None => Raise (KeyError ("Run '" +:+ run_id +:+ "' not found."))
  | Some r => Ok r
  end.


(** The engine after [self.runs[run.id] = run]. *)
Definition stored (self : GraphEngine.t) (r : Run.t) : GraphEngine.t :=
  GraphEngine.mk (GraphEngine.tool_registry self) (GraphEngine.graphs self)
                 (<[Run.id r := r]> (GraphEngine.runs self)).


(** ** Predicates used in the statements *)

Definition is_dict (h : heap) (l : loc) : Prop :=
  ∃ d, h !! l = Some (ODict d).

(** A tool result that [state.update(r or {})] accepts. *)
Definition mergeable (h : heap) (v : value) : Prop :=
  truthy h v = false ∨ ∃ l, v = VRef l ∧ is_dict h l.

(** The tool returns, whatever the heap, updates that can be merged (and
    the state object is still a dictionary afterwards). *)
Definition tool_succeeds (t : tool_fn) : Prop :=
  ∀ st cfg h, is_dict h st →
    ∃ h' v, t st cfg h = Done h' v ∧ is_dict h' st ∧ mergeable h' v.

(** The node's tool name resolves in the registry to a succeeding tool. *)
Definition node_runs (registry : ToolRegistry.t) (graph : Graph.t)
    (n : string) : Prop :=
  ∃ node t, Graph.nodes graph !! n = Some node
            ∧ ToolRegistry._tools registry !! Node.tool node = Some t
            ∧ tool_succeeds t.

(** The transition out of [a] carries no condition and leads to [b]
    ([None]: the path ends at [a]). *)
Definition plain_edge (graph : Graph.t) (a : string) (b : option string) : Prop :=
  match Graph.edges graph !! a with
  | None => b = None
  | Some e =>
      (Edge.condition_key e = None ∨ Edge.condition_op e = None)
      ∧ Edge.to_node e = b
  end.

(** [n], then the nodes of [rest], is a linear chain that ends at its last
    node. *)
Fixpoint linear_chain (registry : ToolRegistry.t) (graph : Graph.t)
    (n : string) (rest : list string) : Prop :=
  node_runs registry graph n ∧
  match rest with
  | [] => plain_edge graph n None
  | m :: rest' => plain_edge graph n (Some m) ∧ linear_chain registry graph m rest'
  end.

(** The heap after the engine's part of a step, on the tool's result [v]:
    [state.update(v or {})], then the snapshot of the state. *)
Definition after_step (state : loc) (v : value) (h : heap) : heap :=
  heap_of ((do updates <- or_empty v;
            do _ <- dict_update state updates;
            deepcopy (VRef state)) h).

(** [n], then the nodes of [rest], is a linear chain that ends at its last
    node and whose tools return successfully in the run that reaches [n]
    with the heap [h]: each node is in the node map, its tool name
    resolves, the call of the tool on the heap the run has reached returns
    updates that can be merged (the state object still being a
    dictionary), and the transition out of the node carries no condition. *)
Fixpoint chain_succeeds (registry : ToolRegistry.t) (graph : Graph.t)
    (state : loc) (n : string) (rest : list string) (h : heap) : Prop :=
  ∃ node t h1 v,
    Graph.nodes graph !! n = Some node
    ∧ ToolRegistry._tools registry !! Node.tool node = Some t
    ∧ t state (Node.config node) h = Done h1 v
    ∧ is_dict h1 state ∧ mergeable h1 v
    ∧ match rest with
      | [] => plain_edge graph n None
      | m :: rest' =>
          plain_edge graph n (Some m)
          ∧ chain_succeeds registry graph state m rest' (after_step state v h1)
      end.

(** The operator table of the specification: [gt] is [>], [ge] is [>=],
    [lt] is [<], [le] is [<=], [eq] is [==], [ne] is [!=]. *)
Definition operator_table (op : string) : option cmp_op :=
  if decide (op = "gt") then Some Gt
  else if decide (op = "ge") then Some Ge
  else if decide (op = "lt") then Some Lt
  else if decide (op = "le") then Some Le
  else if decide (op = "eq") then Some Eq_
  else if decide (op = "ne") then Some Ne
  else None.

(** ** Heap invariants *)

(** Every reference held by an object of the heap is allocated. *)
Definition heap_closed (h : heap) : Prop :=
  ∀ l o, h !! l = Some o → obj_refs o ⊆ dom h.

(** No object outside [F] refers into [F]. *)
Definition isolated (h : heap) (F : gset nat) : Prop :=
  ∀ l o, h !! l = Some o → l ∉ F → obj_refs o ## F.

(** [h'] comes after [h]: nothing was deallocated, the objects of [F] are
    untouched and still isolated, and the heap is still closed. *)
Definition extends (F : gset nat) (h h' : heap) : Prop :=
  heap_closed h' ∧ isolated h' F ∧ dom h ⊆ dom h'
  ∧ ∀ l, l ∈ F → h' !! l = h !! l.

(** The region of the copies of [R], [n] places up. *)
Definition shifted (n : nat) (R : gset nat) : gset nat := set_map (Nat.add n) R.

#[global] Instance nat_add_inj (n : nat) : Inj (=) (=) (Nat.add n).
Proof. intros x y Hxy. lia. Qed.

(** A tool touches the heap through its arguments only: whatever region
    [F] is isolated and away from the state and the configuration, the tool
    leaves it untouched and isolated, keeps the heap closed, and returns a
    value that does not refer into it. *)
Definition tool_frame (t : tool_fn) : Prop :=
  ∀ st cfg F h,
    heap_closed h → isolated h F → F ⊆ dom h →
    st ∈ dom h ∖ F → cfg ∈ dom h ∖ F →
    match t st cfg h with
    | Done h' v => extends F h h' ∧ val_refs v ⊆ dom h' ∖ F
    | Fail h' _ => extends F h h'
    end.

(** The heap is in order for a step: closed, with [F] allocated and
    isolated and the state and the node configurations allocated outside
    of [F]. *)
Definition ready (graph : Graph.t) (state : loc) (F : gset nat) (h : heap) : Prop :=
  heap_closed h ∧ isolated h F ∧ F ⊆ dom h ∧ state ∈ dom h ∖ F
  ∧ ∀ cid node, Graph.nodes graph !! cid = Some node → Node.config node ∈ dom h ∖ F.

(** The working heaps right after the merge of each executed step, in
    order (the heaps the loop goes through, recorded). *)
Fixpoint merged_heaps (registry : ToolRegistry.t) (graph : Graph.t) (state : loc)
    (fuel : nat) (step_index : Z) (current_node_id : option string) (h : heap)
  : list heap :=
  match fuel, current_node_id with
  | S fuel', Some cid =>
      match Graph.nodes graph !! cid with
      | Some node =>
          match merge_phase registry state node h with
          | Done hm _ =>
              hm :: match log_phase graph state step_index cid node hm with
                    | Done h' (_, next_node_id) =>
                        merged_heaps registry graph state fuel' (step_index + 1)
                                     next_node_id h'
                    | Fail _ _ => []
                    end
          | Fail _ _ => []
          end
      | None => []
      end
  | _, _ => []
  end.

(** [v'] in [h'] is a deep copy of [v] in [h]: the objects reachable from
    [v] reappear, with their references renamed alike, [n] places up. *)
Definition deep_copy_of (h : heap) (v : value) (h' : heap) (v' : value) : Prop :=
  ∃ n, v' = rename n (reach h (val_refs v)) v
       ∧ ∀ l, l ∈ reach h (val_refs v) →
              h' !! (n + l)%nat = rename_obj n (reach h (val_refs v)) <$> h !! l.

(** The snapshot of entry [e], taken of the state in [hm], is intact in
    [h]: its objects are there, in a region that nothing else refers to
    and that lies outside of [D]. *)
Definition snapshot_kept (D : gset nat) (state : loc) (hm : heap)
    (e : StepLog.t) (h : heap) : Prop :=
  ∃ n, StepLog.state_snapshot e = rename n (reach hm {[ state ]}) (VRef state)
       ∧ (∀ l, l ∈ reach hm {[ state ]} →
               h !! (n + l)%nat = rename_obj n (reach hm {[ state ]}) <$> hm !! l)
       ∧ shifted n (reach hm {[ state ]}) ⊆ dom h
       ∧ isolated h (shifted n (reach hm {[ state ]}))
       ∧ shifted n (reach hm {[ state ]}) ## D.

(** ** A small scenario *)

(** A tool that counts: it returns [{"n": state.get("n") + 1}]. *)
Definition bump_tool : tool_fn := λ st cfg,
  do v <- dict_get st "n";
  do l <- alloc (ODict {[ "n" := VInt (match v with VInt n => n + 1 | _ => 1 end) ]});
  ret (VRef l).

(** A tool that fails. *)
Definition broken_tool : tool_fn := λ st cfg, raise (OtherError "RuntimeError").

Definition demo_registry : ToolRegistry.t :=
  ToolRegistry.register
    (ToolRegistry.register ToolRegistry.init "bump" bump_tool)
    "broken" broken_tool.

(** The caller's [initial_state] [{"n": 5}] at location 0 and an empty node
    configuration at location 1. *)
Definition demo_heap : heap :=
  <[1%nat := ODict ∅]> (<[0%nat := ODict {[ "n" := VInt 5 ]}]> ∅).

Definition plain (a : string) (b : option string) : EdgeConfig.t :=
  EdgeConfig.mk a b None None VNone None None.

Definition demo_engine : GraphEngine.t :=
  let e0 := GraphEngine.init demo_registry in
  (* a -> b -> c *)
  let e1 := (create_graph e0 "chain" "chain" "a"
               [NodeConfig.mk "a" "bump" 1%nat; NodeConfig.mk "b" "bump" 1%nat;
                NodeConfig.mk "c" "bump" 1%nat]
               [plain "a" (Some "b"); plain "b" (Some "c")]).1 in
  (* a -> a while n > 0 *)
  let e2 := (create_graph e1 "spin" "spin" "a"
               [NodeConfig.mk "a" "bump" 1%nat]
               [EdgeConfig.mk "a" None (Some "n") (Some "gt") (VInt 0)
                              (Some "a") None]).1 in
  (* a -> ghost, which is no node *)
  let e3 := (create_graph e2 "dangling" "dangling" "a"
               [NodeConfig.mk "a" "bump" 1%nat]
               [plain "a" (Some "ghost")]).1 in
  (* a node whose tool was never registered *)
  let e4 := (create_graph e3 "untooled" "untooled" "a"
               [NodeConfig.mk "a" "bump" 1%nat; NodeConfig.mk "b" "nope" 1%nat]
               [plain "a" (Some "b")]).1 in
  (* a node whose tool raises *)
  let e5 := (create_graph e4 "raising" "raising" "a"
               [NodeConfig.mk "a" "broken" 1%nat] []).1 in
  (* a guard that orders None against an integer *)
  let e6 := (create_graph e5 "unordered" "unordered" "a"
               [NodeConfig.mk "a" "bump" 1%nat]
               [EdgeConfig.mk "a" None (Some "missing") (Some "gt") (VInt 0)
                              (Some "a") None]).1 in
  e6.

Definition demo_graph (graph_id : string) : Graph.t :=
  default (Graph.mk "" "" "" ∅ ∅) (GraphEngine.graphs demo_engine !! graph_id).

(** The invariant of the spinning graph: the state binds ["n"] to a
    non-negative integer. *)
Definition counts_up (state : loc) (h : heap) : Prop :=
  ∃ d v, h !! state = Some (ODict d) ∧ d !! "n" = Some (VInt v) ∧ 0 ≤ v.





(** ** Further operations and properties of the engine *)

(** The node and the edge that [create_graph] builds from a configuration. *)
Definition node_of_config (nc : NodeConfig.t) : Node.t :=
  Node.mk (NodeConfig.id nc) (NodeConfig.tool nc) (NodeConfig.config nc).

Definition edge_of_config (ec : EdgeConfig.t) : Edge.t :=
  Edge.mk (EdgeConfig.from_node ec) (EdgeConfig.to_node ec)
          (EdgeConfig.condition_key ec) (EdgeConfig.condition_op ec)
          (EdgeConfig.condition_value ec)
          (EdgeConfig.true_target ec) (EdgeConfig.false_target ec).

(** The comparison operators that order their operands. *)
Definition ordering_op (op : string) : Prop :=
  op = "gt" ∨ op = "ge" ∨ op = "lt" ∨ op = "le".

(** The outcome of the loop is final: it raised, or ended [completed], or
    ended on a node id without node. *)
Definition final_outcome (graph : Graph.t)
    (o : outcome (string * option string * list StepLog.t)) : Prop :=
  match o with
  | Fail _ _ => True
  | Done _ (s, c, _) =>
      s = "completed" ∨ ∃ cid, c = Some cid ∧ Graph.nodes graph !! cid = None
  end.

(** The same of a call of [run_graph]. *)
Definition final_run (self : GraphEngine.t) (graph_id : string)
    (o : outcome (GraphEngine.t * Run.t)) : Prop :=
  match o with
  | Fail _ _ => True
  | Done _ (_, r) =>
      Run.status r = "completed"
      ∨ ∃ graph cid, GraphEngine.graphs self !! graph_id = Some graph
                     ∧ Run.current_node r = Some cid
                     ∧ Graph.nodes graph !! cid = None
  end.

(** ** The tools ([tools.py]) *)

(** *** Strings and sequences of the host language *)

(** A string is the sequence of its characters, each a code point below
    256. *)

(** [c.isspace()]. *)
Definition is_space (c : Ascii.ascii) : bool :=
  let n := Z.of_nat (Ascii.nat_of_ascii c) in
  ((9 <=? n) && (n <=? 13)) || ((28 <=? n) && (n <=? 32))
  || (n =? 133) || (n =? 160).

(** [s.split()] with the word begun so far in [cur]: the words between
    runs of whitespace. *)
Fixpoint split_from (cur : string) (s : string) : list string :=
  match s with
  | EmptyString => match cur with EmptyString => [] | _ => [cur] end
  | String c s' =>
      if is_space c
      then match cur with
           | EmptyString => split_from "" s'
           | _ => cur :: split_from "" s'
           end
      else split_from (cur +:+ String c "") s'
  end.

Definition py_split (s : string) : list string := split_from "" s.

(** [sep.join(ws)]. *)
Fixpoint py_join (sep : string) (ws : list string) : string :=
  match ws with
  | [] => ""
  | [w] => w
  | w :: ws' => w +:+ sep +:+ py_join sep ws'
  end.

(** [range(start, stop, step)] for a step other than zero. *)
Definition py_range (start stop step : Z) : list Z :=
  let count := if 0 <? step then (stop - start + step - 1) / step
               else (start - stop - step - 1) / (- step) in
  (λ k, start + Z.of_nat k * step) <$> seq 0 (Z.to_nat count).

(** A slice bound brought into the list: a negative one counts from the
    end. *)
Definition clamp (len : nat) (k : Z) : nat :=
  if k <? 0 then Z.to_nat (Z.of_nat len + k) else Nat.min (Z.to_nat k) len.

(** [xs[lo:hi]]. *)
Definition py_slice {A} (xs : list A) (lo hi : Z) : list A :=
  take (clamp (length xs) hi - clamp (length xs) lo) (drop (clamp (length xs) lo) xs).

(** [xs[:stop]] for a value [stop]: an integer, or [None] for the whole
    list; another object is no index. *)
Definition py_slice_to {A} (xs : list A) (stop : value) : result (list A) :=
  match stop with
  | VNone => Ok xs
  | _ => match as_int stop with
         | Some z => Ok (py_slice xs 0 z)
         | None => Raise TypeError
         end
  end.

(** [v.split()]: only strings have the method. *)
Definition str_split (v : value) : result (list string) :=
  match v with
  | VStr s => Ok (py_split s)
  | _ => Raise (OtherError "AttributeError")
  end.

(** The characters of a string, each a string. *)
Fixpoint chars (s : string) : list value :=
  match s with
  | EmptyString => []
  | String c s' => VStr (String c "") :: chars s'
  end.

(** The items that iterating over [v] yields: the elements of a list, the
    characters of a string, the keys of a dictionary (in key order here:
    the heap does not record the insertion order that Python follows);
    other values are not iterable. *)
Definition iterate (h : heap) (v : value) : result (list value) :=
  match v with
  | VStr s => Ok (chars s)
  | VRef l =>
      match h !! l with
      | Some (OList xs) => Ok xs
      | Some (ODict d) => Ok (VStr <$> (map_to_list d).*1)
      | None => Raise TypeError
      end
  | _ => Raise TypeError
  end.

(** [sep.join(items)]: every item has to be a string. *)
Fixpoint join_values (sep : string) (items : list value) : result string :=
  match items with
  | [] => Ok ""
  | VStr w :: items' =>
      match items' with
      | [] => Ok w
      | _ => match join_values sep items' with
             | Ok s => Ok (w +:+ sep +:+ s)
             | Raise e => Raise e
             end
      end
  | _ => Raise TypeError
  end.

(** [d.get(k, default)]. *)
Definition get_or (l : loc) (k : string) (dflt : value) : M value :=
  λ h, match h !! l with
       | Some (ODict d) => Done h (default dflt (d !! k))
       | _ => Fail h (OtherError "AttributeError")
       end.

(** *** [split_text_tool] *)

(** The loop over [range(0, len(words), chunk_size)]: one chunk, joined by
    spaces, per start index. *)
Definition split_chunks (words : list string) (chunk_size : value)
  : result (list string) :=
  match as_int chunk_size with
  | None => Raise TypeError
  | Some z =>
      if z =? 0 then Raise (ValueError "range() arg 3 must not be zero")
      else Ok ((λ i, py_join " " (py_slice words i (i + z)))
                 <$> py_range 0 (Z.of_nat (length words)) z)
  end.

Definition split_text_tool : tool_fn := λ state config,
  do text <- get_or state "text" (VStr "");
  do size_default <- get_or config "chunk_size" (VInt 80);
  do chunk_size <- get_or state "chunk_size" size_default;
  do words <- lift (str_split text);
  do chunks <- lift (split_chunks words chunk_size);
  do lc <- alloc (OList (VStr <$> chunks));
  do ld <- alloc (ODict {[ "chunks" := VRef lc ]});
  ret (VRef ld).

(** *** [summarize_chunk] and [summarize_chunks_tool] *)

Definition summarize_chunk (chunk : value) (max_words : value) : result string :=
  match str_split chunk with
  | Ok words =>
      match py_slice_to words max_words with
      | Ok kept => Ok (py_join " " kept)
      | Raise e => Raise e
      end
  | Raise e => Raise e
  end.

(** The list comprehension: the summaries in order, up to the first chunk
    that raises. *)
Fixpoint summarize_all (chunks : list value) (size : value) : result (list string) :=
  match chunks with
  | [] => Ok []
  | chunk :: chunks' =>
      match summarize_chunk chunk size with
      | Ok s =>
          match summarize_all chunks' size with
          | Ok ss => Ok (s :: ss)
          | Raise e => Raise e
          end
      | Raise e => Raise e
      end
  end.

Definition summarize_chunks_tool : tool_fn := λ state config,
  do empty <- alloc (OList []);
  do chunks <- get_or state "chunks" (VRef empty);
  do size_default <- get_or config "per_chunk_summary_size" (VInt 30);
  do size <- get_or state "per_chunk_summary_size" size_default;
  do items <- (λ h, lift (iterate h chunks) h);
  do summaries <- lift (summarize_all items size);
  do ls <- alloc (OList (VStr <$> summaries));
  do ld <- alloc (ODict {[ "chunk_summaries" := VRef ls ]});
  ret (VRef ld).

(** *** [merge_summaries_tool] *)

Definition merge_summaries_tool : tool_fn := λ state config,
  do empty <- alloc (OList []);
  do chunk_summaries <- get_or state "chunk_summaries" (VRef empty);
  do items <- (λ h, lift (iterate h chunk_summaries) h);
  do summary <- lift (join_values " " items);
  do ld <- alloc (ODict {[ "summary" := VStr summary ]});
  ret (VRef ld).

(** *** [refine_summary_tool] *)

Definition refine_summary_tool : tool_fn := λ state config,
  do summary <- get_or state "summary" (VStr "");
  do max_default <- get_or config "max_summary_words" (VInt 80);
  do max_words <- get_or state "max_summary_words" max_default;
  do words <- lift (str_split summary);
  do short <- (λ h, lift (py_cmp h Le (VInt (Z.of_nat (length words))) max_words) h);
  if short : bool then
    do ld <- alloc (ODict ∅);
    ret (VRef ld)
  else
    do kept <- lift (py_slice_to words max_words);
    do ld <- alloc (ODict {[ "summary" := VStr (py_join " " kept) ]});
    ret (VRef ld).

(** *** [evaluate_summary_tool] *)

Definition evaluate_summary_tool : tool_fn := λ state config,
  do summary <- get_or state "summary" (VStr "");
  do words <- lift (str_split summary);
  do ld <- alloc (ODict {[ "summary_length" := VInt (Z.of_nat (length words)) ]});
  ret (VRef ld).

(** *** [register_default_tools] *)

Definition register_default_tools (registry : ToolRegistry.t) : ToolRegistry.t :=
  let r1 := ToolRegistry.register registry "split_text" split_text_tool in
  let r2 := ToolRegistry.register r1 "summarize_chunks" summarize_chunks_tool in
  let r3 := ToolRegistry.register r2 "merge_summaries" merge_summaries_tool in
  let r4 := ToolRegistry.register r3 "refine_summary" refine_summary_tool in
  ToolRegistry.register r4 "evaluate_summary" evaluate_summary_tool.

(** ** The summarization workflow ([workflows.py]) *)

(** [create_summarization_workflow]: the five node configurations are
    allocated, then the graph is created; [graph_id] is the identifier
    drawn by [uuid4()]. *)
Definition create_summarization_workflow (engine : GraphEngine.t)
    (graph_id : string) : M (GraphEngine.t * string) :=
  do c_split <- alloc (ODict {[ "chunk_size" := VInt 80 ]});
  do c_summarize <- alloc (ODict {[ "per_chunk_summary_size" := VInt 30 ]});
  do c_merge <- alloc (ODict ∅);
  do c_evaluate <- alloc (ODict ∅);
  do c_refine <- alloc (ODict {[ "max_summary_words" := VInt 80 ]});
  let nodes :=
    [ NodeConfig.mk "split" "split_text" c_split;
      NodeConfig.mk "summarize" "summarize_chunks" c_summarize;
      NodeConfig.mk "merge" "merge_summaries" c_merge;
      NodeConfig.mk "evaluate" "evaluate_summary" c_evaluate;
      NodeConfig.mk "refine" "refine_summary" c_refine ] in
  let edges :=
    [ EdgeConfig.mk "split" (Some "summarize") None None VNone None None;
      EdgeConfig.mk "summarize" (Some "merge") None None VNone None None;
      EdgeConfig.mk "merge" (Some "evaluate") None None VNone None None;
      EdgeConfig.mk "evaluate" None (Some "summary_length") (Some "gt") (VInt 80)
                    (Some "refine") None;
      EdgeConfig.mk "refine" (Some "evaluate") None None VNone None None ] in
  ret (create_graph engine graph_id "summarization_and_refinement" "split"
                    nodes edges).

(** ** Predicates and scenario for the tools and the workflow *)

(** A string without whitespace. *)
Fixpoint no_space (s : string) : bool :=
  match s with
  | EmptyString => true
  | String c s' => negb (is_space c) && no_space s'
  end.

(** A word: not empty, no whitespace. *)
Definition word (w : string) : Prop := w ≠ "" ∧ no_space w = true.

(** The [k]-th chunk of [n] words. *)
Definition chunk_at {A} (n : nat) (xs : list A) (k : nat) : list A :=
  take n (drop (k * n) xs).

(** How many chunks of [z] words a text of [len] words makes. *)
Definition chunk_count (len : nat) (z : Z) : nat :=
  Z.to_nat ((Z.of_nat len + z - 1) / z).

(** The chunks that [split_text_tool] makes of the words: each [z] words
    joined by spaces. *)
Definition chunks_of_words (words : list string) (z : Z) : list string :=
  py_join " " <$> (chunk_at (Z.to_nat z) words <$> seq 0 (chunk_count (length words) z)).

(** The summaries that [summarize_chunks_tool] makes of chunks. *)
Definition summaries_of (chunks : list string) (p : Z) : list string :=
  (λ ch, py_join " " (py_slice (py_split ch) 0 p)) <$> chunks.

(** The words of the summary that the workflow merges from a text: the
    first [p] words of each chunk of [z] words. *)
Definition merged_words (text : string) (z p : Z) : list string :=
  concat (take (Z.to_nat p)
            <$> (chunk_at (Z.to_nat z) (py_split text)
                   <$> seq 0 (chunk_count (length (py_split text)) z))).

(** The node ids that a run of the workflow logs: the refinement round is
    entered when the merged summary has more than 80 words. *)
Definition workflow_path (merged : list string) : list string :=
  if bool_decide (80 < Z.of_nat (length merged))
  then ["split"; "summarize"; "merge"; "evaluate"; "refine"; "evaluate"]
  else ["split"; "summarize"; "merge"; "evaluate"].

(** A text of [n] words. *)
Fixpoint words_text (n : nat) : string :=
  match n with
  | O => ""
  | S n' => "w " +:+ words_text n'
  end.

Definition ninety_words : string := words_text 90.

(** The graph that [create_summarization_workflow] stores, given the
    locations of the five node configurations. *)
Definition is_summarization_graph (g : Graph.t)
    (c_split c_summarize c_merge c_evaluate c_refine : loc) : Prop :=
  Graph.start_node g = "split"
  ∧ Graph.nodes g !! "split" = Some (Node.mk "split" "split_text" c_split)
  ∧ Graph.nodes g !! "summarize"
    = Some (Node.mk "summarize" "summarize_chunks" c_summarize)
  ∧ Graph.nodes g !! "merge" = Some (Node.mk "merge" "merge_summaries" c_merge)
  ∧ Graph.nodes g !! "evaluate"
    = Some (Node.mk "evaluate" "evaluate_summary" c_evaluate)
  ∧ Graph.nodes g !! "refine" = Some (Node.mk "refine" "refine_summary" c_refine)
  ∧ Graph.edges g !! "split"
    = Some (Edge.mk "split" (Some "summarize") None None VNone None None)
  ∧ Graph.edges g !! "summarize"
    = Some (Edge.mk "summarize" (Some "merge") None None VNone None None)
  ∧ Graph.edges g !! "merge"
    = Some (Edge.mk "merge" (Some "evaluate") None None VNone None None)
  ∧ Graph.edges g !! "evaluate"
    = Some (Edge.mk "evaluate" None (Some "summary_length") (Some "gt") (VInt 80)
                    (Some "refine") None)
  ∧ Graph.edges g !! "refine"
    = Some (Edge.mk "refine" (Some "evaluate") None None VNone None None).

(** A linear chain of the repository's tools, split -> summarize -> merge,
    and a caller's state for it. *)
Definition tools_engine : GraphEngine.t :=
  (create_graph (GraphEngine.init (register_default_tools ToolRegistry.init))
     "tools" "tools" "split"
     [NodeConfig.mk "split" "split_text" 1%nat;
      NodeConfig.mk "summarize" "summarize_chunks" 1%nat;
      NodeConfig.mk "merge" "merge_summaries" 1%nat]
     [plain "split" (Some "summarize"); plain "summarize" (Some "merge")]).1.

Definition tools_graph : Graph.t :=
  default (Graph.mk "" "" "" ∅ ∅) (GraphEngine.graphs tools_engine !! "tools").

Definition tools_heap : heap :=
  <[1%nat := ODict ∅]>
    (<[0%nat := ODict (<[ "text" := VStr "a b c" ]> {[ "chunk_size" := VInt 2 ]})]> ∅).

(** ** The HTTP handlers ([main.py]) *)

(** What a handler gives back: its response model, or an [HTTPException]
    with a status code (the detail text is left out). *)
Inductive http (A : Type) :=
  | Reply (a : A)
  | HTTPException (status_code : Z).
Arguments Reply {A} a.
Arguments HTTPException {A} status_code.

Module GraphRunResponse.
Record t := mk {
  run_id : string;
  final_state : loc;
  log : list StepLog.t;
  status : string;
}.
End GraphRunResponse.

Module RunStateResponse.
Record t := mk {
  run_id : string;
  graph_id : string;
  status : string;
  current_node : option string;
  state : loc;
  log : list StepLog.t;
}.
End RunStateResponse.

Module main.

(** [GET /graph/state/{run_id}]: only a KeyError is caught. *)
Definition get_run_state (engine : GraphEngine.t) (run_id : string)
  : result (http RunStateResponse.t) :=
  match get_run engine run_id with
  | Ok run =>
      Ok (Reply (RunStateResponse.mk (Run.id run) (Run.graph_id run)
                                     (Run.status run) (Run.current_node run)
                                     (Run.state run) (Run.log run)))
  | Raise (KeyError _) => Ok (HTTPException 404)
  | Raise e => Raise e
  end.

(** [POST /graph/run]: [engine.run_graph] with its default budget of 100
    steps; a KeyError becomes status 404, any other exception 500 (the
    exceptions of the embedding all derive from [Exception]).  The engine
    is the module's global: it is returned as the call leaves it.  In the
    body [run_graph] is the engine's method. *)
Definition run_graph (engine : GraphEngine.t) (run_id : string)
    (graph_id : string) (initial_state : loc) (h : heap)
  : heap * GraphEngine.t * http GraphRunResponse.t :=
  match run_graph engine run_id graph_id initial_state 100 h with
  | Done h' (engine', run) =>
      (h', engine',
       Reply (GraphRunResponse.mk (Run.id run) (Run.state run) (Run.log run)
                                  (Run.status run)))
  | Fail h' (KeyError _) => (h', engine, HTTPException 404)
  | Fail h' _ => (h', engine, HTTPException 500)
  end.

End main.

(** The status code for an exception that leaves [run_graph]. *)
Definition status_of (e : exn) : Z :=
  match e with KeyError _ => 404 | _ => 500 end.

(** ** Properties *)

(** *** The monad *)

Lemma bind_Done {A B} (c : M A) (k : A → M B) h h' a :
  c h = Done h' a → bind c k h = k a h'.
Proof. unfold bind. by intros ->. Qed.

Lemma bind_Fail {A B} (c : M A) (k : A → M B) h h' e :
  c h = Fail h' e → bind c k h = Fail h' e.
Proof. unfold bind. by intros ->. Qed.

Lemma bind_inv_Done {A B} (c : M A) (k : A → M B) h h2 b :
  bind c k h = Done h2 b → ∃ h1 a, c h = Done h1 a ∧ k a h1 = Done h2 b.
Proof. unfold bind. destruct (c h) as [h1 a|]; [eauto | done]. Qed.

(** *** ToolRegistry *)

Lemma registry_get_registered reg name f :
  ToolRegistry.get (ToolRegistry.register reg name f) name = Ok f.
Proof. unfold ToolRegistry.get, ToolRegistry.register. simpl. by rewrite lookup_insert_eq. Qed.

Lemma registry_get_other reg name name' f :
  name ≠ name' →
  ToolRegistry.get (ToolRegistry.register reg name f) name' = ToolRegistry.get reg name'.
Proof.
  intros Hne. unfold ToolRegistry.get, ToolRegistry.register. simpl.
  by rewrite lookup_insert_ne.
Qed.

Lemma registry_never_registered (ops : list (string * tool_fn)) name :
  name ∉ ops.*1 →
  ToolRegistry._tools
    (foldl (λ r p, ToolRegistry.register r p.1 p.2) ToolRegistry.init ops) !! name = None.
Proof.
  induction ops as [|[n f] ops IH] using rev_ind; [done|].
  rewrite fmap_app, foldl_app. simpl. intros Hnot.
  rewrite lookup_insert_ne; [apply IH|]; set_solver.
Qed.

(** C9. Registering [g] under a name already bound to [f] makes [get]
    return [g]; [get] on a name that no registration has used raises the
    KeyError that names it. *)
Theorem registry_last_write_wins :
  (∀ reg n f g,
     ToolRegistry.get (ToolRegistry.register (ToolRegistry.register reg n f) n g) n
     = Ok g)
  ∧ (∀ (ops : list (string * tool_fn)) n,
       n ∉ ops.*1 →
       ToolRegistry.get
         (foldl (λ r p, ToolRegistry.register r p.1 p.2) ToolRegistry.init ops) n
       = Raise (KeyError ("Tool '" +:+ n +:+ "' is not registered."))).
Proof.
  split.
  - intros. apply registry_get_registered.
  - intros ops n Hn. unfold ToolRegistry.get.
    by rewrite registry_never_registered.
Qed.

Lemma registry_last_write_wins_witness :
  ToolRegistry.get
    (foldl (λ r p, ToolRegistry.register r p.1 p.2) ToolRegistry.init
           [("bump", bump_tool); ("broken", broken_tool)]) "nope"
  = Raise (KeyError "Tool 'nope' is not registered.").
Proof.
  apply (proj2 registry_last_write_wins [("bump", bump_tool); ("broken", broken_tool)] "nope").
  simpl. set_solver.
Defined.

(** *** Transition resolution *)

Lemma compare_operator_table h lhs op rhs :
  _compare h lhs op rhs =
  match operator_table op with
  | Some o => py_cmp h o lhs rhs
  | None => Raise (ValueError ("Unsupported operator '" +:+ op +:+ "'."))
  end.
Proof.
  unfold _compare, operator_table.
  repeat (case_decide as Heq;
          [ subst op; reflexivity
          | apply String.eqb_neq in Heq; rewrite Heq; clear Heq ]).
  reflexivity.
Qed.

Lemma py_cmp_int h op a b : py_cmp h op (VInt a) (VInt b) = Ok (int_cmp op a b).
Proof. reflexivity. Qed.

Lemma py_cmp_none_order h op b :
  op ≠ Eq_ → op ≠ Ne → py_cmp h op VNone (VInt b) = Raise TypeError.
Proof. by destruct op. Qed.

(** C2. [_next_node_id]: no edge keyed by the current node means no next
    node; an edge without condition gives its [to_node]; a conditional edge
    compares [state.get(condition_key)] with [condition_value] by the
    operator named in the table and gives [true_target] or [false_target]
    accordingly, and an operator outside the table raises ValueError.  On
    integers the six operators are [>], [>=], [<], [<=], [==] and [!=]. *)
Theorem next_node_id_spec (graph : Graph.t) (current : string) (state : loc) (h : heap) :
  match Graph.edges graph !! current with
  | None => _next_node_id graph current state h = Done h None
  | Some edge =>
      match Edge.condition_key edge, Edge.condition_op edge with
      | Some key, Some op =>
          ∀ d, h !! state = Some (ODict d) →
            let lhs := default VNone (d !! key) in
            match operator_table op with
            | Some o =>
                match py_cmp h o lhs (Edge.condition_value edge) with
                | Ok true =>
                    _next_node_id graph current state h = Done h (Edge.true_target edge)
                | Ok false =>
                    _next_node_id graph current state h = Done h (Edge.false_target edge)
                | Raise e => _next_node_id graph current state h = Fail h e
                end
            | None =>
                _next_node_id graph current state h
                = Fail h (ValueError ("Unsupported operator '" +:+ op +:+ "'."))
            end
      | _, _ => _next_node_id graph current state h = Done h (Edge.to_node edge)
      end
  end
  ∧ (∀ a b : Z,
       _compare h (VInt a) "gt" (VInt b) = Ok (bool_decide (a > b))
       ∧ _compare h (VInt a) "ge" (VInt b) = Ok (bool_decide (a >= b))
       ∧ _compare h (VInt a) "lt" (VInt b) = Ok (bool_decide (a < b))
       ∧ _compare h (VInt a) "le" (VInt b) = Ok (bool_decide (a <= b))
       ∧ _compare h (VInt a) "eq" (VInt b) = Ok (bool_decide (a = b))
       ∧ _compare h (VInt a) "ne" (VInt b) = Ok (bool_decide (a ≠ b))).
Proof.
  split.
  - unfold _next_node_id.
    destruct (Graph.edges graph !! current) as [edge|]; [|done].
    destruct (Edge.condition_key edge) as [key|]; [|done].
    destruct (Edge.condition_op edge) as [op|]; [|done].
    simpl. intros d Hd. unfold bind, dict_get. rewrite Hd.
    rewrite compare_operator_table.
    destruct (operator_table op) as [o|]; [|done].
    destruct (py_cmp h o _ (Edge.condition_value edge)) as [[]|]; done.
  - intros a b. rewrite !compare_operator_table. simpl. rewrite !py_cmp_int.
    unfold int_cmp. repeat split; f_equal.
    + rewrite Z.gtb_ltb. destruct (Z.ltb_spec b a); case_bool_decide; lia.
    + rewrite Z.geb_leb. destruct (Z.leb_spec b a); case_bool_decide; lia.
    + destruct (Z.ltb_spec a b); case_bool_decide; lia.
    + destruct (Z.leb_spec a b); case_bool_decide; lia.
    + destruct (Z.eqb_spec a b); case_bool_decide; lia.
    + destruct (Z.eqb_spec a b); case_bool_decide; simpl; congruence.
Qed.

(** *** The step loop and [run_graph] *)

Lemma run_graph_unknown self run_id graph_id initial_state max_steps h :
  GraphEngine.graphs self !! graph_id = None →
  run_graph self run_id graph_id initial_state max_steps h
  = Fail h (KeyError ("Graph '" +:+ graph_id +:+ "' not found.")).
Proof. intros Hg. unfold run_graph, get_graph, bind. by rewrite Hg. Qed.

Lemma run_graph_unfold self run_id graph_id initial_state max_steps h graph d :
  GraphEngine.graphs self !! graph_id = Some graph →
  h !! initial_state = Some (ODict d) →
  run_graph self run_id graph_id initial_state max_steps h =
  match loop (GraphEngine.tool_registry self) graph (heap_top h)
             (Z.to_nat max_steps) 0 (Some (Graph.start_node graph)) []
             (<[heap_top h := ODict d]> h) with
  | Done hf (status, current, logs) =>
      let r := Run.mk run_id graph_id status current (heap_top h) logs in
      Done hf (stored self r, r)
  | Fail hf e => Fail hf e
  end.
Proof.
  intros Hg Hd. unfold run_graph, get_graph, bind, dict_copy, alloc.
  rewrite Hg. simpl. rewrite Hd.
  destruct (loop _ _ _ _ _ _ _ _) as [hf [[s c] l]|]; done.
Qed.

Lemma run_graph_inv self run_id graph_id initial_state max_steps h hf self' r :
  run_graph self run_id graph_id initial_state max_steps h = Done hf (self', r) →
  ∃ graph d,
    GraphEngine.graphs self !! graph_id = Some graph
    ∧ h !! initial_state = Some (ODict d)
    ∧ loop (GraphEngine.tool_registry self) graph (heap_top h)
           (Z.to_nat max_steps) 0 (Some (Graph.start_node graph)) []
           (<[heap_top h := ODict d]> h)
      = Done hf (Run.status r, Run.current_node r, Run.log r)
    ∧ Run.id r = run_id ∧ Run.graph_id r = graph_id
    ∧ Run.state r = heap_top h
    ∧ self' = stored self r.
Proof.
  intros Hrun.
  destruct (GraphEngine.graphs self !! graph_id) as [graph|] eqn:Hg;
    [|by rewrite run_graph_unknown in Hrun].
  destruct (h !! initial_state) as [[d|xs]|] eqn:Hd;
    [| unfold run_graph, get_graph, bind, dict_copy in Hrun;
       rewrite Hg in Hrun; simpl in Hrun; by rewrite Hd in Hrun ..].
  rewrite (run_graph_unfold _ _ _ _ _ _ graph d) in Hrun by done.
  destruct (loop _ _ _ _ _ _ _ _) as [h' [[s c] l]|] eqn:Hloop; [|done].
  simpl in Hrun. injection Hrun as <- <- <-. exists graph, d. by repeat split.
Qed.

Section loop_facts.
Context (registry : ToolRegistry.t) (graph : Graph.t) (state : loc).

Lemma loop_exec_fails fuel i cid node logs h h' e :
  Graph.nodes graph !! cid = Some node →
  exec_node registry graph state i cid node h = Fail h' e →
  loop registry graph state (S fuel) i (Some cid) logs h = Fail h' e.
Proof. intros Hn He. simpl. rewrite Hn. by apply bind_Fail. Qed.

Lemma loop_exec_step fuel i cid node logs h h' entry next :
  Graph.nodes graph !! cid = Some node →
  exec_node registry graph state i cid node h = Done h' (entry, next) →
  loop registry graph state (S fuel) i (Some cid) logs h
  = loop registry graph state fuel (i + 1) next (logs ++ [entry]) h'.
Proof. intros Hn He. simpl. rewrite Hn. by rewrite (bind_Done _ _ _ _ _ He). Qed.

(** How the loop can end: [completed] only with budget to spare and no
    current node; [failed] only on a node id without node or with the
    budget used up. *)
Lemma loop_result fuel i current logs h h' s c l :
  loop registry graph state fuel i current logs h = Done h' (s, c, l) →
  (s = "completed" ∧ c = None ∧ (length l < length logs + fuel)%nat)
  ∨ (s = "failed"
     ∧ ((∃ cid, c = Some cid ∧ Graph.nodes graph !! cid = None)
        ∨ length l = (length logs + fuel)%nat)).
Proof.
  revert i current logs h.
  induction fuel as [|fuel IH]; intros i current logs h Hloop.
  - injection Hloop as <- <- <- <-. right. split; [done|]. right. lia.
  - simpl in Hloop. destruct current as [cid|].
    + destruct (Graph.nodes graph !! cid) as [node|] eqn:Hn.
      * apply bind_inv_Done in Hloop as (h1 & [entry next] & _ & Hloop).
        apply IH in Hloop. rewrite length_app in Hloop. simpl in Hloop.
        destruct Hloop as [(-> & -> & Hlen)|(-> & [Hd|Hlen])].
        -- left. repeat split; lia.
        -- right. split; [done|]. by left.
        -- right. split; [done|]. right. lia.
      * injection Hloop as <- <- <- <-. right. split; [done|]. left. eauto.
    + injection Hloop as <- <- <- <-. left. repeat split. lia.
Qed.
End loop_facts.

(** C8. With an unknown graph id [run_graph] raises KeyError and returns no
    engine with a new run; a run that [run_graph] returns, completed or
    failed, is stored under its id, where [get_run] finds it, and the other
    ids are as before; [get_run] on an id without stored run raises
    KeyError. *)
Theorem run_is_stored self run_id graph_id initial_state max_steps h :
  (GraphEngine.graphs self !! graph_id = None →
     run_graph self run_id graph_id initial_state max_steps h
     = Fail h (KeyError ("Graph '" +:+ graph_id +:+ "' not found.")))
  ∧ (∀ hf self' r,
       run_graph self run_id graph_id initial_state max_steps h = Done hf (self', r) →
       (Run.status r = "completed" ∨ Run.status r = "failed")
       ∧ Run.id r = run_id
       ∧ get_run self' (Run.id r) = Ok r
       ∧ ∀ other, other ≠ run_id → get_run self' other = get_run self other)
  ∧ (∀ other,
       GraphEngine.runs self !! other = None →
       get_run self other = Raise (KeyError ("Run '" +:+ other +:+ "' not found."))).
Proof.
  split; [apply run_graph_unknown|]. split.
  - intros hf self' r Hrun.
    apply run_graph_inv in Hrun
      as (graph & d & _ & _ & Hloop & Hid & _ & _ & ->).
    apply loop_result in Hloop. split; [naive_solver|]. split; [done|].
    unfold get_run, stored. simpl. rewrite lookup_insert_eq. split; [done|].
    intros other Hne. rewrite lookup_insert_ne; [done | congruence].
  - intros other Hnone. unfold get_run. by rewrite Hnone.
Qed.

(** *** Allocation *)

Lemma heap_top_above (h : heap) l : l ∈ dom h → (l < heap_top h)%nat.
Proof.
  intros Hl. unfold heap_top.
  assert (l ≤ max_list (elements (dom h)))%nat; [|lia].
  apply max_list_elem_of_le. by apply elem_of_elements.
Qed.

Lemma heap_top_fresh (h : heap) : h !! heap_top h = None.
Proof.
  apply not_elem_of_dom. intros Hin. apply heap_top_above in Hin. lia.
Qed.

Lemma is_dict_alloc h l o : is_dict h l → is_dict (<[heap_top h := o]> h) l.
Proof.
  intros [d Hd]. exists d. rewrite lookup_insert_ne; [done|].
  intros <-. by rewrite heap_top_fresh in Hd.
Qed.

Lemma deepcopy_keeps v h h' v' l o :
  deepcopy v h = Done h' v' → h !! l = Some o → h' !! l = Some o.
Proof.
  unfold deepcopy. intros [= <- _] Hl. by apply lookup_union_Some_l.
Qed.

Lemma deepcopy_returns v h : ∃ h' v', deepcopy v h = Done h' v'.
Proof. unfold deepcopy. eauto. Qed.

(** *** Steps that succeed *)

Section steps.
Context (registry : ToolRegistry.t) (graph : Graph.t) (state : loc).

Lemma or_empty_mergeable v h :
  mergeable h v → is_dict h state →
  ∃ h' l, or_empty v h = Done h' (VRef l) ∧ is_dict h' l ∧ is_dict h' state.
Proof.
  intros Hm Hst. unfold or_empty.
  destruct (truthy h v) eqn:Ht.
  - destruct Hm as [?|(l & -> & Hl)]; [congruence|]. eauto.
  - unfold bind, alloc, ret. eexists _, _. split; [done|]. split.
    + eexists. apply lookup_insert_eq.
    + by apply is_dict_alloc.
Qed.

Lemma dict_update_dicts l h :
  is_dict h l → is_dict h state →
  ∃ h', dict_update state (VRef l) h = Done h' () ∧ is_dict h' state.
Proof.
  intros [du Hu] [d Hd]. unfold dict_update. rewrite Hd, Hu.
  eexists. split; [done|]. eexists. apply lookup_insert_eq.
Qed.

Lemma merge_phase_succeeds node t h :
  ToolRegistry._tools registry !! Node.tool node = Some t →
  tool_succeeds t → is_dict h state →
  ∃ h', merge_phase registry state node h = Done h' () ∧ is_dict h' state.
Proof.
  intros Ht Hok Hst. unfold merge_phase, ToolRegistry.get. rewrite Ht. simpl.
  destruct (Hok state (Node.config node) h Hst) as (h1 & v & Hcall & Hst1 & Hm).
  destruct (or_empty_mergeable v h1 Hm Hst1) as (h2 & l & Hor & Hl & Hst2).
  destruct (dict_update_dicts l h2 Hl Hst2) as (h3 & Hup & Hst3).
  exists h3. split; [|done].
  unfold bind at 1. unfold lift, ret.
  rewrite (bind_Done _ _ _ _ _ Hcall), (bind_Done _ _ _ _ _ Hor). done.
Qed.

Lemma next_node_id_plain cid b h :
  plain_edge graph cid b → _next_node_id graph cid state h = Done h b.
Proof.
  unfold plain_edge, _next_node_id.
  destruct (Graph.edges graph !! cid) as [e|]; [|by intros ->].
  intros [[Hk|Ho] <-]; rewrite ?Hk, ?Ho; [done|].
  by destruct (Edge.condition_key e).
Qed.

(** A node with a succeeding tool and a transition without condition: the
    step returns its log entry and the edge's target. *)
Lemma exec_node_plain i cid node t b h :
  ToolRegistry._tools registry !! Node.tool node = Some t →
  tool_succeeds t → plain_edge graph cid b → is_dict h state →
  ∃ h' snapshot,
    exec_node registry graph state i cid node h
    = Done h' (StepLog.mk i (Node.id node) (Node.tool node) snapshot, b)
    ∧ is_dict h' state.
Proof.
  intros Ht Hok Hedge Hst.
  destruct (merge_phase_succeeds node t h Ht Hok Hst) as (h1 & Hmerge & Hst1).
  destruct (deepcopy_returns (VRef state) h1) as (h2 & snapshot & Hcopy).
  exists h2, snapshot. split.
  - unfold exec_node. rewrite (bind_Done _ _ _ _ _ Hmerge).
    unfold log_phase. rewrite (bind_Done _ _ _ _ _ Hcopy).
    by rewrite (bind_Done _ _ _ _ _ (next_node_id_plain cid b h2 Hedge)).
  - destruct Hst1 as [d Hd]. exists d. by eapply deepcopy_keeps.
Qed.

(** The loop on a linear chain of [k] nodes with a budget of at least [k]:
    one entry per node, numbered from the starting index; [completed] when
    the budget exceeds [k], [failed] when it is exactly [k]. *)
Lemma loop_linear_chain rest : ∀ n fuel i logs h,
  linear_chain registry graph n rest → is_dict h state →
  (length rest < fuel)%nat →
  ∃ h' entries,
    loop registry graph state fuel i (Some n) logs h
    = Done h' (if bool_decide (S (length rest) < fuel)%nat
               then "completed" else "failed", None, logs ++ entries)
    ∧ StepLog.step_index <$> entries = seqZ i (Z.of_nat (S (length rest)))
    ∧ StepLog.node_id <$> entries
      = (λ m, default m (Node.id <$> Graph.nodes graph !! m)) <$> (n :: rest).
Proof.
  induction rest as [|m rest IH]; intros n fuel i logs h Hchain Hst Hfuel;
    destruct fuel as [|fuel]; try (simpl in Hfuel; lia);
    destruct Hchain as [(node & t & Hn & Ht & Hok) Hrest].
  - destruct (exec_node_plain i n node t None h Ht Hok Hrest Hst)
      as (h1 & snapshot & Hexec & Hst1).
    exists h1, [StepLog.mk i (Node.id node) (Node.tool node) snapshot].
    rewrite (loop_exec_step _ _ _ _ _ _ _ _ _ _ _ _ Hn Hexec). simpl.
    rewrite Hn. split; [|done].
    destruct fuel as [|fuel]; simpl; try case_bool_decide; (done || lia).
  - destruct Hrest as [Hedge Hrest].
    destruct (exec_node_plain i n node t (Some m) h Ht Hok Hedge Hst)
      as (h1 & snapshot & Hexec & Hst1).
    simpl in Hfuel.
    destruct (IH m fuel (i + 1)
                 (logs ++ [StepLog.mk i (Node.id node) (Node.tool node) snapshot])
                 h1 Hrest Hst1 ltac:(lia)) as (h2 & entries & Hloop & Hidx & Hids).
    exists h2, (StepLog.mk i (Node.id node) (Node.tool node) snapshot :: entries).
    rewrite (loop_exec_step _ _ _ _ _ _ _ _ _ _ _ _ Hn Hexec), Hloop.
    split; [|split].
    + rewrite <- app_assoc. simpl.
      rewrite (bool_decide_ext (S (S (length rest)) < S fuel)%nat
                               (S (length rest) < fuel)%nat) by lia.
      done.
    + rewrite fmap_cons, Hidx. simpl StepLog.step_index.
      replace (Z.of_nat (S (length (m :: rest)))) with (Z.succ (Z.of_nat (S (length rest))))
        by (simpl length; lia).
      rewrite (seqZ_cons i) by lia. f_equal. f_equal; lia.
    + rewrite fmap_cons, Hids. simpl. by rewrite Hn.
Qed.
End steps.

Lemma bump_tool_succeeds : tool_succeeds bump_tool.
Proof.
  intros st cfg h [d Hd]. unfold bump_tool, bind, dict_get, alloc, ret.
  rewrite Hd. eexists _, _. split; [done|]. split.
  - apply is_dict_alloc. by exists d.
  - right. eexists. split; [done|]. eexists. apply lookup_insert_eq.
Qed.

Section run_facts.
Context (self : GraphEngine.t) (run_id graph_id : string) (initial_state : loc).
Context (h : heap) (graph : Graph.t) (d : gmap string value).
Context (Hgraph : GraphEngine.graphs self !! graph_id = Some graph).
Context (Hinit : h !! initial_state = Some (ODict d)).

Lemma run_graph_loop_done max_steps hf status current logs :
  loop (GraphEngine.tool_registry self) graph (heap_top h)
       (Z.to_nat max_steps) 0 (Some (Graph.start_node graph)) []
       (<[heap_top h := ODict d]> h) = Done hf (status, current, logs) →
  run_graph self run_id graph_id initial_state max_steps h
  = Done hf (stored self (Run.mk run_id graph_id status current (heap_top h) logs),
             Run.mk run_id graph_id status current (heap_top h) logs).
Proof. intros Hloop. rewrite (run_graph_unfold _ _ _ _ _ _ graph d) by done. by rewrite Hloop. Qed.

Lemma run_graph_loop_fail max_steps hf e :
  loop (GraphEngine.tool_registry self) graph (heap_top h)
       (Z.to_nat max_steps) 0 (Some (Graph.start_node graph)) []
       (<[heap_top h := ODict d]> h) = Fail hf e →
  run_graph self run_id graph_id initial_state max_steps h = Fail hf e.
Proof. intros Hloop. rewrite (run_graph_unfold _ _ _ _ _ _ graph d) by done. by rewrite Hloop. Qed.

Lemma initial_state_is_dict : is_dict (<[heap_top h := ODict d]> h) (heap_top h).
Proof. exists d. apply lookup_insert_eq. Qed.
End run_facts.

(** *** Chains whose tools succeed in the run *)

Section chains.
Context (registry : ToolRegistry.t) (graph : Graph.t) (state : loc).

(** A step whose tool returned [v]: the heap afterwards is [after_step]. *)
Lemma exec_node_after_step i cid node (t : tool_fn) b h h1 v :
  ToolRegistry._tools registry !! Node.tool node = Some t →
  t state (Node.config node) h = Done h1 v →
  is_dict h1 state → mergeable h1 v →
  plain_edge graph cid b →
  is_dict (after_step state v h1) state
  ∧ ∃ snapshot,
      exec_node registry graph state i cid node h
      = Done (after_step state v h1)
             (StepLog.mk i (Node.id node) (Node.tool node) snapshot, b).
Proof.
  intros Ht Hcall Hst Hm Hedge.
  destruct (or_empty_mergeable state v h1 Hm Hst) as (h2 & l & Hor & Hl & Hst2).
  destruct (dict_update_dicts state l h2 Hl Hst2) as (h3 & Hup & Hst3).
  destruct (deepcopy_returns (VRef state) h3) as (h4 & snapshot & Hcopy).
  assert (after_step state v h1 = h4) as ->.
  { unfold after_step.
    by rewrite (bind_Done _ _ _ _ _ Hor), (bind_Done _ _ _ _ _ Hup), Hcopy. }
  split.
  - destruct Hst3 as [d Hd]. exists d. by eapply deepcopy_keeps.
  - assert (merge_phase registry state node h = Done h3 ()) as Hmerge.
    { unfold merge_phase, ToolRegistry.get. rewrite Ht. simpl.
      unfold bind at 1. unfold lift, ret.
      by rewrite (bind_Done _ _ _ _ _ Hcall), (bind_Done _ _ _ _ _ Hor). }
    exists snapshot. unfold exec_node. rewrite (bind_Done _ _ _ _ _ Hmerge).
    unfold log_phase. rewrite (bind_Done _ _ _ _ _ Hcopy).
    by rewrite (bind_Done _ _ _ _ _ (next_node_id_plain graph state cid b _ Hedge)).
Qed.

(** The loop along a chain whose tools succeed in the run, with a budget
    of at least its [k] nodes: one entry per node, numbered from the
    starting index; [completed] when the budget exceeds [k]. *)
Lemma loop_chain_succeeds rest : ∀ n fuel i logs h,
  chain_succeeds registry graph state n rest h →
  (length rest < fuel)%nat →
  ∃ h' entries,
    loop registry graph state fuel i (Some n) logs h
    = Done h' (if bool_decide (S (length rest) < fuel)%nat
               then "completed" else "failed", None, logs ++ entries)
    ∧ StepLog.step_index <$> entries = seqZ i (Z.of_nat (S (length rest)))
    ∧ StepLog.node_id <$> entries
      = (λ m, default m (Node.id <$> Graph.nodes graph !! m)) <$> (n :: rest).
Proof.
  induction rest as [|m rest IH]; intros n fuel i logs h Hchain Hfuel;
    destruct fuel as [|fuel]; try (simpl in Hfuel; lia);
    destruct Hchain as (node & t & h1 & v & Hn & Ht & Hcall & Hst & Hm & Hrest).
  - destruct (exec_node_after_step i n node t None h h1 v Ht Hcall Hst Hm Hrest)
      as (_ & snapshot & Hexec).
    eexists _, [StepLog.mk i (Node.id node) (Node.tool node) snapshot].
    rewrite (loop_exec_step _ _ _ _ _ _ _ _ _ _ _ _ Hn Hexec). simpl.
    rewrite Hn. split; [|done].
    destruct fuel as [|fuel]; simpl; try case_bool_decide; (done || lia).
  - destruct Hrest as [Hedge Hrest].
    destruct (exec_node_after_step i n node t (Some m) h h1 v Ht Hcall Hst Hm Hedge)
      as (_ & snapshot & Hexec).
    simpl in Hfuel.
    destruct (IH m fuel (i + 1)
                 (logs ++ [StepLog.mk i (Node.id node) (Node.tool node) snapshot])
                 _ Hrest ltac:(lia)) as (h2 & entries & Hloop & Hidx & Hids).
    exists h2, (StepLog.mk i (Node.id node) (Node.tool node) snapshot :: entries).
    rewrite (loop_exec_step _ _ _ _ _ _ _ _ _ _ _ _ Hn Hexec), Hloop.
    split; [|split].
    + rewrite <- app_assoc. simpl.
      rewrite (bool_decide_ext (S (S (length rest)) < S fuel)%nat
                               (S (length rest) < fuel)%nat) by lia.
      done.
    + rewrite fmap_cons, Hidx. simpl StepLog.step_index.
      replace (Z.of_nat (S (length (m :: rest)))) with (Z.succ (Z.of_nat (S (length rest))))
        by (simpl length; lia).
      rewrite (seqZ_cons i) by lia. f_equal. f_equal; lia.
    + rewrite fmap_cons, Hids. simpl. by rewrite Hn.
Qed.

(** A chain of tools that succeed whatever the heap succeeds in every
    run. *)
Lemma linear_chain_succeeds rest : ∀ n h,
  linear_chain registry graph n rest → is_dict h state →
  chain_succeeds registry graph state n rest h.
Proof.
  induction rest as [|m rest IH]; intros n h [(node & t & Hn & Ht & Hok) Hrest] Hst;
    destruct (Hok state (Node.config node) h Hst) as (h1 & v & Hcall & Hst1 & Hm);
    exists node, t, h1, v; repeat (split; [done|]); [done|].
  destruct Hrest as [Hedge Hrest]. split; [done|]. apply IH; [done|].
  by destruct (exec_node_after_step 0 n node t (Some m) h h1 v Ht Hcall Hst1 Hm Hedge).
Qed.
End chains.

(** C5. A linear chain of [k] nodes ([k >= 1]) joined by unconditional
    edges, each node in the node map with a tool that resolves and, called
    in the run, returns successfully, run with [k < max_steps]: the run is
    [completed] and its log has exactly [k] entries with [step_index]
    0, 1, ..., k-1 in order. *)
Theorem linear_chain_completes self run_id graph_id initial_state max_steps
    h graph d rest :
  GraphEngine.graphs self !! graph_id = Some graph →
  h !! initial_state = Some (ODict d) →
  chain_succeeds (GraphEngine.tool_registry self) graph (heap_top h)
                 (Graph.start_node graph) rest (<[heap_top h := ODict d]> h) →
  Z.of_nat (S (length rest)) < max_steps →
  ∃ hf self' r,
    run_graph self run_id graph_id initial_state max_steps h = Done hf (self', r)
    ∧ Run.status r = "completed"
    ∧ length (Run.log r) = S (length rest)
    ∧ StepLog.step_index <$> Run.log r = seqZ 0 (Z.of_nat (S (length rest))).
Proof.
  intros Hgraph Hinit Hchain Hk.
  destruct (loop_chain_succeeds (GraphEngine.tool_registry self) graph (heap_top h)
              rest (Graph.start_node graph) (Z.to_nat max_steps) 0 []
              (<[heap_top h := ODict d]> h) Hchain ltac:(lia))
    as (hf & entries & Hloop & Hidx & _).
  rewrite bool_decide_true in Hloop by lia. simpl in Hloop.
  eexists hf, _, _. split; [by eapply run_graph_loop_done|]. simpl.
  split; [done|]. split; [|done].
  rewrite <- (length_fmap StepLog.step_index), Hidx, length_seqZ. lia.
Qed.

(** C4. A run is [completed] only if the current node was found to be none
    with budget to spare (fewer log entries than [max_steps]); so with
    [max_steps = 0] every run is [failed] with an empty log, and a linear
    chain of exactly [max_steps] nodes ends [failed] although the returned
    current node is none. *)
Theorem step_budget_boundary self run_id graph_id initial_state max_steps h :
  (∀ hf self' r,
     run_graph self run_id graph_id initial_state max_steps h = Done hf (self', r) →
     Run.status r = "completed" →
     Run.current_node r = None ∧ Z.of_nat (length (Run.log r)) < max_steps)
  ∧ (∀ graph d,
       GraphEngine.graphs self !! graph_id = Some graph →
       h !! initial_state = Some (ODict d) →
       max_steps = 0 →
       ∃ hf self' r,
         run_graph self run_id graph_id initial_state max_steps h = Done hf (self', r)
         ∧ Run.status r = "failed" ∧ Run.log r = [])
  ∧ (∀ graph d rest,
       GraphEngine.graphs self !! graph_id = Some graph →
       h !! initial_state = Some (ODict d) →
       linear_chain (GraphEngine.tool_registry self) graph (Graph.start_node graph) rest →
       max_steps = Z.of_nat (S (length rest)) →
       ∃ hf self' r,
         run_graph self run_id graph_id initial_state max_steps h = Done hf (self', r)
         ∧ Run.status r = "failed" ∧ Run.current_node r = None
         ∧ length (Run.log r) = S (length rest)).
Proof.
  split; [|split].
  - intros hf self' r Hrun Hstatus.
    apply run_graph_inv in Hrun as (graph & d & _ & _ & Hloop & _).
    apply loop_result in Hloop as [(_ & Hc & Hlen)|(Hs & _)].
    + split; [done|]. simpl in Hlen. lia.
    + rewrite Hstatus in Hs. discriminate.
  - intros graph d Hgraph Hinit ->.
    eexists _, _, _. split; [by eapply run_graph_loop_done|]. done.
  - intros graph d rest Hgraph Hinit Hchain ->.
    destruct (loop_linear_chain (GraphEngine.tool_registry self) graph (heap_top h)
                rest (Graph.start_node graph) (S (length rest)) 0 []
                (<[heap_top h := ODict d]> h) Hchain (initial_state_is_dict h d)
                ltac:(lia)) as (hf & entries & Hloop & Hidx & _).
    rewrite bool_decide_false in Hloop by lia. simpl app in Hloop.
    eexists hf, _, _. split.
    + eapply run_graph_loop_done; [done..|]. rewrite Nat2Z.id. exact Hloop.
    + simpl. split; [done|]. split; [done|].
      rewrite <- (length_fmap StepLog.step_index), Hidx, length_seqZ. lia.
Qed.

(** The loop on a step that returns to its own node under an invariant of
    the heap: the budget runs out. *)
Lemma loop_self (registry : ToolRegistry.t) (graph : Graph.t) (state : loc)
    (Inv : heap → Prop) n node :
  Graph.nodes graph !! n = Some node →
  (∀ i h1, Inv h1 →
     ∃ h2 entry, exec_node registry graph state i n node h1 = Done h2 (entry, Some n)
                 ∧ Inv h2) →
  ∀ fuel i logs h1, Inv h1 →
    ∃ hf entries,
      loop registry graph state fuel i (Some n) logs h1
      = Done hf ("failed", Some n, logs ++ entries)
      ∧ length entries = fuel.
Proof.
  intros Hn Hstep. induction fuel as [|fuel IH]; intros i logs h1 Hinv.
  - exists h1, []. by rewrite app_nil_r.
  - destruct (Hstep i h1 Hinv) as (h2 & entry & Hexec & Hinv2).
    destruct (IH (i + 1) (logs ++ [entry]) h2 Hinv2) as (hf & entries & Hloop & Hlen).
    exists hf, (entry :: entries).
    rewrite (loop_exec_step _ _ _ _ _ _ _ _ _ _ _ _ Hn Hexec), Hloop.
    rewrite <- app_assoc. simpl. by rewrite Hlen.
Qed.

(** C3. A graph whose start node leads back to itself at every step (the
    step at that node succeeds and routes to the node again, whatever heap
    satisfying the invariant [Inv] it starts from): [run_graph] with
    [max_steps = N] returns a [failed] run with exactly [N] log entries. *)
Theorem self_loop_exhausts_budget self run_id graph_id initial_state max_steps
    h graph d node (Inv : heap → Prop) :
  GraphEngine.graphs self !! graph_id = Some graph →
  h !! initial_state = Some (ODict d) →
  Graph.nodes graph !! Graph.start_node graph = Some node →
  Inv (<[heap_top h := ODict d]> h) →
  (∀ i h1, Inv h1 →
     ∃ h2 entry,
       exec_node (GraphEngine.tool_registry self) graph (heap_top h) i
                 (Graph.start_node graph) node h1
       = Done h2 (entry, Some (Graph.start_node graph))
       ∧ Inv h2) →
  0 ≤ max_steps →
  ∃ hf self' r,
    run_graph self run_id graph_id initial_state max_steps h = Done hf (self', r)
    ∧ Run.status r = "failed"
    ∧ Z.of_nat (length (Run.log r)) = max_steps.
Proof.
  intros Hgraph Hinit Hn Hinv Hstep Hmax.
  destruct (loop_self _ _ _ Inv _ _ Hn Hstep (Z.to_nat max_steps) 0 [] _ Hinv)
    as (hf & entries & Hloop & Hlen).
  eexists hf, _, _. split; [by eapply run_graph_loop_done|]. simpl.
  split; [done|]. lia.
Qed.

(** C6. The start node's step succeeds and its edge leads to an id that is
    not in the node map: the run is [failed] and its [current_node] is that
    id. *)
Theorem dangling_target_fails self run_id graph_id initial_state max_steps
    h graph d node h2 entry target :
  GraphEngine.graphs self !! graph_id = Some graph →
  h !! initial_state = Some (ODict d) →
  Graph.nodes graph !! Graph.start_node graph = Some node →
  exec_node (GraphEngine.tool_registry self) graph (heap_top h) 0
            (Graph.start_node graph) node (<[heap_top h := ODict d]> h)
  = Done h2 (entry, Some target) →
  Graph.nodes graph !! target = None →
  1 ≤ max_steps →
  ∃ self' r,
    run_graph self run_id graph_id initial_state max_steps h = Done h2 (self', r)
    ∧ Run.status r = "failed"
    ∧ Run.current_node r = Some target
    ∧ Run.log r = [entry].
Proof.
  intros Hgraph Hinit Hn Hexec Htarget Hmax.
  eexists _, _. split.
  - eapply run_graph_loop_done; [done..|].
    destruct (Z.to_nat max_steps) as [|fuel] eqn:Hfuel; [lia|].
    rewrite (loop_exec_step _ _ _ _ _ _ _ _ _ _ _ _ Hn Hexec).
    instantiate (1 := [entry]). instantiate (1 := Some target). instantiate (1 := "failed").
    destruct fuel as [|fuel]; simpl; [done|]. by rewrite Htarget.
  - done.
Qed.

(** *** Failures inside the step loop *)

Section failures.
Context (registry : ToolRegistry.t) (graph : Graph.t) (state : loc).

Lemma exec_node_unregistered i cid node h :
  ToolRegistry._tools registry !! Node.tool node = None →
  exec_node registry graph state i cid node h
  = Fail h (KeyError ("Tool '" +:+ Node.tool node +:+ "' is not registered.")).
Proof.
  intros Ht. unfold exec_node, merge_phase, ToolRegistry.get. by rewrite Ht.
Qed.

Lemma exec_node_tool_raises i cid node (t : tool_fn) h h' e :
  ToolRegistry._tools registry !! Node.tool node = Some t →
  t state (Node.config node) h = Fail h' e →
  exec_node registry graph state i cid node h = Fail h' e.
Proof.
  intros Ht Hcall. unfold exec_node, merge_phase, ToolRegistry.get.
  rewrite Ht. unfold bind. simpl. by rewrite Hcall.
Qed.

Lemma exec_node_guard_raises i cid node h h1 h2 snapshot h3 e :
  merge_phase registry state node h = Done h1 () →
  deepcopy (VRef state) h1 = Done h2 snapshot →
  _next_node_id graph cid state h2 = Fail h3 e →
  exec_node registry graph state i cid node h = Fail h3 e.
Proof.
  intros Hmerge Hcopy Hnext. unfold exec_node, log_phase.
  rewrite (bind_Done _ _ _ _ _ Hmerge), (bind_Done _ _ _ _ _ Hcopy).
  by rewrite (bind_Fail _ _ _ _ _ Hnext).
Qed.
End failures.

(** C1, as stated, fails: the graph below is known, yet [run_graph] raises
    the registry's KeyError for the unregistered tool of its second node
    (after the first node ran), the exception of a raising tool, and the
    TypeError of a guard that orders [None] against an integer. *)
Lemma step_failures_are_raised :
  is_Some (GraphEngine.graphs demo_engine !! "untooled")
  ∧ (∃ hf, run_graph demo_engine "r1" "untooled" 0%nat 100 demo_heap
           = Fail hf (KeyError "Tool 'nope' is not registered."))
  ∧ is_Some (GraphEngine.graphs demo_engine !! "raising")
  ∧ (∃ hf, run_graph demo_engine "r1" "raising" 0%nat 100 demo_heap
           = Fail hf (OtherError "RuntimeError"))
  ∧ is_Some (GraphEngine.graphs demo_engine !! "unordered")
  ∧ (∃ hf, run_graph demo_engine "r1" "unordered" 0%nat 100 demo_heap
           = Fail hf TypeError).
Proof.
  repeat split; try (eexists; vm_compute; reflexivity).
Qed.

(** C1, amended. [run_graph] raises KeyError when the graph id is unknown.
    A failure inside the step loop is not caught: when the step at a node
    raises - its tool name is not registered, its tool raises, or the guard
    of its edge raises - the loop raises the same exception, and so does
    [run_graph], which then returns no run.  A returned run is [failed] only
    when its current node id has no node or when the log is as long as the
    step budget. *)
Theorem step_failures_propagate self run_id graph_id initial_state max_steps h :
  (GraphEngine.graphs self !! graph_id = None →
     run_graph self run_id graph_id initial_state max_steps h
     = Fail h (KeyError ("Graph '" +:+ graph_id +:+ "' not found.")))
  ∧ (∀ graph d,
       GraphEngine.graphs self !! graph_id = Some graph →
       h !! initial_state = Some (ODict d) →
       let registry := GraphEngine.tool_registry self in
       let state := heap_top h in
       (∀ hf e,
          loop registry graph state (Z.to_nat max_steps) 0
               (Some (Graph.start_node graph)) [] (<[state := ODict d]> h)
          = Fail hf e →
          run_graph self run_id graph_id initial_state max_steps h = Fail hf e)
       ∧ (∀ fuel i cid node logs h1 h2 e,
            Graph.nodes graph !! cid = Some node →
            exec_node registry graph state i cid node h1 = Fail h2 e →
            loop registry graph state (S fuel) i (Some cid) logs h1 = Fail h2 e)
       ∧ (∀ i cid node h1,
            ToolRegistry._tools registry !! Node.tool node = None →
            exec_node registry graph state i cid node h1
            = Fail h1 (KeyError ("Tool '" +:+ Node.tool node +:+ "' is not registered.")))
       ∧ (∀ i cid node (t : tool_fn) h1 h2 e,
            ToolRegistry._tools registry !! Node.tool node = Some t →
            t state (Node.config node) h1 = Fail h2 e →
            exec_node registry graph state i cid node h1 = Fail h2 e)
       ∧ (∀ i cid node h1 h2 h3 snapshot h4 e,
            merge_phase registry state node h1 = Done h2 () →
            deepcopy (VRef state) h2 = Done h3 snapshot →
            _next_node_id graph cid state h3 = Fail h4 e →
            exec_node registry graph state i cid node h1 = Fail h4 e))
  ∧ (∀ hf self' r,
       run_graph self run_id graph_id initial_state max_steps h = Done hf (self', r) →
       Run.status r = "failed" →
       (∃ graph cid, GraphEngine.graphs self !! graph_id = Some graph
                     ∧ Run.current_node r = Some cid
                     ∧ Graph.nodes graph !! cid = None)
       ∨ length (Run.log r) = Z.to_nat max_steps).
Proof.
  split; [apply run_graph_unknown|]. split.
  - intros graph d Hgraph Hinit registry state. repeat split.
    + intros hf e. by apply run_graph_loop_fail.
    + intros. by eapply loop_exec_fails.
    + intros. by apply exec_node_unregistered.
    + intros. by eapply exec_node_tool_raises.
    + intros. by eapply exec_node_guard_raises.
  - intros hf self' r Hrun Hstatus.
    apply run_graph_inv in Hrun as (graph & d & Hgraph & _ & Hloop & _).
    apply loop_result in Hloop as [(Hs & _)|(_ & [(cid & Hc & Hn)|Hlen])].
    + rewrite Hstatus in Hs. discriminate.
    + left. eauto.
    + right. exact Hlen.
Qed.

Lemma step_failures_propagate_witness :
  ∃ hf, run_graph demo_engine "r1" "untooled" 0%nat 100 demo_heap
        = Fail hf (KeyError "Tool 'nope' is not registered.").
Proof.
  eexists.
  refine (proj1 (proj1 (proj2 (step_failures_propagate
                                 demo_engine "r1" "untooled" 0%nat 100 demo_heap))
                       (demo_graph "untooled") {[ "n" := VInt 5 ]} _ _) _ _ _);
    vm_compute; reflexivity.
Defined.

(** *** The scenario *)

Lemma demo_node_runs graph_id n :
  Graph.nodes (demo_graph graph_id) !! n = Some (Node.mk n "bump" 1%nat) →
  node_runs demo_registry (demo_graph graph_id) n.
Proof.
  intros Hn. exists (Node.mk n "bump" 1%nat), bump_tool.
  split; [exact Hn|]. split; [reflexivity | apply bump_tool_succeeds].
Qed.

Lemma demo_chain :
  linear_chain demo_registry (demo_graph "chain") "a" ["b"; "c"].
Proof.
  assert (∀ a b, Graph.edges (demo_graph "chain") !! a = Some (Edge.mk a b None None VNone None None) →
                 plain_edge (demo_graph "chain") a b) as Hedge.
  { intros a b Ha. unfold plain_edge. rewrite Ha. simpl. by split; [left|]. }
  split; [apply demo_node_runs; vm_compute; reflexivity|].
  split; [apply Hedge; vm_compute; reflexivity|].
  split; [apply demo_node_runs; vm_compute; reflexivity|].
  split; [apply Hedge; vm_compute; reflexivity|].
  split; [apply demo_node_runs; vm_compute; reflexivity|].
  unfold plain_edge. vm_compute. reflexivity.
Qed.

Lemma next_node_id_spec_witness :
  _next_node_id (demo_graph "spin") "a" 0%nat demo_heap = Done demo_heap (Some "a").
Proof.
  exact (proj1 (next_node_id_spec (demo_graph "spin") "a" 0%nat demo_heap)
               {[ "n" := VInt 5 ]} eq_refl).
Defined.

Lemma run_is_stored_witness :
  ∃ hf self' r,
    run_graph demo_engine "r1" "chain" 0%nat 100 demo_heap = Done hf (self', r)
    ∧ get_run self' "r1" = Ok r.
Proof.
  destruct (run_graph demo_engine "r1" "chain" 0%nat 100 demo_heap)
    as [hf [self' r]|hf e] eqn:Hrun.
  - exists hf, self', r. split; [reflexivity|].
    destruct (proj1 (proj2 (run_is_stored demo_engine "r1" "chain" 0%nat 100 demo_heap))
                hf self' r Hrun) as (_ & Hid & Hget & _).
    rewrite Hid in Hget. exact Hget.
  - vm_compute in Hrun. discriminate Hrun.
Defined.

Lemma step_budget_boundary_witness :
  (∃ hf self' r,
     run_graph demo_engine "r1" "chain" 0%nat 0 demo_heap = Done hf (self', r)
     ∧ Run.status r = "failed" ∧ Run.log r = [])
  ∧ (∃ hf self' r,
       run_graph demo_engine "r1" "chain" 0%nat 3 demo_heap = Done hf (self', r)
       ∧ Run.status r = "failed" ∧ Run.current_node r = None
       ∧ length (Run.log r) = 3%nat).
Proof.
  split.
  - apply (proj1 (proj2 (step_budget_boundary demo_engine "r1" "chain" 0%nat 0 demo_heap))
             (demo_graph "chain") {[ "n" := VInt 5 ]}).
    + vm_compute; reflexivity.
    + vm_compute; reflexivity.
    + reflexivity.
  - apply (proj2 (proj2 (step_budget_boundary demo_engine "r1" "chain" 0%nat 3 demo_heap))
             (demo_graph "chain") {[ "n" := VInt 5 ]} ["b"; "c"]).
    + vm_compute; reflexivity.
    + vm_compute; reflexivity.
    + exact demo_chain.
    + reflexivity.
Defined.

Lemma dangling_target_fails_witness :
  ∃ hf self' r,
    run_graph demo_engine "r1" "dangling" 0%nat 100 demo_heap = Done hf (self', r)
    ∧ Run.status r = "failed"
    ∧ Run.current_node r = Some "ghost"
    ∧ length (Run.log r) = 1%nat.
Proof.
  destruct (exec_node demo_registry (demo_graph "dangling") 2%nat 0 "a"
              (Node.mk "a" "bump" 1%nat)
              (<[2%nat := ODict {[ "n" := VInt 5 ]}]> demo_heap))
    as [h2 [entry target]|h2 e] eqn:Hexec; [|vm_compute in Hexec; discriminate Hexec].
  assert (target = Some "ghost") as ->
    by (vm_compute in Hexec; injection Hexec as _ _ <-; reflexivity).
  destruct (dangling_target_fails demo_engine "r1" "dangling" 0%nat 100 demo_heap
              (demo_graph "dangling") {[ "n" := VInt 5 ]} (Node.mk "a" "bump" 1%nat)
              h2 entry "ghost")
    as (self' & r & Hrun & Hstatus & Hcur & Hlog).
  - vm_compute; reflexivity.
  - vm_compute; reflexivity.
  - vm_compute; reflexivity.
  - exact Hexec.
  - vm_compute; reflexivity.
  - lia.
  - exists h2, self', r. rewrite Hlog. repeat split; assumption.
Defined.

Lemma spin_step state i h1 :
  counts_up state h1 →
  ∃ h2 entry,
    exec_node demo_registry (demo_graph "spin") state i "a"
              (Node.mk "a" "bump" 1%nat) h1
    = Done h2 (entry, Some "a")
    ∧ counts_up state h2.
Proof.
  intros (d & v & Hst & Hn & Hv).
  assert (state ≠ heap_top h1) as Hne.
  { intros ->. by rewrite heap_top_fresh in Hst. }
  set (du := {[ "n" := VInt (v + 1) ]} : gmap string value).
  set (h1a := <[heap_top h1 := ODict du]> h1).
  set (h1b := <[state := ODict (du ∪ d)]> h1a).
  assert (merge_phase demo_registry state (Node.mk "a" "bump" 1%nat) h1
          = Done h1b ()) as Hmerge.
  { unfold merge_phase.
    change (ToolRegistry.get demo_registry (Node.tool (Node.mk "a" "bump" 1%nat)))
      with (Ok bump_tool).
    unfold bump_tool, bind, lift, ret, dict_get, alloc, or_empty, truthy, dict_update.
    cbn beta iota. rewrite Hst, Hn. simpl (default _ _). cbn beta iota.
    fold du. fold h1a.
    assert (h1a !! heap_top h1 = Some (ODict du)) as Hu by apply lookup_insert_eq.
    assert (h1a !! state = Some (ODict d)) as Hs
      by (unfold h1a; by rewrite lookup_insert_ne).
    rewrite Hu. rewrite bool_decide_false by apply map_non_empty_singleton.
    cbn beta iota. simpl negb. cbn beta iota. by rewrite Hs, Hu. }
  destruct (deepcopy_returns (VRef state) h1b) as (h2 & snapshot & Hcopy).
  assert (h2 !! state = Some (ODict (du ∪ d))) as Hst2.
  { eapply deepcopy_keeps; [done|]. unfold h1b. apply lookup_insert_eq. }
  exists h2, (StepLog.mk i "a" "bump" snapshot). split.
  - unfold exec_node, log_phase.
    rewrite (bind_Done _ _ _ _ _ Hmerge), (bind_Done _ _ _ _ _ Hcopy).
    unfold _next_node_id.
    change (Graph.edges (demo_graph "spin") !! "a")
      with (Some (Edge.mk "a" None (Some "n") (Some "gt") (VInt 0) (Some "a") None)).
    simpl. unfold bind, dict_get. rewrite Hst2.
    assert ((du ∪ d) !! "n" = Some (VInt (v + 1))) as ->.
    { apply lookup_union_Some_l. apply lookup_singleton_eq. }
    simpl (default _ _). cbn beta iota. rewrite compare_operator_table.
    change (operator_table "gt") with (Some Gt). cbn beta iota.
    rewrite py_cmp_int. unfold int_cmp.
    rewrite Z.gtb_ltb. destruct (Z.ltb_spec 0 (v + 1)); [done | lia].
  - exists (du ∪ d), (v + 1). split; [done|]. split; [|lia].
    apply lookup_union_Some_l. apply lookup_singleton_eq.
Qed.

Lemma self_loop_exhausts_budget_witness :
  ∃ hf self' r,
    run_graph demo_engine "r1" "spin" 0%nat 7 demo_heap = Done hf (self', r)
    ∧ Run.status r = "failed"
    ∧ Z.of_nat (length (Run.log r)) = 7.
Proof.
  apply (self_loop_exhausts_budget demo_engine "r1" "spin" 0%nat 7 demo_heap
           (demo_graph "spin") {[ "n" := VInt 5 ]} (Node.mk "a" "bump" 1%nat)
           (counts_up 2%nat)).
  - vm_compute; reflexivity.
  - vm_compute; reflexivity.
  - vm_compute; reflexivity.
  - exists {[ "n" := VInt 5 ]}, 5. split; [vm_compute; reflexivity|].
    split; [vm_compute; reflexivity | lia].
  - intros i h1 Hinv. exact (spin_step 2%nat i h1 Hinv).
  - lia.
Defined.

(** *** References of objects *)

Lemma elem_of_val_refs l v : l ∈ val_refs v ↔ v = VRef l.
Proof. destruct v; simpl; set_solver. Qed.

Lemma elem_of_obj_refs l o : l ∈ obj_refs o ↔ VRef l ∈ obj_values o.
Proof.
  unfold obj_refs. rewrite elem_of_union_list. split.
  - intros (X & HX & Hl). apply list_elem_of_fmap in HX as (v & -> & Hv).
    apply elem_of_val_refs in Hl as ->. done.
  - intros Hv. exists (val_refs (VRef l)). split; [|set_solver].
    apply list_elem_of_fmap. eauto.
Qed.

Lemma elem_of_dict_refs l d : l ∈ obj_refs (ODict d) ↔ ∃ k, d !! k = Some (VRef l).
Proof.
  rewrite elem_of_obj_refs. simpl. rewrite list_elem_of_fmap. split.
  - intros ([k v] & -> & Hkv). apply elem_of_map_to_list in Hkv. eauto.
  - intros (k & Hk). exists (k, VRef l). split; [done|]. by apply elem_of_map_to_list.
Qed.

Lemma dict_refs_empty : obj_refs (ODict ∅) = ∅.
Proof. apply set_eq. intros l. rewrite elem_of_dict_refs. set_solver. Qed.

Lemma dict_refs_union du d :
  obj_refs (ODict (du ∪ d)) ⊆ obj_refs (ODict du) ∪ obj_refs (ODict d).
Proof.
  intros l. rewrite elem_of_union, !elem_of_dict_refs. intros (k & Hk).
  apply lookup_union_Some_raw in Hk as [Hk|[_ Hk]]; eauto.
Qed.

(** *** Reachability *)

Lemma expand_increasing h X : X ⊆ expand h X.
Proof. unfold expand. set_solver. Qed.

Lemma expand_in_dom h X : X ⊆ dom h → expand h X ⊆ dom h.
Proof. unfold expand. set_solver. Qed.

Lemma iter_expand_in_dom h X k :
  X ⊆ dom h → Nat.iter k (expand h) X ⊆ dom h.
Proof. intros HX. induction k as [|k IH]; [done|]. simpl. by apply expand_in_dom. Qed.

Lemma iter_expand_increasing h X k : X ⊆ Nat.iter k (expand h) X.
Proof.
  induction k as [|k IH]; [done|]. simpl.
  etrans; [exact IH | apply expand_increasing].
Qed.

(** After [k] rounds the set is stable or has at least [k] elements. *)
Lemma iter_expand_progress h X k :
  expand h (Nat.iter k (expand h) X) = Nat.iter k (expand h) X
  ∨ (k ≤ size (Nat.iter k (expand h) X))%nat.
Proof.
  induction k as [|k IH]; [right; lia|].
  simpl. destruct IH as [Hfix|Hsize]; [left; by rewrite !Hfix|].
  destruct (decide (expand h (Nat.iter k (expand h) X) = Nat.iter k (expand h) X))
    as [Hfix|Hne]; [left; by rewrite !Hfix|].
  right. assert (Nat.iter k (expand h) X ⊂ expand h (Nat.iter k (expand h) X)) as Hsub.
  { split; [apply expand_increasing|]. intros Hback. apply Hne.
    apply set_eq. intros l. split; [apply Hback | apply expand_increasing]. }
  apply subset_size in Hsub. lia.
Qed.

Lemma reach_stable h X : expand h (reach h X) = reach h X.
Proof.
  unfold reach.
  destruct (iter_expand_progress h (X ∩ dom h) (size (dom h))) as [Hfix|Hsize]; [done|].
  assert (Nat.iter (size (dom h)) (expand h) (X ∩ dom h) = dom h) as ->.
  { apply set_subseteq_size_eq; [|done]. apply iter_expand_in_dom. set_solver. }
  apply set_eq. intros l. split; [|apply expand_increasing].
  by apply expand_in_dom.
Qed.

Lemma reach_in_dom h X : reach h X ⊆ dom h.
Proof. apply iter_expand_in_dom. set_solver. Qed.

Lemma reach_roots h X : X ∩ dom h ⊆ reach h X.
Proof. apply iter_expand_increasing. Qed.

(** The reachable set is closed under the references of its objects. *)
Lemma reach_closed h X l o l' :
  l ∈ reach h X → h !! l = Some o → l' ∈ obj_refs o → l' ∈ dom h →
  l' ∈ reach h X.
Proof.
  intros Hl Ho Hl' Hdom. rewrite <- reach_stable. unfold expand.
  apply elem_of_union_r, elem_of_intersection. split; [|done].
  apply elem_of_set_bind. exists l. split; [done|]. unfold succs. by rewrite Ho.
Qed.

(** What is isolated from the roots is isolated from all they reach. *)
Lemma reach_isolated h F X : isolated h F → X ## F → reach h X ## F.
Proof.
  intros Hiso HX. unfold reach.
  induction (size (dom h)) as [|k IH]; simpl; [set_solver|].
  unfold expand at 1. intros l Hl HF.
  apply elem_of_union in Hl as [Hl|Hl]; [by apply (IH l)|].
  apply elem_of_intersection in Hl as [Hl _].
  apply elem_of_set_bind in Hl as (l0 & Hl0 & Hl).
  unfold succs in Hl. destruct (h !! l0) as [o|] eqn:Ho; [|set_solver].
  simpl in Hl. apply (Hiso l0 o Ho (λ H0, IH l0 Hl0 H0) l Hl HF).
Qed.

(** *** [deepcopy] *)

Lemma elem_of_shifted n R j : j ∈ shifted n R ↔ ∃ l, j = (n + l)%nat ∧ l ∈ R.
Proof. unfold shifted. by rewrite elem_of_map. Qed.

Lemma copied_lookup_Some n R h j o :
  copied n R h !! j = Some o ↔
  ∃ l o0, j = (n + l)%nat ∧ l ∈ R ∧ h !! l = Some o0 ∧ o = rename_obj n R o0.
Proof.
  unfold copied. rewrite lookup_kmap_Some by apply _. split.
  - intros (l & -> & Hl). rewrite lookup_fmap in Hl.
    destruct (filter _ h !! l) as [o0|] eqn:Hf; [|done].
    apply map_lookup_filter_Some in Hf as [Ho0 HR]. simpl in *.
    injection Hl as <-. eauto 6.
  - intros (l & o0 & -> & HR & Ho0 & ->). exists l. split; [done|].
    rewrite lookup_fmap.
    by rewrite (proj2 (map_lookup_filter_Some (λ p, p.1 ∈ R) h l o0) (conj Ho0 HR)).
Qed.

Lemma copied_lookup_shift n R h l :
  l ∈ R → copied n R h !! (n + l)%nat = rename_obj n R <$> h !! l.
Proof.
  intros HR. destruct (h !! l) as [o0|] eqn:Ho0; simpl.
  - apply copied_lookup_Some. eauto 6.
  - destruct (copied n R h !! (n + l)%nat) as [o|] eqn:Hc; [|done].
    apply copied_lookup_Some in Hc as (l' & o0 & Heq & _ & Ho0' & _).
    assert (l' = l) as -> by lia. congruence.
Qed.

Lemma copied_above h R j o :
  copied (heap_top h) R h !! j = Some o → j ∉ dom h.
Proof.
  intros Hc Hdom. apply copied_lookup_Some in Hc as (l & o0 & -> & _).
  apply heap_top_above in Hdom. lia.
Qed.

Lemma deepcopy_unfold v h :
  deepcopy v h
  = Done (h ∪ copied (heap_top h) (reach h (val_refs v)) h)
         (rename (heap_top h) (reach h (val_refs v)) v).
Proof. reflexivity. Qed.

Lemma union_copied_lookup h R j :
  (h ∪ copied (heap_top h) R h) !! j
  = match h !! j with Some o => Some o | None => copied (heap_top h) R h !! j end.
Proof.
  destruct (h !! j) as [o|] eqn:Ho.
  - by apply lookup_union_Some_l.
  - by rewrite lookup_union_r.
Qed.

Lemma elem_of_rename_refs n R o l' :
  l' ∈ obj_refs (rename_obj n R o) ↔
  ∃ x, x ∈ obj_refs o ∧ l' = if decide (x ∈ R) then (n + x)%nat else x.
Proof.
  assert (∀ v, rename n R v = VRef l' ↔
               ∃ x, v = VRef x ∧ l' = if decide (x ∈ R) then (n + x)%nat else x) as Hren.
  { intros [| | | |x]; simpl; try (split; [done | by intros (? & ? & _)]).
    destruct (decide (x ∈ R)); split.
    - intros [= <-]. exists x. by rewrite decide_True.
    - intros (y & [= <-] & ->). by rewrite decide_True.
    - intros [= <-]. exists x. by rewrite decide_False.
    - intros (y & [= <-] & ->). by rewrite decide_False. }
  destruct o as [d|xs].
  - simpl. rewrite elem_of_dict_refs. split.
    + intros (k & Hk). rewrite lookup_fmap in Hk.
      destruct (d !! k) as [v|] eqn:Hv; [|done]. injection Hk as Hk.
      apply Hren in Hk as (x & -> & ->). exists x. split; [|done].
      apply elem_of_dict_refs. eauto.
    + intros (x & Hx & ->). apply elem_of_dict_refs in Hx as (k & Hk).
      exists k. rewrite lookup_fmap, Hk. simpl. by destruct (decide (x ∈ R)).
  - simpl. rewrite elem_of_obj_refs. simpl. rewrite list_elem_of_fmap. split.
    + intros (v & Hv & Hin). symmetry in Hv. apply Hren in Hv as (x & -> & ->).
      exists x. split; [|done]. by apply elem_of_obj_refs.
    + intros (x & Hx & ->). apply elem_of_obj_refs in Hx. simpl in Hx.
      exists (VRef x). split; [|done]. simpl. by destruct (decide (x ∈ R)).
Qed.

Section deepcopy_facts.
Context (v : value) (h : heap).
Context (Hclosed : heap_closed h).
Let n := heap_top h.
Let R := reach h (val_refs v).
Let h' := h ∪ copied n R h.

Lemma deepcopy_dom : dom h ⊆ dom h'.
Proof. unfold h'. rewrite dom_union. set_solver. Qed.

Lemma shifted_fresh : shifted n R ## dom h.
Proof.
  intros j Hj Hdom. apply elem_of_shifted in Hj as (l & -> & _).
  apply heap_top_above in Hdom. unfold n in Hdom. lia.
Qed.

Lemma shifted_allocated : shifted n R ⊆ dom h'.
Proof.
  intros j Hj. apply elem_of_shifted in Hj as (l & -> & Hl).
  apply elem_of_dom. unfold h'. rewrite union_copied_lookup.
  destruct (h !! (n + l)%nat); [done|].
  rewrite copied_lookup_shift by done.
  apply reach_in_dom, elem_of_dom in Hl as [o ->]. done.
Qed.

(** The copy of a reachable object refers to copies only. *)
Lemma copied_refs l o :
  l ∈ R → h !! l = Some o → obj_refs (rename_obj n R o) ⊆ shifted n R.
Proof.
  intros Hl Ho j Hj. apply elem_of_rename_refs in Hj as (x & Hx & ->).
  assert (x ∈ R) as HxR.
  { eapply reach_closed; [exact Hl | exact Ho | exact Hx |].
    by apply (Hclosed l o Ho). }
  rewrite decide_True by done. apply elem_of_shifted. eauto.
Qed.

Lemma deepcopy_closed : heap_closed h'.
Proof.
  intros j o Hj. unfold h' in Hj. rewrite union_copied_lookup in Hj.
  destruct (h !! j) as [o0|] eqn:Ho0.
  - injection Hj as <-. etrans; [by eapply Hclosed | apply deepcopy_dom].
  - apply copied_lookup_Some in Hj as (l & o0 & -> & Hl & Ho & ->).
    etrans; [by eapply copied_refs | apply shifted_allocated].
Qed.

(** The region of the copies is isolated: the old objects refer to old
    objects. *)
Lemma deepcopy_region_isolated : isolated h' (shifted n R).
Proof.
  intros j o Hj Hnot. unfold h' in Hj. rewrite union_copied_lookup in Hj.
  destruct (h !! j) as [o0|] eqn:Ho0.
  - injection Hj as <-. intros x Hx HxF.
    apply (shifted_fresh x HxF). by apply (Hclosed j o0 Ho0).
  - apply copied_lookup_Some in Hj as (l & o0 & -> & Hl & Ho & ->).
    exfalso. apply Hnot. apply elem_of_shifted. eauto.
Qed.

Lemma deepcopy_extends F :
  isolated h F → F ⊆ dom h → val_refs v ## F → extends F h h'.
Proof.
  intros Hiso HF Hv. split; [apply deepcopy_closed|].
  split; [|split; [apply deepcopy_dom|]].
  - assert (R ## F) as HRF by by apply reach_isolated.
    intros j o Hj Hnot. unfold h' in Hj. rewrite union_copied_lookup in Hj.
    destruct (h !! j) as [o0|] eqn:Ho0.
    + injection Hj as <-. by eapply Hiso.
    + apply copied_lookup_Some in Hj as (l & o0 & -> & Hl & Ho & ->).
      intros x Hx HxF. apply (copied_refs l o0 Hl Ho) in Hx.
      apply (shifted_fresh x Hx). by apply HF.
  - intros l Hl. unfold h'. rewrite union_copied_lookup.
    apply HF, elem_of_dom in Hl as [o ->]. done.
Qed.

Lemma deepcopy_region_lookup l :
  l ∈ R → h' !! (n + l)%nat = rename_obj n R <$> h !! l.
Proof.
  intros Hl. unfold h'. rewrite union_copied_lookup.
  destruct (h !! (n + l)%nat) as [o|] eqn:Ho; [|by apply copied_lookup_shift].
  assert ((n + l)%nat ∈ dom h) as Hdom by (apply elem_of_dom; eauto).
  apply heap_top_above in Hdom. unfold n in Hdom. lia.
Qed.
End deepcopy_facts.

(** *** Frames *)

Lemma extends_refl F h : heap_closed h → isolated h F → extends F h h.
Proof. by repeat split. Qed.

Lemma extends_trans F h1 h2 h3 :
  F ⊆ dom h1 → extends F h1 h2 → extends F h2 h3 → extends F h1 h3.
Proof.
  intros HF (_ & _ & Hd12 & H12) (Hc & Hi & Hd23 & H23).
  split; [done|]. split; [done|]. split; [set_solver|].
  intros l Hl. rewrite H23, H12; done.
Qed.

Lemma ready_extends graph state F h h' :
  ready graph state F h → extends F h h' → ready graph state F h'.
Proof.
  intros (_ & _ & HF & Hst & Hcfg) (Hc & Hi & Hd & _).
  split; [done|]. split; [done|]. split; [set_solver|]. split; [set_solver|].
  intros cid node Hn. specialize (Hcfg cid node Hn). set_solver.
Qed.

Lemma insert_extends F h l o :
  heap_closed h → isolated h F → l ∉ F →
  obj_refs o ⊆ dom h ∪ {[ l ]} → obj_refs o ## F →
  extends F h (<[l := o]> h).
Proof.
  intros Hc Hi Hl Hrefs Hsep. split; [|split; [|split]].
  - intros j oj Hj. rewrite dom_insert. destruct (decide (l = j)) as [->|Hne].
    + rewrite lookup_insert_eq in Hj. injection Hj as <-. set_solver.
    + rewrite lookup_insert_ne in Hj by done. specialize (Hc j oj Hj). set_solver.
  - intros j oj Hj Hnot. destruct (decide (l = j)) as [->|Hne].
    + rewrite lookup_insert_eq in Hj. by injection Hj as <-.
    + rewrite lookup_insert_ne in Hj by done. by eapply Hi.
  - rewrite dom_insert. set_solver.
  - intros j Hj. rewrite lookup_insert_ne; [done|]. by intros ->.
Qed.

Section frames.
Context (registry : ToolRegistry.t) (graph : Graph.t) (state : loc) (F : gset nat).
Context (Htools : ∀ name t, ToolRegistry._tools registry !! name = Some t → tool_frame t).

Lemma or_empty_extends v h :
  heap_closed h → isolated h F → F ⊆ dom h → val_refs v ⊆ dom h ∖ F →
  match or_empty v h with
  | Done h' u => extends F h h' ∧ val_refs u ⊆ dom h' ∖ F
  | Fail h' _ => extends F h h'
  end.
Proof.
  intros Hc Hi HF Hv. unfold or_empty. destruct (truthy h v).
  - split; [by apply extends_refl | done].
  - unfold bind, alloc, ret.
    assert (heap_top h ∉ F) as Htop.
    { intros Hin. apply HF, heap_top_above in Hin. lia. }
    split.
    + apply insert_extends; rewrite ?dict_refs_empty; set_solver.
    + simpl. rewrite dom_insert. set_solver.
Qed.

Lemma dict_update_extends u h :
  heap_closed h → isolated h F → state ∉ F → val_refs u ## F →
  extends F h (heap_of (dict_update state u h)).
Proof.
  intros Hc Hi Hst Hu. unfold dict_update.
  destruct (h !! state) as [[d|xs]|] eqn:Hd; simpl; try by apply extends_refl.
  destruct u as [| | | |lu]; simpl; try by apply extends_refl.
  destruct (h !! lu) as [[du|xs]|] eqn:Hdu; simpl; try by apply extends_refl.
  assert (lu ∉ F) as Hlu by (simpl in Hu; set_solver).
  pose proof (dict_refs_union du d) as Hsub.
  pose proof (Hc _ _ Hd). pose proof (Hc _ _ Hdu).
  pose proof (Hi _ _ Hd Hst). pose proof (Hi _ _ Hdu Hlu).
  apply insert_extends; [done..| |]; set_solver.
Qed.

Lemma merge_phase_extends node cid h :
  ready graph state F h → Graph.nodes graph !! cid = Some node →
  extends F h (heap_of (merge_phase registry state node h)).
Proof.
  intros Hready Hn. pose proof Hready as (Hc & Hi & HF & Hst & Hcfg).
  unfold merge_phase, ToolRegistry.get.
  destruct (ToolRegistry._tools registry !! Node.tool node) as [t|] eqn:Ht;
    [|by apply extends_refl].
  unfold bind at 1. simpl. unfold bind at 1.
  pose proof (Htools _ t Ht state (Node.config node) F h Hc Hi HF Hst
                (Hcfg cid node Hn)) as Hcall.
  destruct (t state (Node.config node) h) as [h1 v|h1 e]; [|done].
  destruct Hcall as [Hext1 Hv].
  pose proof (ready_extends _ _ _ _ _ Hready Hext1) as (Hc1 & Hi1 & HF1 & Hst1 & _).
  unfold bind at 1.
  pose proof (or_empty_extends v h1 Hc1 Hi1 HF1 Hv) as Hor.
  destruct (or_empty v h1) as [h2 u|h2 e]; [|by eapply extends_trans].
  destruct Hor as [Hext2 Hu].
  assert (extends F h h2) as Hext by by eapply extends_trans.
  pose proof (ready_extends _ _ _ _ _ Hready Hext) as (Hc2 & Hi2 & HF2 & Hst2 & _).
  eapply extends_trans; [done..|].
  apply dict_update_extends; set_solver.
Qed.

Lemma next_node_id_heap cid h : heap_of (_next_node_id graph cid state h) = h.
Proof.
  unfold _next_node_id.
  destruct (Graph.edges graph !! cid) as [e|]; [|done].
  destruct (Edge.condition_key e) as [key|]; [|done].
  destruct (Edge.condition_op e) as [op|]; [|done].
  unfold bind, dict_get.
  destruct (h !! state) as [[d|xs]|]; try done.
  by destruct (_compare h _ op _).
Qed.

Lemma log_phase_extends i cid node h :
  ready graph state F h →
  extends F h (heap_of (log_phase graph state i cid node h)).
Proof.
  intros (Hc & Hi & HF & Hst & _).
  assert (heap_of (log_phase graph state i cid node h)
          = h ∪ copied (heap_top h) (reach h (val_refs (VRef state))) h) as ->.
  { unfold log_phase, bind. rewrite deepcopy_unfold. cbv beta iota.
    pose proof (next_node_id_heap cid
                  (h ∪ copied (heap_top h) (reach h (val_refs (VRef state))) h)) as Hnext.
    destruct (_next_node_id graph cid state _) as [h2 nxt|h2 e];
      unfold heap_of in Hnext |- *; exact Hnext. }
  apply deepcopy_extends; [done..|].
  intros l Hl. apply elem_of_val_refs in Hl. injection Hl as <-. set_solver.
Qed.

Lemma exec_node_extends i cid node h :
  ready graph state F h → Graph.nodes graph !! cid = Some node →
  extends F h (heap_of (exec_node registry graph state i cid node h)).
Proof.
  intros Hready Hn. unfold exec_node, bind.
  pose proof (merge_phase_extends node cid h Hready Hn) as Hmerge.
  destruct (merge_phase registry state node h) as [h1 []|h1 e]; [|done].
  unfold heap_of in Hmerge |- *. fold (@heap_of (StepLog.t * option string)).
  pose proof Hready as (_ & _ & HF & _).
  eapply extends_trans; [done..|].
  apply log_phase_extends. by eapply ready_extends.
Qed.

End frames.

(** *** The caller's mapping *)




(** *** Snapshots *)

Lemma isolated_empty h : isolated h ∅.
Proof. intros l o _ _. set_solver. Qed.

Section snapshots.
Context (registry : ToolRegistry.t) (graph : Graph.t) (state : loc) (D : gset nat).
Context (Htools : ∀ name t, ToolRegistry._tools registry !! name = Some t → tool_frame t).
Context (Hstate : state ∈ D).
Context (Hconfigs : ∀ cid node, Graph.nodes graph !! cid = Some node → Node.config node ∈ D).

Lemma ready_any F h :
  heap_closed h → isolated h F → F ⊆ dom h → D ⊆ dom h → F ## D →
  ready graph state F h.
Proof.
  intros Hc Hi HF HD Hsep. split; [done|]. split; [done|]. split; [done|].
  split; [set_solver|]. intros cid node Hn. specialize (Hconfigs cid node Hn).
  set_solver.
Qed.

(** A step keeps the snapshots already taken. *)
Lemma exec_node_keeps i cid node h h' entry next hm e :
  heap_closed h → D ⊆ dom h →
  Graph.nodes graph !! cid = Some node →
  exec_node registry graph state i cid node h = Done h' (entry, next) →
  snapshot_kept D state hm e h → snapshot_kept D state hm e h'.
Proof.
  intros Hc HD Hn Hexec (n & Hsnap & Hobjs & Halloc & Hiso & Hsep).
  pose proof (exec_node_extends registry graph state _ Htools i cid node h
                (ready_any _ h Hc Hiso Halloc HD Hsep) Hn) as Hext.
  rewrite Hexec in Hext. destruct Hext as (_ & Hiso' & Hdom & Hsame).
  exists n. split; [done|]. split; [|split; [set_solver|done]].
  intros l Hl. rewrite Hsame; [by apply Hobjs|].
  apply elem_of_shifted. eauto.
Qed.

(** A step takes a snapshot of the state as merged. *)
Lemma exec_node_snapshot i cid node h h' entry next :
  heap_closed h → D ⊆ dom h →
  Graph.nodes graph !! cid = Some node →
  exec_node registry graph state i cid node h = Done h' (entry, next) →
  ∃ hm, merge_phase registry state node h = Done hm ()
        ∧ log_phase graph state i cid node hm = Done h' (entry, next)
        ∧ snapshot_kept D state hm entry h'.
Proof.
  intros Hc HD Hn Hexec.
  pose proof (merge_phase_extends registry graph state ∅ Htools node cid h
                (ready_any ∅ h Hc (isolated_empty h) ltac:(set_solver) HD
                           ltac:(set_solver)) Hn) as Hext.
  apply bind_inv_Done in Hexec as (hm & [] & Hmerge & Hlog).
  rewrite Hmerge in Hext. unfold heap_of in Hext.
  destruct Hext as (Hcm & _ & Hdom & _).
  exists hm. split; [done|]. split; [done|].
  unfold log_phase in Hlog.
  apply bind_inv_Done in Hlog as (h1 & snapshot & Hcopy & Hlog).
  apply bind_inv_Done in Hlog as (h2 & nxt & Hnext & Hret).
  pose proof (next_node_id_heap graph state cid h1) as Hsame.
  rewrite Hnext in Hsame. unfold heap_of in Hsame. subst h2.
  injection Hret as <- <- <-.
  rewrite deepcopy_unfold in Hcopy. injection Hcopy as <- <-.
  exists (heap_top hm). split; [reflexivity|]. split; [|split; [|split]].
  - exact (deepcopy_region_lookup (VRef state) hm).
  - exact (shifted_allocated (VRef state) hm).
  - exact (deepcopy_region_isolated (VRef state) hm Hcm).
  - pose proof (shifted_fresh (VRef state) hm) as Hfresh.
    intros x Hx HxD. apply (Hfresh x Hx). by apply Hdom, HD.
Qed.

(** The loop keeps a snapshot of the merged state of each of its steps. *)
Lemma loop_snapshots fuel : ∀ i current logs hms h hf s c l,
  heap_closed h → D ⊆ dom h →
  Forall2 (λ e hm, snapshot_kept D state hm e h) logs hms →
  loop registry graph state fuel i current logs h = Done hf (s, c, l) →
  Forall2 (λ e hm, snapshot_kept D state hm e hf) l
          (hms ++ merged_heaps registry graph state fuel i current h)
  ∧ heap_closed hf ∧ D ⊆ dom hf.
Proof.
  induction fuel as [|fuel IH]; intros i current logs hms h hf s c l Hc HD Hkept Hloop.
  { simpl in Hloop. injection Hloop as <- _ _ <-. simpl. by rewrite app_nil_r. }
  simpl in Hloop. simpl merged_heaps.
  destruct current as [cid|];
    [|injection Hloop as <- _ _ <-; by rewrite app_nil_r].
  destruct (Graph.nodes graph !! cid) as [node|] eqn:Hn;
    [|injection Hloop as <- _ _ <-; by rewrite app_nil_r].
  apply bind_inv_Done in Hloop as (h1 & [entry next] & Hexec & Hloop).
  destruct (exec_node_snapshot i cid node h h1 entry next Hc HD Hn Hexec)
    as (hm & Hmerge & Hlog & Hnew).
  rewrite Hmerge, Hlog.
  pose proof (exec_node_extends registry graph state ∅ Htools i cid node h
                (ready_any ∅ h Hc (isolated_empty h) ltac:(set_solver) HD
                           ltac:(set_solver)) Hn) as Hext.
  rewrite Hexec in Hext. destruct Hext as (Hc1 & _ & Hdom & _).
  replace (hms ++ hm :: merged_heaps registry graph state fuel (i + 1) next h1)
    with ((hms ++ [hm]) ++ merged_heaps registry graph state fuel (i + 1) next h1)
    by (by rewrite <- app_assoc).
  apply (IH (i + 1) next (logs ++ [entry]) (hms ++ [hm]) h1 hf s c l Hc1);
    [set_solver| |done].
  apply Forall2_app; [|by apply Forall2_cons].
  eapply Forall2_impl; [exact Hkept|].
  intros e hm0 Hk.
  exact (exec_node_keeps i cid node h h1 entry next hm0 e Hc HD Hn Hexec Hk).
Qed.
End snapshots.

Lemma snapshot_kept_copy D state hm e h :
  snapshot_kept D state hm e h →
  deep_copy_of hm (VRef state) h (StepLog.state_snapshot e).
Proof. intros (n & Hsnap & Hobjs & _). exists n. by split. Qed.

(** Writing to what the state reaches, or allocating, leaves a kept
    snapshot as it is. *)
Lemma snapshot_kept_independent D state hm e h h2 :
  state ∈ D →
  snapshot_kept D state hm e h →
  (∀ l, l ∈ dom h → l ∉ reach h {[ state ]} → h2 !! l = h !! l) →
  deep_copy_of hm (VRef state) h2 (StepLog.state_snapshot e).
Proof.
  intros Hstate (n & Hsnap & Hobjs & Halloc & Hiso & Hsep) Hmut.
  exists n. split; [done|]. intros l Hl.
  assert ((n + l)%nat ∈ shifted n (reach hm {[ state ]})) as Hin
    by (apply elem_of_shifted; eauto).
  rewrite Hmut; [by apply Hobjs | by apply Halloc |].
  assert (reach h {[ state ]} ## shifted n (reach hm {[ state ]})) as Hfar.
  { apply reach_isolated; [done|]. set_solver. }
  set_solver.
Qed.

(** C7. Each log entry's [state_snapshot] is a deep copy of the working
    state as it was right after that step's merge, and it is still so in
    the heap of the finished run, after the later steps; it remains so in
    every heap that differs from it only in what the returned state
    reaches or in new objects (any mutation of the run's state).  This is
    for tools that reach the heap through their arguments and node
    configurations that are allocated. *)
Theorem snapshots_are_independent self run_id graph_id initial_state max_steps
    h hf self' r :
  heap_closed h →
  (∀ graph cid node,
     GraphEngine.graphs self !! graph_id = Some graph →
     Graph.nodes graph !! cid = Some node → Node.config node ∈ dom h) →
  (∀ name t,
     ToolRegistry._tools (GraphEngine.tool_registry self) !! name = Some t →
     tool_frame t) →
  run_graph self run_id graph_id initial_state max_steps h = Done hf (self', r) →
  ∃ graph d,
    GraphEngine.graphs self !! graph_id = Some graph
    ∧ h !! initial_state = Some (ODict d)
    ∧ Forall2
        (λ e hm,
           deep_copy_of hm (VRef (Run.state r)) hf (StepLog.state_snapshot e)
           ∧ ∀ h2,
               (∀ l, l ∈ dom hf → l ∉ reach hf {[ Run.state r ]} → h2 !! l = hf !! l) →
               deep_copy_of hm (VRef (Run.state r)) h2 (StepLog.state_snapshot e))
        (Run.log r)
        (merged_heaps (GraphEngine.tool_registry self) graph (Run.state r)
                      (Z.to_nat max_steps) 0 (Some (Graph.start_node graph))
                      (<[Run.state r := ODict d]> h)).
Proof.
  intros Hc Hcfg Htools Hrun.
  apply run_graph_inv in Hrun as (graph & d & Hg & Hd & Hloop & _ & _ & Hst & _).
  exists graph, d. split; [done|]. split; [done|]. rewrite Hst.
  set (h1 := <[heap_top h := ODict d]> h) in *.
  assert (heap_closed h1) as Hc1.
  { apply (insert_extends ∅ h (heap_top h) (ODict d) Hc (isolated_empty h));
      [set_solver| |set_solver]. specialize (Hc _ _ Hd). set_solver. }
  assert (heap_top h ∈ dom h1) as Hstate by (unfold h1; rewrite dom_insert; set_solver).
  assert (∀ cid node, Graph.nodes graph !! cid = Some node →
                      Node.config node ∈ dom h1) as Hconfigs.
  { intros cid node Hn. unfold h1. rewrite dom_insert.
    specialize (Hcfg graph cid node Hg Hn). set_solver. }
  destruct (loop_snapshots (GraphEngine.tool_registry self) graph (heap_top h) (dom h1)
              Htools Hstate Hconfigs (Z.to_nat max_steps) 0
              (Some (Graph.start_node graph)) [] [] h1 hf _ _ _ Hc1
              ltac:(done) ltac:(constructor) Hloop) as (Hall & _ & _).
  simpl app in Hall. eapply Forall2_impl; [exact Hall|].
  intros e hm Hk. cbv beta in Hk. split.
  - exact (snapshot_kept_copy _ _ _ _ _ Hk).
  - intros h2 Hmut.
    exact (snapshot_kept_independent _ _ _ _ _ h2 Hstate Hk Hmut).
Qed.

(** *** The scenario's heap and tools *)

Lemma dict_refs_singleton_int k z : obj_refs (ODict {[ k := VInt z ]}) = ∅.
Proof.
  apply set_eq. intros l. rewrite elem_of_dict_refs. split; [|set_solver].
  intros (k' & Hk). apply lookup_singleton_Some in Hk as [_ Hk]. discriminate.
Qed.

Lemma bump_tool_frame : tool_frame bump_tool.
Proof.
  intros st cfg F h Hc Hi HF Hst Hcfg. unfold bump_tool, bind, dict_get.
  destruct (h !! st) as [[d|xs]|]; try by apply extends_refl.
  unfold alloc, ret.
  assert (heap_top h ∉ F) as Htop.
  { intros Hin. apply HF, heap_top_above in Hin. lia. }
  split.
  - apply insert_extends; rewrite ?dict_refs_singleton_int; set_solver.
  - simpl. rewrite dom_insert. set_solver.
Qed.

Lemma broken_tool_frame : tool_frame broken_tool.
Proof. intros st cfg F h Hc Hi HF Hst Hcfg. by apply extends_refl. Qed.

Lemma demo_tools_frame name t :
  ToolRegistry._tools demo_registry !! name = Some t → tool_frame t.
Proof.
  unfold demo_registry, ToolRegistry.register, ToolRegistry.init. simpl.
  intros Ht. apply lookup_insert_Some in Ht as [[_ <-]|[_ Ht]];
    [apply broken_tool_frame|].
  apply lookup_insert_Some in Ht as [[_ <-]|[_ Ht]]; [apply bump_tool_frame|].
  by rewrite lookup_empty in Ht.
Qed.

Lemma demo_heap_closed : heap_closed demo_heap.
Proof.
  unfold heap_closed, demo_heap. intros l o Ho.
  apply lookup_insert_Some in Ho as [[_ <-]|[_ Ho]];
    [rewrite dict_refs_empty; set_solver|].
  apply lookup_insert_Some in Ho as [[_ <-]|[_ Ho]];
    [rewrite dict_refs_singleton_int; set_solver|].
  by rewrite lookup_empty in Ho.
Qed.


Lemma demo_chain_configs graph cid node :
  GraphEngine.graphs demo_engine !! "chain" = Some graph →
  Graph.nodes graph !! cid = Some node →
  Node.config node = 1%nat.
Proof.
  intros Hg. assert (graph = demo_graph "chain") as ->.
  { unfold demo_graph. by rewrite Hg. }
  revert cid node.
  refine (bool_decide_unpack
            (map_Forall (λ _ node, Node.config node = 1%nat)
                        (Graph.nodes (demo_graph "chain"))) _).
  vm_compute. exact I.
Qed.




Lemma snapshots_are_independent_witness :
  ∃ hf self' r,
    run_graph demo_engine "r1" "chain" 0%nat 100 demo_heap = Done hf (self', r)
    ∧ ∃ graph d,
        GraphEngine.graphs demo_engine !! "chain" = Some graph
        ∧ demo_heap !! 0%nat = Some (ODict d)
        ∧ Forall2
            (λ e hm,
               deep_copy_of hm (VRef (Run.state r)) hf (StepLog.state_snapshot e)
               ∧ ∀ h2,
                   (∀ l, l ∈ dom hf → l ∉ reach hf {[ Run.state r ]} →
                         h2 !! l = hf !! l) →
                   deep_copy_of hm (VRef (Run.state r)) h2 (StepLog.state_snapshot e))
            (Run.log r)
            (merged_heaps (GraphEngine.tool_registry demo_engine) graph (Run.state r)
                          (Z.to_nat 100) 0 (Some (Graph.start_node graph))
                          (<[Run.state r := ODict d]> demo_heap)).
Proof.
  destruct (run_graph demo_engine "r1" "chain" 0%nat 100 demo_heap)
    as [hf [self' r]|hf e] eqn:Hrun; [|vm_compute in Hrun; discriminate Hrun].
  exists hf, self', r. split; [reflexivity|].
  apply (snapshots_are_independent demo_engine "r1" "chain" 0%nat 100 demo_heap
           hf self' r).
  - exact demo_heap_closed.
  - intros graph cid node Hg Hn.
    rewrite (demo_chain_configs graph cid node Hg Hn). vm_compute. set_solver.
  - exact demo_tools_frame.
  - exact Hrun.
Defined.

(** *** Graph creation *)

Lemma foldl_insert_lookup {A B} (key : A → string) (f : A → B) (l : list A) k :
  foldl (λ (m : gmap string B) x, <[key x := f x]> m) ∅ l !! k
  = f <$> last (filter (λ x, key x = k) l).
Proof.
  induction l as [|x l IH] using rev_ind; [done|].
  rewrite foldl_app, filter_app. simpl.
  destruct (decide (key x = k)) as [Hk|Hk].
  - rewrite filter_cons_True by done. rewrite filter_nil, last_snoc.
    rewrite Hk. by rewrite lookup_insert_eq.
  - rewrite filter_cons_False by done. rewrite filter_nil, app_nil_r.
    by rewrite lookup_insert_ne.
Qed.

(** X1. [create_graph] returns the id it stores the graph under, and
    [get_graph] on that id gives the graph with the given name and start
    node, whose node (edge) under a key is built from the last
    configuration of the list with that id (source node); the other graphs,
    the runs and the registry are as before. *)
Theorem create_graph_get_graph self graph_id name start_node nodes_cfg edges_cfg :
  let self' := (create_graph self graph_id name start_node nodes_cfg edges_cfg).1 in
  (create_graph self graph_id name start_node nodes_cfg edges_cfg).2 = graph_id
  ∧ (∃ g, get_graph self' graph_id = Ok g
          ∧ Graph.id g = graph_id ∧ Graph.name g = name
          ∧ Graph.start_node g = start_node
          ∧ (∀ k, Graph.nodes g !! k
                  = node_of_config
                      <$> last (filter (λ nc, NodeConfig.id nc = k) nodes_cfg))
          ∧ (∀ k, Graph.edges g !! k
                  = edge_of_config
                      <$> last (filter (λ ec, EdgeConfig.from_node ec = k) edges_cfg)))
  ∧ (∀ other, other ≠ graph_id → get_graph self' other = get_graph self other)
  ∧ GraphEngine.runs self' = GraphEngine.runs self
  ∧ GraphEngine.tool_registry self' = GraphEngine.tool_registry self.
Proof.
  simpl. split; [done|]. split; [|split; [|done]].
  - eexists. unfold get_graph. simpl. rewrite lookup_insert_eq.
    split; [done|]. simpl. repeat split.
    + intros k. apply (foldl_insert_lookup NodeConfig.id node_of_config).
    + intros k. apply (foldl_insert_lookup EdgeConfig.from_node edge_of_config).
  - intros other Hne. unfold get_graph. simpl. by rewrite lookup_insert_ne.
Qed.

Lemma created_graph_lookups self graph_id name start_node nodes_cfg edges_cfg g :
  get_graph (create_graph self graph_id name start_node nodes_cfg edges_cfg).1 graph_id
  = Ok g →
  (∀ k, Graph.nodes g !! k
        = node_of_config <$> last (filter (λ nc, NodeConfig.id nc = k) nodes_cfg))
  ∧ (∀ k, Graph.edges g !! k
          = edge_of_config
              <$> last (filter (λ ec, EdgeConfig.from_node ec = k) edges_cfg)).
Proof.
  unfold get_graph. simpl. rewrite lookup_insert_eq. intros [= <-]. split; intros k.
  - apply (foldl_insert_lookup NodeConfig.id node_of_config).
  - apply (foldl_insert_lookup EdgeConfig.from_node edge_of_config).
Qed.

(** X2. In a graph made by [create_graph] every node is stored under its
    own id and comes from a configuration of the list, every edge is stored
    under its source node, and the ids with a node are exactly the ids of the
    configurations. *)
Theorem create_graph_keys self graph_id name start_node nodes_cfg edges_cfg g :
  get_graph (create_graph self graph_id name start_node nodes_cfg edges_cfg).1 graph_id
  = Ok g →
  (∀ k node, Graph.nodes g !! k = Some node →
     Node.id node = k ∧ ∃ nc, nc ∈ nodes_cfg ∧ node = node_of_config nc)
  ∧ (∀ k edge, Graph.edges g !! k = Some edge →
       Edge.from_node edge = k ∧ ∃ ec, ec ∈ edges_cfg ∧ edge = edge_of_config ec)
  ∧ (∀ k, is_Some (Graph.nodes g !! k) ↔ k ∈ NodeConfig.id <$> nodes_cfg).
Proof.
  intros Hget.
  destruct (created_graph_lookups _ _ _ _ _ _ _ Hget) as [Hnodes Hedges].
  split; [|split].
  - intros k node Hk. rewrite Hnodes in Hk.
    destruct (last _) as [nc|] eqn:Hlast; [|done]. injection Hk as <-.
    apply last_Some_elem_of, list_elem_of_filter in Hlast as [Hid Hin]. eauto.
  - intros k edge Hk. rewrite Hedges in Hk.
    destruct (last _) as [ec|] eqn:Hlast; [|done]. injection Hk as <-.
    apply last_Some_elem_of, list_elem_of_filter in Hlast as [Hid Hin]. eauto.
  - intros k. rewrite Hnodes, fmap_is_Some, last_is_Some. split.
    + intros Hne. destruct (filter _ nodes_cfg) as [|nc l] eqn:Hf; [done|].
      assert (nc ∈ filter (λ nc, NodeConfig.id nc = k) nodes_cfg) as Hin
        by (rewrite Hf; left).
      apply list_elem_of_filter in Hin as [<- Hin]. by apply list_elem_of_fmap_2.
    + intros Hin Hnil. apply list_elem_of_fmap in Hin as (nc & -> & Hin).
      assert (nc ∈ filter (λ nc', NodeConfig.id nc' = NodeConfig.id nc) nodes_cfg) as Hf
        by by apply list_elem_of_filter.
      rewrite Hnil in Hf. by apply elem_of_nil in Hf.
Qed.

Lemma create_graph_keys_witness :
  ∃ g,
    get_graph (create_graph (GraphEngine.init demo_registry) "g" "demo" "a"
                 [NodeConfig.mk "a" "bump" 1%nat; NodeConfig.mk "b" "bump" 1%nat;
                  NodeConfig.mk "a" "broken" 1%nat]
                 [plain "a" (Some "b"); plain "a" None]).1 "g" = Ok g
    ∧ (∀ k node, Graph.nodes g !! k = Some node →
         Node.id node = k
         ∧ ∃ nc, nc ∈ [NodeConfig.mk "a" "bump" 1%nat; NodeConfig.mk "b" "bump" 1%nat;
                       NodeConfig.mk "a" "broken" 1%nat]
                 ∧ node = node_of_config nc)
    ∧ (∀ k edge, Graph.edges g !! k = Some edge →
         Edge.from_node edge = k
         ∧ ∃ ec, ec ∈ [plain "a" (Some "b"); plain "a" None]
                 ∧ edge = edge_of_config ec)
    ∧ (∀ k, is_Some (Graph.nodes g !! k) ↔
            k ∈ NodeConfig.id <$> [NodeConfig.mk "a" "bump" 1%nat;
                                   NodeConfig.mk "b" "bump" 1%nat;
                                   NodeConfig.mk "a" "broken" 1%nat]).
Proof.
  eexists. split; [reflexivity|].
  apply (create_graph_keys (GraphEngine.init demo_registry) "g" "demo" "a").
  reflexivity.
Defined.

(** *** The log of a run *)

Section log_shape.
Context (registry : ToolRegistry.t) (graph : Graph.t) (state : loc).

Lemma exec_node_entry i cid node h h' entry next :
  exec_node registry graph state i cid node h = Done h' (entry, next) →
  StepLog.step_index entry = i
  ∧ StepLog.node_id entry = Node.id node
  ∧ StepLog.tool entry = Node.tool node
  ∧ is_Some (ToolRegistry._tools registry !! Node.tool node).
Proof.
  intros Hexec. apply bind_inv_Done in Hexec as (h1 & [] & Hmerge & Hlog).
  unfold log_phase in Hlog.
  apply bind_inv_Done in Hlog as (h2 & snapshot & _ & Hlog).
  apply bind_inv_Done in Hlog as (h3 & nxt & _ & Hret).
  injection Hret as _ <- _. repeat split.
  unfold merge_phase, ToolRegistry.get in Hmerge.
  destruct (ToolRegistry._tools registry !! Node.tool node); [eauto | done].
Qed.

(** The entries that the loop appends are numbered from its index on, are
    no more than its budget, and each comes from a node of the graph with a
    registered tool. *)
Lemma loop_log_shape fuel : ∀ i current logs h hf s c l,
  loop registry graph state fuel i current logs h = Done hf (s, c, l) →
  ∃ entries,
    l = logs ++ entries
    ∧ StepLog.step_index <$> entries = seqZ i (Z.of_nat (length entries))
    ∧ (length entries ≤ fuel)%nat
    ∧ Forall (λ e, ∃ cid node,
                Graph.nodes graph !! cid = Some node
                ∧ StepLog.node_id e = Node.id node
                ∧ StepLog.tool e = Node.tool node
                ∧ is_Some (ToolRegistry._tools registry !! Node.tool node))
             entries.
Proof.
  induction fuel as [|fuel IH]; intros i current logs h hf s c l Hloop.
  { injection Hloop as _ _ _ <-. exists []. rewrite app_nil_r. by repeat split. }
  simpl in Hloop. destruct current as [cid|];
    [|injection Hloop as _ _ _ <-; exists []; rewrite app_nil_r;
      repeat split; [simpl; lia | constructor]].
  destruct (Graph.nodes graph !! cid) as [node|] eqn:Hn;
    [|injection Hloop as _ _ _ <-; exists []; rewrite app_nil_r;
      repeat split; [simpl; lia | constructor]].
  apply bind_inv_Done in Hloop as (h1 & [entry next] & Hexec & Hloop).
  apply IH in Hloop as (entries & -> & Hidx & Hlen & Hall).
  apply exec_node_entry in Hexec as (Hi & Hid & Htool & Hreg).
  exists (entry :: entries). rewrite <- app_assoc. split; [done|].
  split; [|split; [simpl; lia|]].
  - rewrite fmap_cons, Hidx, Hi. simpl length.
    rewrite (seqZ_cons i) by lia. f_equal. f_equal; lia.
  - constructor; [|done]. eauto 6.
Qed.
End log_shape.

(** X3. The log of every run that [run_graph] returns: the i-th entry has
    [step_index] i, there are at most [max_steps] entries, and every entry
    names a node of the graph (its [id]) and that node's tool, which is
    registered. *)
Theorem run_log_shape self run_id graph_id initial_state max_steps h hf self' r :
  run_graph self run_id graph_id initial_state max_steps h = Done hf (self', r) →
  StepLog.step_index <$> Run.log r = seqZ 0 (Z.of_nat (length (Run.log r)))
  ∧ Z.of_nat (length (Run.log r)) ≤ Z.max 0 max_steps
  ∧ ∃ graph,
      GraphEngine.graphs self !! graph_id = Some graph
      ∧ Forall (λ e, ∃ cid node,
                  Graph.nodes graph !! cid = Some node
                  ∧ StepLog.node_id e = Node.id node
                  ∧ StepLog.tool e = Node.tool node
                  ∧ is_Some (ToolRegistry._tools (GraphEngine.tool_registry self)
                               !! Node.tool node))
               (Run.log r).
Proof.
  intros Hrun.
  apply run_graph_inv in Hrun as (graph & d & Hg & _ & Hloop & _).
  apply loop_log_shape in Hloop as (entries & Hl & Hidx & Hlen & Hall).
  simpl in Hl. rewrite Hl. split; [done|]. split; [lia|]. eauto.
Qed.

Lemma run_log_shape_witness :
  ∃ hf self' r,
    run_graph demo_engine "r1" "spin" 0%nat 5 demo_heap = Done hf (self', r)
    ∧ StepLog.step_index <$> Run.log r = seqZ 0 (Z.of_nat (length (Run.log r)))
    ∧ Z.of_nat (length (Run.log r)) ≤ 5.
Proof.
  destruct (run_graph demo_engine "r1" "spin" 0%nat 5 demo_heap)
    as [hf [self' r]|hf e] eqn:Hrun; [|vm_compute in Hrun; discriminate Hrun].
  exists hf, self', r. split; [reflexivity|].
  destruct (run_log_shape demo_engine "r1" "spin" 0%nat 5 demo_heap hf self' r Hrun)
    as (Hidx & Hlen & _).
  split; [exact Hidx | exact Hlen].
Defined.

(** *** Runs that do not depend on the budget *)

Lemma loop_more_budget registry graph state fuel : ∀ extra i current logs h,
  final_outcome graph (loop registry graph state fuel i current logs h) →
  loop registry graph state (fuel + extra) i current logs h
  = loop registry graph state fuel i current logs h.
Proof.
  induction fuel as [|fuel IH]; intros extra i current logs h Hfinal.
  - simpl in Hfinal. destruct Hfinal as [?|(cid & -> & Hn)]; [done|].
    destruct extra as [|extra]; [done|]. simpl. by rewrite Hn.
  - simpl in *. destruct current as [cid|]; [|done].
    destruct (Graph.nodes graph !! cid) as [node|]; [|done].
    unfold bind in *.
    destruct (exec_node registry graph state i cid node h)
      as [h1 [entry next]|h1 e]; [|done].
    by apply IH.
Qed.

(** X4. A run that raised, completed, or stopped on a node id without node
    does not depend on the step budget: with any larger [max_steps] the call
    gives the same outcome (same heap, same run, same exception). *)
Theorem run_budget_irrelevant self run_id graph_id initial_state max_steps max_steps' h :
  final_run self graph_id (run_graph self run_id graph_id initial_state max_steps h) →
  max_steps ≤ max_steps' →
  run_graph self run_id graph_id initial_state max_steps' h
  = run_graph self run_id graph_id initial_state max_steps h.
Proof.
  intros Hfinal Hle.
  destruct (GraphEngine.graphs self !! graph_id) as [graph|] eqn:Hg;
    [|by rewrite !run_graph_unknown].
  destruct (h !! initial_state) as [[d|xs]|] eqn:Hd;
    [| unfold run_graph, get_graph, bind, dict_copy; rewrite Hg; simpl; by rewrite Hd ..].
  rewrite (run_graph_unfold _ _ _ _ _ _ graph d) in Hfinal by done.
  rewrite !(run_graph_unfold _ _ _ _ _ _ graph d) by done.
  replace (Z.to_nat max_steps')
    with (Z.to_nat max_steps + (Z.to_nat max_steps' - Z.to_nat max_steps))%nat by lia.
  rewrite loop_more_budget; [done|].
  destruct (loop _ _ _ _ _ _ _ _) as [hf [[s c] l]|hf e]; [|done].
  simpl in *. destruct Hfinal as [?|(graph' & cid & Hg' & Hc & Hn)]; [by left|].
  right. exists cid. split; [done|]. congruence.
Qed.

Lemma run_budget_irrelevant_witness :
  run_graph demo_engine "r1" "chain" 0%nat 100 demo_heap
  = run_graph demo_engine "r1" "chain" 0%nat 4 demo_heap.
Proof.
  apply run_budget_irrelevant; [|lia].
  vm_compute. left. reflexivity.
Defined.

(** X5. A graph whose start node is not in its node map: whatever the
    budget, [run_graph] returns at once a [failed] run with an empty log and
    the start node as [current_node]; no tool is called, and the heap only
    gains the copy of the initial state. *)
Theorem missing_start_node self run_id graph_id initial_state max_steps h graph d :
  GraphEngine.graphs self !! graph_id = Some graph →
  h !! initial_state = Some (ODict d) →
  Graph.nodes graph !! Graph.start_node graph = None →
  run_graph self run_id graph_id initial_state max_steps h
  = Done (<[heap_top h := ODict d]> h)
         (stored self (Run.mk run_id graph_id "failed"
                              (Some (Graph.start_node graph)) (heap_top h) []),
          Run.mk run_id graph_id "failed"
                 (Some (Graph.start_node graph)) (heap_top h) []).
Proof.
  intros Hg Hd Hn. eapply run_graph_loop_done; [done..|].
  destruct (Z.to_nat max_steps); simpl; [done|]. by rewrite Hn.
Qed.

Lemma missing_start_node_witness :
  ∃ hf self' r,
    run_graph (create_graph demo_engine "lost" "lost" "nowhere"
                 [NodeConfig.mk "a" "bump" 1%nat] [plain "a" None]).1
              "r1" "lost" 0%nat 100 demo_heap
    = Done hf (self', r)
    ∧ Run.status r = "failed" ∧ Run.log r = []
    ∧ Run.current_node r = Some "nowhere".
Proof.
  eexists _, _, _. split.
  - eapply (missing_start_node _ "r1" "lost" 0%nat 100 demo_heap);
      vm_compute; reflexivity.
  - done.
Defined.

(** *** Guards on a missing key, and [ne] against [eq] *)

Lemma py_cmp_none_eq h v : py_cmp h Eq_ VNone v = Ok (bool_decide (v = VNone)).
Proof. by destruct v. Qed.

Lemma py_cmp_none_ne h v : py_cmp h Ne VNone v = Ok (negb (bool_decide (v = VNone))).
Proof. by destruct v. Qed.

Lemma py_cmp_none_ordering h op v :
  op ≠ Eq_ → op ≠ Ne → py_cmp h op VNone v = Raise TypeError.
Proof. by destruct op, v. Qed.

(** X6. A conditional edge whose key is not in the state compares [None]
    with the condition value: with [gt], [ge], [lt] or [le] the resolver
    raises TypeError whatever the value; with [eq] it takes the true branch
    exactly when the condition value is [None], and with [ne] exactly when
    it is not. *)
Theorem guard_on_missing_key graph current state h edge key op d :
  Graph.edges graph !! current = Some edge →
  Edge.condition_key edge = Some key →
  Edge.condition_op edge = Some op →
  h !! state = Some (ODict d) →
  d !! key = None →
  (ordering_op op → _next_node_id graph current state h = Fail h TypeError)
  ∧ (op = "eq" →
       _next_node_id graph current state h
       = Done h (if bool_decide (Edge.condition_value edge = VNone)
                 then Edge.true_target edge else Edge.false_target edge))
  ∧ (op = "ne" →
       _next_node_id graph current state h
       = Done h (if bool_decide (Edge.condition_value edge = VNone)
                 then Edge.false_target edge else Edge.true_target edge)).
Proof.
  intros Hedge Hkey Hop Hst Hmiss.
  assert (∀ o, operator_table op = Some o →
               _next_node_id graph current state h
               = match py_cmp h o VNone (Edge.condition_value edge) with
                 | Ok b => Done h (if b then Edge.true_target edge
                                   else Edge.false_target edge)
                 | Raise e => Fail h e
                 end) as Hnext.
  { intros o Ho. unfold _next_node_id. rewrite Hedge, Hkey, Hop.
    unfold bind, dict_get. rewrite Hst, Hmiss. simpl.
    rewrite compare_operator_table, Ho.
    by destruct (py_cmp h o VNone (Edge.condition_value edge)). }
  split; [|split].
  - intros [-> | [-> | [-> | ->]]]; rewrite (Hnext _ eq_refl);
      by rewrite py_cmp_none_ordering.
  - intros ->. rewrite (Hnext _ eq_refl), py_cmp_none_eq. done.
  - intros ->. rewrite (Hnext _ eq_refl), py_cmp_none_ne.
    by destruct (bool_decide _).
Qed.

Lemma guard_on_missing_key_witness :
  _next_node_id (demo_graph "unordered") "a" 0%nat demo_heap = Fail demo_heap TypeError.
Proof.
  refine (proj1 (guard_on_missing_key (demo_graph "unordered") "a" 0%nat demo_heap
                   (Edge.mk "a" None (Some "missing") (Some "gt") (VInt 0) (Some "a") None)
                   "missing" "gt" {[ "n" := VInt 5 ]} _ _ _ _ _) _);
    try (vm_compute; reflexivity).
  left. reflexivity.
Defined.

Lemma py_cmp_fuel_ne_eq fuel h a b :
  py_cmp_fuel fuel h Ne a b = negate (py_cmp_fuel fuel h Eq_ a b).
Proof.
  destruct fuel as [|fuel];
    destruct a as [ | ? | ? | s1 | l1 ]; destruct b as [ | ? | ? | s2 | l2 ];
    try reflexivity;
    try (simpl; unfold str_cmp; by destruct (String.compare _ _)).
  simpl.
  destruct (h !! l1) as [[d1|xs]|], (h !! l2) as [[d2|ys]|]; simpl;
    try reflexivity; repeat case_bool_decide; try reflexivity.
Qed.

(** X7. Whatever the operands (atoms, lists, dictionaries) and the heap,
    [ne] gives the negation of what [eq] gives, and raises when [eq]
    raises. *)
Theorem compare_ne_negates_eq h lhs rhs :
  _compare h lhs "ne" rhs = negate (_compare h lhs "eq" rhs).
Proof.
  rewrite !compare_operator_table. simpl. apply py_cmp_fuel_ne_eq.
Qed.

(** *** The names of the registry *)

(** X8. [list_tools] lists each registered name once; a name is listed
    exactly when [get] finds a tool for it, and after [register] the listed
    names are the new name and those listed before. *)
Theorem list_tools_names reg name :
  NoDup (ToolRegistry.list_tools reg)
  ∧ (name ∈ ToolRegistry.list_tools reg ↔ ∃ f, ToolRegistry.get reg name = Ok f)
  ∧ ∀ new f,
      name ∈ ToolRegistry.list_tools (ToolRegistry.register reg new f)
      ↔ name = new ∨ name ∈ ToolRegistry.list_tools reg.
Proof.
  assert (∀ r n, n ∈ ToolRegistry.list_tools r ↔ is_Some (ToolRegistry._tools r !! n))
    as Hin.
  { intros r n. unfold ToolRegistry.list_tools. rewrite list_elem_of_fmap. split.
    - intros ([n' f] & -> & Hnf). apply elem_of_map_to_list in Hnf. eauto.
    - intros [f Hf]. exists (n, f). split; [done|]. by apply elem_of_map_to_list. }
  split; [apply NoDup_fst_map_to_list|]. split.
  - rewrite Hin. unfold ToolRegistry.get. split.
    + intros [f Hf]. exists f. by rewrite Hf.
    + intros [f Hf]. destruct (ToolRegistry._tools reg !! name); [eauto|done].
  - intros new f. rewrite !Hin. unfold ToolRegistry.register. simpl.
    rewrite lookup_insert_is_Some. destruct (decide (new = name)); naive_solver.
Qed.

Lemma create_graph_get_graph_witness :
  get_graph (create_graph demo_engine "fresh" "g" "a" [] []).1 "chain"
  = get_graph demo_engine "chain".
Proof.
  apply (proj1 (proj2 (proj2 (create_graph_get_graph demo_engine "fresh" "g" "a" [] [])))).
  discriminate.
Defined.

(** ** The tools *)

(** *** Words *)

Lemma string_app_cons c (a b : string) : String c a +:+ b = String c (a +:+ b).
Proof. reflexivity. Qed.

Lemma string_app_nil_r (s : string) : s +:+ "" = s.
Proof.
  induction s as [|c s IH]; [done|]. by rewrite string_app_cons, IH.
Qed.

Lemma string_app_assoc (a b c : string) : (a +:+ b) +:+ c = a +:+ (b +:+ c).
Proof.
  induction a as [|x a IH]; [done|]. by rewrite !string_app_cons, IH.
Qed.

Lemma string_app_snoc_ne (a : string) c : a +:+ String c "" ≠ "".
Proof. by destruct a. Qed.

Lemma no_space_app a b : no_space (a +:+ b) = no_space a && no_space b.
Proof.
  induction a as [|c a IH]; [done|]. rewrite string_app_cons. simpl.
  rewrite IH. by destruct (is_space c).
Qed.

Lemma split_from_no_space w : ∀ cur s,
  no_space w = true → split_from cur (w +:+ s) = split_from (cur +:+ w) s.
Proof.
  induction w as [|c w IH]; intros cur s Hw.
  - by rewrite string_app_nil_r.
  - simpl in Hw. apply andb_prop in Hw as [Hc Hw].
    apply negb_true_iff in Hc. rewrite string_app_cons. simpl.
    rewrite Hc, IH by done. f_equal. rewrite string_app_assoc. done.
Qed.

Lemma split_word w : word w → py_split w = [w].
Proof.
  intros [Hne Hw]. unfold py_split.
  rewrite <- (string_app_nil_r w) at 1. rewrite split_from_no_space by done.
  simpl. by destruct w.
Qed.

Lemma split_from_words s : ∀ cur,
  cur = "" ∨ word cur → Forall word (split_from cur s).
Proof.
  induction s as [|c s IH]; intros cur Hcur; simpl.
  - destruct cur; [constructor|]. destruct Hcur as [?|?]; [done|]. by constructor.
  - destruct (is_space c) eqn:Hc.
    + destruct cur; [by apply IH; left|].
      destruct Hcur as [?|?]; [done|]. constructor; [done|]. apply IH. by left.
    + apply IH. right. split; [apply string_app_snoc_ne|].
      rewrite no_space_app. simpl. rewrite Hc. simpl.
      destruct Hcur as [->|[_ ->]]; done.
Qed.

Lemma split_words s : Forall word (py_split s).
Proof. apply split_from_words. by left. Qed.

Lemma split_from_space a : ∀ cur sp b,
  is_space sp = true →
  split_from cur (a +:+ String sp b) = split_from cur a ++ split_from "" b.
Proof.
  induction a as [|c a IH]; intros cur sp b Hsp.
  - simpl. rewrite Hsp. by destruct cur.
  - rewrite string_app_cons. simpl. destruct (is_space c); [|by apply IH].
    destruct cur; rewrite IH by done; done.
Qed.

Lemma split_from_app_space cur (a b : string) :
  split_from cur (a +:+ " " +:+ b) = split_from cur a ++ split_from "" b.
Proof. exact (split_from_space a cur (Ascii.ascii_of_nat 32) b eq_refl). Qed.

(** Splitting what was joined by spaces gives the words of the parts. *)
Lemma split_join (ws : list string) :
  py_split (py_join " " ws) = concat (py_split <$> ws).
Proof.
  induction ws as [|w ws IH]; [done|].
  destruct ws as [|w' ws].
  - simpl. by rewrite app_nil_r.
  - change (py_join " " (w :: w' :: ws)) with (w +:+ " " +:+ py_join " " (w' :: ws)).
    unfold py_split at 1. rewrite split_from_app_space.
    fold (py_split w). fold (py_split (py_join " " (w' :: ws))).
    rewrite IH. done.
Qed.

Lemma split_join_words (ws : list string) :
  Forall word ws → py_split (py_join " " ws) = ws.
Proof.
  intros Hws. rewrite split_join.
  induction Hws as [|w ws Hw _ IH]; [done|].
  rewrite fmap_cons.
  change (concat (py_split w :: (py_split <$> ws)))
    with (py_split w ++ concat (py_split <$> ws)).
  by rewrite split_word, IH.
Qed.

(** *** Ranges and slices *)

Lemma py_slice_from_zero {A} (xs : list A) (k : Z) :
  0 ≤ k → py_slice xs 0 k = take (Z.to_nat k) xs.
Proof.
  intros Hk. unfold py_slice, clamp. simpl.
  rewrite (proj2 (Z.ltb_ge k 0)) by done.
  rewrite Nat.sub_0_r, drop_0.
  destruct (decide (Z.to_nat k ≤ length xs)%nat).
  - by rewrite Nat.min_l.
  - rewrite Nat.min_r by lia. rewrite !take_ge by lia. done.
Qed.

Lemma py_slice_negative {A} (xs : list A) (k : Z) :
  k < 0 → py_slice xs 0 k = take (length xs - Z.to_nat (- k)) xs.
Proof.
  intros Hk. unfold py_slice, clamp. simpl.
  rewrite (proj2 (Z.ltb_lt k 0)) by done.
  rewrite Nat.sub_0_r, drop_0. f_equal. lia.
Qed.

Lemma py_slice_chunk {A} (xs : list A) (k n : nat) :
  py_slice xs (Z.of_nat (k * n)) (Z.of_nat (k * n) + Z.of_nat n)
  = take n (drop (k * n) xs).
Proof.
  unfold py_slice, clamp.
  rewrite (proj2 (Z.ltb_ge _ 0)) by lia. rewrite (proj2 (Z.ltb_ge _ 0)) by lia.
  rewrite Nat2Z.id.
  replace (Z.to_nat (Z.of_nat (k * n) + Z.of_nat n)) with (k * n + n)%nat by lia.
  destruct (decide (k * n ≤ length xs)%nat) as [Hle|Hgt].
  - rewrite (Nat.min_l (k * n)) by done.
    destruct (decide (k * n + n ≤ length xs)%nat).
    + rewrite Nat.min_l by done. f_equal. lia.
    + rewrite Nat.min_r by lia.
      rewrite !take_ge; [done | rewrite length_drop; lia | rewrite length_drop; lia].
  - rewrite !Nat.min_r by lia. rewrite !drop_ge by lia. by rewrite !take_nil.
Qed.

Lemma py_range_chunks (len n : nat) :
  (0 < n)%nat →
  py_range 0 (Z.of_nat len) (Z.of_nat n)
  = (λ k, Z.of_nat (k * n)) <$> seq 0 (Z.to_nat ((Z.of_nat len + Z.of_nat n - 1) / Z.of_nat n)).
Proof.
  intros Hn. unfold py_range. rewrite (proj2 (Z.ltb_lt 0 _)) by lia.
  replace (Z.of_nat len - 0 + Z.of_nat n - 1) with (Z.of_nat len + Z.of_nat n - 1) by lia.
  apply list_fmap_ext. intros _ k _. lia.
Qed.

Lemma concat_chunks {A} (xs : list A) (n c : nat) :
  concat ((λ k, take n (drop (k * n) xs)) <$> seq 0 c) = take (c * n) xs.
Proof.
  induction c as [|c IH]; [by rewrite take_0|].
  rewrite seq_S, fmap_app, concat_app, IH. simpl. rewrite app_nil_r.
  rewrite take_take_drop. f_equal. lia.
Qed.

Lemma chunk_count_covers (len n : nat) :
  (0 < n)%nat →
  (len ≤ Z.to_nat ((Z.of_nat len + Z.of_nat n - 1) / Z.of_nat n) * n)%nat.
Proof.
  intros Hn.
  assert (0 ≤ (Z.of_nat len + Z.of_nat n - 1) / Z.of_nat n) by (apply Z.div_pos; lia).
  pose proof (Z.mul_succ_div_gt (Z.of_nat len + Z.of_nat n - 1) (Z.of_nat n) ltac:(lia)).
  nia.
Qed.

(** *** [split_text_tool] *)

Lemma split_chunks_nat words (n : nat) :
  (0 < n)%nat →
  split_chunks words (VInt (Z.of_nat n))
  = Ok (py_join " " <$> (chunk_at n words
                           <$> seq 0 (chunk_count (length words) (Z.of_nat n)))).
Proof.
  intros Hn. unfold split_chunks. simpl.
  rewrite (proj2 (Z.eqb_neq (Z.of_nat n) 0)) by lia. f_equal.
  rewrite py_range_chunks by lia. fold (chunk_count (length words) (Z.of_nat n)).
  rewrite <- !list_fmap_compose. apply list_fmap_ext. intros _ k _. simpl.
  f_equal. apply py_slice_chunk.
Qed.

Lemma split_chunks_positive words z :
  0 < z →
  split_chunks words (VInt z)
  = Ok (py_join " " <$> (chunk_at (Z.to_nat z) words
                           <$> seq 0 (chunk_count (length words) z))).
Proof.
  intros Hz. rewrite <- (Z2Nat.id z) at 1 3 by lia. apply split_chunks_nat. lia.
Qed.

Lemma split_chunks_negative words z :
  z < 0 → split_chunks words (VInt z) = Ok [].
Proof.
  intros Hz. unfold split_chunks. simpl.
  rewrite (proj2 (Z.eqb_neq z 0)) by lia. f_equal.
  unfold py_range. rewrite (proj2 (Z.ltb_ge 0 z)) by lia.
  assert ((0 - Z.of_nat (length words) - z - 1) / - z ≤ 0) as Hle.
  { apply Z.lt_succ_r. apply Z.div_lt_upper_bound; lia. }
  replace (Z.to_nat _) with 0%nat by lia. done.
Qed.

Lemma chunks_reassemble words z :
  0 < z → Forall word words →
  concat (py_split <$> (py_join " " <$> (chunk_at (Z.to_nat z) words
                                           <$> seq 0 (chunk_count (length words) z))))
  = words.
Proof.
  intros Hz Hwords. rewrite <- !list_fmap_compose.
  etrans.
  { apply (f_equal (@concat string)).
    apply (list_fmap_ext _ (chunk_at (Z.to_nat z) words)). intros i k _. simpl.
    apply split_join_words. unfold chunk_at. by apply Forall_take, Forall_drop. }
  unfold chunk_at. rewrite concat_chunks. apply take_ge.
  pose proof (chunk_count_covers (length words) (Z.to_nat z) ltac:(lia)) as Hc.
  rewrite Z2Nat.id in Hc by lia. exact Hc.
Qed.

Lemma alloc_keeps (o : obj) (h : heap) l o' :
  h !! l = Some o' → <[heap_top h := o]> h !! l = Some o'.
Proof.
  intros Hl. rewrite lookup_insert_ne; [done|].
  intros <-. by rewrite heap_top_fresh in Hl.
Qed.

Lemma get_or_dict l k dflt (h : heap) d :
  h !! l = Some (ODict d) → get_or l k dflt h = Done h (default dflt (d !! k)).
Proof. intros Hl. unfold get_or. by rewrite Hl. Qed.

Lemma lift_Ok_bind {A B} (a : A) (k : A → M B) h : bind (lift (Ok a)) k h = k a h.
Proof. reflexivity. Qed.

Lemma lift_Raise_bind {A B} e (k : A → M B) h :
  bind (lift (Raise e)) k h = Fail h e.
Proof. reflexivity. Qed.

Lemma alloc_bind {B} o (k : loc → M B) h :
  bind (alloc o) k h = k (heap_top h) (<[heap_top h := o]> h).
Proof. reflexivity. Qed.

Ltac tool_gets :=
  repeat (erewrite bind_Done by (apply get_or_dict; eassumption)).

Lemma split_text_returns state config h d c text z :
  h !! state = Some (ODict d) →
  h !! config = Some (ODict c) →
  default (VStr "") (d !! "text") = VStr text →
  default (default (VInt 80) (c !! "chunk_size")) (d !! "chunk_size") = VInt z →
  0 < z →
  ∃ h' ld lc,
    split_text_tool state config h = Done h' (VRef ld)
    ∧ h' !! ld = Some (ODict {[ "chunks" := VRef lc ]})
    ∧ h' !! lc = Some (OList (VStr <$> chunks_of_words (py_split text) z))
    ∧ (∀ l o, h !! l = Some o → h' !! l = Some o).
Proof.
  intros Hst Hcfg Htext Hsize Hz.
  set (h1 := <[heap_top h := OList (VStr <$> chunks_of_words (py_split text) z)]> h).
  exists (<[heap_top h1 := ODict {[ "chunks" := VRef (heap_top h) ]}]> h1),
         (heap_top h1), (heap_top h).
  split; [|split; [|split]].
  - unfold split_text_tool. tool_gets. rewrite Htext, Hsize.
    simpl str_split. rewrite lift_Ok_bind, split_chunks_positive by done.
    by rewrite lift_Ok_bind, !alloc_bind.
  - apply lookup_insert_eq.
  - apply alloc_keeps. apply lookup_insert_eq.
  - intros l o Hl. by do 2 apply alloc_keeps.
Qed.

Lemma chunks_of_words_lengths words z :
  0 < z → Forall word words →
  Forall (λ ch, Z.of_nat (length (py_split ch)) ≤ z) (chunks_of_words words z).
Proof.
  intros Hz Hwords.
  unfold chunks_of_words. rewrite <- list_fmap_compose. apply Forall_fmap, Forall_forall.
  intros k _. simpl. rewrite split_join_words.
  - unfold chunk_at. rewrite length_take. lia.
  - unfold chunk_at. by apply Forall_take, Forall_drop.
Qed.

(** X9. [split_text_tool] on a text and a positive [chunk_size] (the
    state's, else the configuration's, else 80): it returns a new
    dictionary binding ["chunks"] to a new list of strings and leaves every
    existing object as it is; the words of the chunks, in order, are the
    words of the text, no chunk has more than [chunk_size] words, and there
    are ceil(words / chunk_size) chunks. *)
Theorem split_text_chunks state config h d c text z :
  h !! state = Some (ODict d) →
  h !! config = Some (ODict c) →
  default (VStr "") (d !! "text") = VStr text →
  default (default (VInt 80) (c !! "chunk_size")) (d !! "chunk_size") = VInt z →
  0 < z →
  ∃ h' ld lc chunks,
    split_text_tool state config h = Done h' (VRef ld)
    ∧ h' !! ld = Some (ODict {[ "chunks" := VRef lc ]})
    ∧ h' !! lc = Some (OList (VStr <$> chunks))
    ∧ (∀ l o, h !! l = Some o → h' !! l = Some o)
    ∧ concat (py_split <$> chunks) = py_split text
    ∧ Forall (λ ch, Z.of_nat (length (py_split ch)) ≤ z) chunks
    ∧ Z.of_nat (length chunks) = (Z.of_nat (length (py_split text)) + z - 1) / z.
Proof.
  intros Hst Hcfg Htext Hsize Hz.
  destruct (split_text_returns state config h d c text z)
    as (h' & ld & lc & Hrun & Hld & Hlc & Hframe); try done.
  exists h', ld, lc, (chunks_of_words (py_split text) z).
  split; [done|]. split; [done|]. split; [done|]. split; [done|].
  split; [|split].
  - apply chunks_reassemble; [done | apply split_words].
  - apply chunks_of_words_lengths; [done | apply split_words].
  - unfold chunks_of_words. rewrite !length_fmap, length_seq. unfold chunk_count.
    apply Z2Nat.id. apply Z.div_pos; lia.
Qed.

Lemma split_text_chunks_witness :
  ∃ h' ld lc chunks,
    split_text_tool 0%nat 1%nat
      (<[0%nat := ODict {[ "text" := VStr "a b c d e" ]}]>
         (<[1%nat := ODict {[ "chunk_size" := VInt 2 ]}]> ∅))
    = Done h' (VRef ld)
    ∧ h' !! ld = Some (ODict {[ "chunks" := VRef lc ]})
    ∧ h' !! lc = Some (OList (VStr <$> chunks))
    ∧ concat (py_split <$> chunks) = py_split "a b c d e"
    ∧ Z.of_nat (length chunks) = 3.
Proof.
  destruct (split_text_chunks 0%nat 1%nat
              (<[0%nat := ODict {[ "text" := VStr "a b c d e" ]}]>
                 (<[1%nat := ODict {[ "chunk_size" := VInt 2 ]}]> ∅))
              {[ "text" := VStr "a b c d e" ]} {[ "chunk_size" := VInt 2 ]}
              "a b c d e" 2)
    as (h' & ld & lc & chunks & Hrun & Hld & Hlc & _ & Hwords & _ & Hlen);
    [vm_compute; reflexivity .. | lia |].
  exists h', ld, lc, chunks. repeat split; try assumption.
Defined.

(** X10. The edges of [split_text_tool]: a chunk size of zero raises
    ValueError; a negative one gives an empty list of chunks (the text is
    dropped); a text that is no string raises AttributeError. *)
Theorem split_text_edges state config h d c :
  h !! state = Some (ODict d) →
  h !! config = Some (ODict c) →
  (∀ text,
     default (VStr "") (d !! "text") = VStr text →
     default (default (VInt 80) (c !! "chunk_size")) (d !! "chunk_size") = VInt 0 →
     split_text_tool state config h
     = Fail h (ValueError "range() arg 3 must not be zero"))
  ∧ (∀ text z,
       default (VStr "") (d !! "text") = VStr text →
       default (default (VInt 80) (c !! "chunk_size")) (d !! "chunk_size") = VInt z →
       z < 0 →
       ∃ h' ld lc,
         split_text_tool state config h = Done h' (VRef ld)
         ∧ h' !! ld = Some (ODict {[ "chunks" := VRef lc ]})
         ∧ h' !! lc = Some (OList []))
  ∧ (∀ v, d !! "text" = Some v → (∀ s, v ≠ VStr s) →
       split_text_tool state config h = Fail h (OtherError "AttributeError")).
Proof.
  intros Hst Hcfg. split; [|split].
  - intros text Htext Hsize. unfold split_text_tool. tool_gets.
    rewrite Htext, Hsize. done.
  - intros text z Htext Hsize Hz.
    eexists _, _, _. split; [|split].
    + unfold split_text_tool. tool_gets. rewrite Htext, Hsize.
      simpl str_split. rewrite lift_Ok_bind, split_chunks_negative by done.
      by rewrite lift_Ok_bind, !alloc_bind.
    + apply lookup_insert_eq.
    + apply alloc_keeps. apply lookup_insert_eq.
  - intros v Hv Hns. unfold split_text_tool. tool_gets. rewrite Hv. simpl.
    destruct v; try done. by destruct (Hns s).
Qed.

Lemma split_text_edges_witness :
  split_text_tool 0%nat 1%nat
    (<[0%nat := ODict {[ "text" := VStr "a b c" ]}]>
       (<[1%nat := ODict {[ "chunk_size" := VInt 0 ]}]> ∅))
  = Fail (<[0%nat := ODict {[ "text" := VStr "a b c" ]}]>
            (<[1%nat := ODict {[ "chunk_size" := VInt 0 ]}]> ∅))
         (ValueError "range() arg 3 must not be zero").
Proof.
  refine (proj1 (split_text_edges 0%nat 1%nat
                   (<[0%nat := ODict {[ "text" := VStr "a b c" ]}]>
                      (<[1%nat := ODict {[ "chunk_size" := VInt 0 ]}]> ∅))
                   {[ "text" := VStr "a b c" ]}
                   {[ "chunk_size" := VInt 0 ]} _ _) "a b c" _ _);
    vm_compute; reflexivity.
Defined.

(** *** [summarize_chunk] *)

Lemma summarize_chunk_str chunk m :
  summarize_chunk (VStr chunk) (VInt m)
  = Ok (py_join " " (py_slice (py_split chunk) 0 m)).
Proof. reflexivity. Qed.

(** X11. [summarize_chunk] on a string and a size [m >= 0]: the words of the
    summary are the first [m] words of the chunk (so at most [m]), and
    summarizing the summary again gives the summary back; with a negative
    size the last [-m] words are dropped instead. *)
Theorem summarize_chunk_prefix chunk m :
  (0 ≤ m →
     ∃ s, summarize_chunk (VStr chunk) (VInt m) = Ok s
          ∧ py_split s = take (Z.to_nat m) (py_split chunk)
          ∧ Z.of_nat (length (py_split s)) ≤ m
          ∧ summarize_chunk (VStr s) (VInt m) = Ok s)
  ∧ (m < 0 →
       ∃ s, summarize_chunk (VStr chunk) (VInt m) = Ok s
            ∧ py_split s
              = take (length (py_split chunk) - Z.to_nat (- m)) (py_split chunk)).
Proof.
  split; intros Hm; eexists; (split; [apply summarize_chunk_str|]).
  - rewrite py_slice_from_zero by done.
    assert (py_split (py_join " " (take (Z.to_nat m) (py_split chunk)))
            = take (Z.to_nat m) (py_split chunk)) as Hsplit.
    { apply split_join_words, Forall_take, split_words. }
    split; [done|]. split.
    + rewrite Hsplit, length_take. lia.
    + rewrite summarize_chunk_str, py_slice_from_zero, Hsplit by done.
      by rewrite take_take, Nat.min_id.
  - rewrite py_slice_negative by done.
    apply split_join_words, Forall_take, split_words.
Qed.

Lemma summarize_chunk_prefix_witness :
  ∃ s, summarize_chunk (VStr "a  b c d") (VInt 2) = Ok s
       ∧ py_split s = ["a"; "b"]
       ∧ summarize_chunk (VStr s) (VInt 2) = Ok s.
Proof.
  destruct (proj1 (summarize_chunk_prefix "a  b c d" 2) ltac:(lia))
    as (s & Hs & Hsplit & _ & Hidem).
  exists s. split; [exact Hs|]. split; [exact Hsplit | exact Hidem].
Defined.

(** *** [summarize_chunks_tool] *)

Lemma summarize_all_strs chunks p :
  summarize_all (VStr <$> chunks) (VInt p)
  = Ok ((λ ch, py_join " " (py_slice (py_split ch) 0 p)) <$> chunks).
Proof.
  induction chunks as [|ch chunks IH]; [done|].
  rewrite !fmap_cons.
  change (summarize_all (VStr ch :: (VStr <$> chunks)) (VInt p))
    with (match summarize_chunk (VStr ch) (VInt p) with
          | Ok s => match summarize_all (VStr <$> chunks) (VInt p) with
                    | Ok ss => Ok (s :: ss)
                    | Raise e => Raise e
                    end
          | Raise e => Raise e
          end).
  by rewrite IH.
Qed.

Lemma summarize_chunks_returns state config h d c lc chunks p :
  h !! state = Some (ODict d) →
  h !! config = Some (ODict c) →
  d !! "chunks" = Some (VRef lc) →
  h !! lc = Some (OList (VStr <$> chunks)) →
  default (default (VInt 30) (c !! "per_chunk_summary_size"))
          (d !! "per_chunk_summary_size") = VInt p →
  ∃ h' ld ls,
    summarize_chunks_tool state config h = Done h' (VRef ld)
    ∧ h' !! ld = Some (ODict {[ "chunk_summaries" := VRef ls ]})
    ∧ h' !! ls = Some (OList (VStr <$> summaries_of chunks p))
    ∧ (∀ l o, h !! l = Some o → h' !! l = Some o).
Proof.
  intros Hst Hcfg Hchunks Hlc Hsize.
  set (h0 := <[heap_top h := OList []]> h).
  set (h1 := <[heap_top h0 := OList (VStr <$> summaries_of chunks p)]> h0).
  exists (<[heap_top h1 := ODict {[ "chunk_summaries" := VRef (heap_top h0) ]}]> h1),
         (heap_top h1), (heap_top h0).
  assert (h0 !! state = Some (ODict d)) as Hst0 by by apply alloc_keeps.
  assert (h0 !! config = Some (ODict c)) as Hcfg0 by by apply alloc_keeps.
  assert (h0 !! lc = Some (OList (VStr <$> chunks))) as Hlc0 by by apply alloc_keeps.
  split; [|split; [|split]].
  - unfold summarize_chunks_tool. rewrite alloc_bind. fold h0. tool_gets.
    rewrite Hchunks, Hsize. simpl default.
    unfold bind at 1. unfold iterate. rewrite Hlc0. simpl lift. unfold ret at 1.
    rewrite summarize_all_strs. by rewrite lift_Ok_bind, !alloc_bind.
  - apply lookup_insert_eq.
  - apply alloc_keeps. apply lookup_insert_eq.
  - intros l o Hl. by do 3 apply alloc_keeps.
Qed.

Lemma summaries_of_words chunks p :
  0 ≤ p →
  py_split <$> summaries_of chunks p = (λ ch, take (Z.to_nat p) (py_split ch)) <$> chunks.
Proof.
  intros Hp. unfold summaries_of. rewrite <- list_fmap_compose.
  apply list_fmap_ext. intros _ ch _. simpl. rewrite py_slice_from_zero by done.
  apply split_join_words, Forall_take, split_words.
Qed.

(** X12. [summarize_chunks_tool] on a state whose ["chunks"] is a list of
    strings and a size [p >= 0]: it returns a new dictionary binding
    ["chunk_summaries"] to a new list with one summary per chunk, in order,
    whose words are the first [p] words of the chunk; existing objects are
    left as they are. *)
Theorem summarize_chunks_each state config h d c lc chunks p :
  h !! state = Some (ODict d) →
  h !! config = Some (ODict c) →
  d !! "chunks" = Some (VRef lc) →
  h !! lc = Some (OList (VStr <$> chunks)) →
  default (default (VInt 30) (c !! "per_chunk_summary_size"))
          (d !! "per_chunk_summary_size") = VInt p →
  0 ≤ p →
  ∃ h' ld ls summaries,
    summarize_chunks_tool state config h = Done h' (VRef ld)
    ∧ h' !! ld = Some (ODict {[ "chunk_summaries" := VRef ls ]})
    ∧ h' !! ls = Some (OList (VStr <$> summaries))
    ∧ (∀ l o, h !! l = Some o → h' !! l = Some o)
    ∧ Forall2 (λ ch s, py_split s = take (Z.to_nat p) (py_split ch)) chunks summaries.
Proof.
  intros Hst Hcfg Hchunks Hlc Hsize Hp.
  destruct (summarize_chunks_returns state config h d c lc chunks p)
    as (h' & ld & ls & Hrun & Hld & Hls & Hframe); try done.
  exists h', ld, ls, (summaries_of chunks p).
  split; [done|]. split; [done|]. split; [done|]. split; [done|].
  unfold summaries_of. apply Forall2_fmap_r, Forall_Forall2_diag, Forall_forall.
  intros ch _. unfold compose. rewrite py_slice_from_zero by done.
  apply split_join_words, Forall_take, split_words.
Qed.

Lemma summarize_chunks_each_witness :
  ∃ h' ld ls summaries,
    summarize_chunks_tool 0%nat 1%nat
      (<[0%nat := ODict {[ "chunks" := VRef 2%nat ]}]>
         (<[1%nat := ODict {[ "per_chunk_summary_size" := VInt 2 ]}]>
            (<[2%nat := OList [VStr "a b c"; VStr "d"]]> ∅)))
    = Done h' (VRef ld)
    ∧ h' !! ld = Some (ODict {[ "chunk_summaries" := VRef ls ]})
    ∧ h' !! ls = Some (OList (VStr <$> summaries))
    ∧ Forall2 (λ ch s, py_split s = take 2 (py_split ch)) ["a b c"; "d"] summaries.
Proof.
  destruct (summarize_chunks_each 0%nat 1%nat
              (<[0%nat := ODict {[ "chunks" := VRef 2%nat ]}]>
                 (<[1%nat := ODict {[ "per_chunk_summary_size" := VInt 2 ]}]>
                    (<[2%nat := OList [VStr "a b c"; VStr "d"]]> ∅)))
              {[ "chunks" := VRef 2%nat ]} {[ "per_chunk_summary_size" := VInt 2 ]}
              2%nat ["a b c"; "d"] 2)
    as (h' & ld & ls & summaries & Hrun & Hld & Hls & _ & Hall);
    [vm_compute; reflexivity .. | lia |].
  exists h', ld, ls, summaries. repeat split; assumption.
Defined.

(** *** [merge_summaries_tool] *)

Lemma join_values_cons sep w x xs :
  join_values sep (VStr w :: x :: xs)
  = match join_values sep (x :: xs) with
    | Ok s => Ok (w +:+ sep +:+ s)
    | Raise e => Raise e
    end.
Proof. reflexivity. Qed.

Lemma join_values_strs sep (ws : list string) :
  join_values sep (VStr <$> ws) = Ok (py_join sep ws).
Proof.
  induction ws as [|w ws IH]; [done|].
  destruct ws as [|w' ws]; [done|].
  rewrite (fmap_cons VStr w), (fmap_cons VStr w'), join_values_cons.
  rewrite <- (fmap_cons VStr w'), IH. done.
Qed.

Lemma merge_summaries_returns state config h d ls summaries :
  h !! state = Some (ODict d) →
  d !! "chunk_summaries" = Some (VRef ls) →
  h !! ls = Some (OList (VStr <$> summaries)) →
  ∃ h' ld,
    merge_summaries_tool state config h = Done h' (VRef ld)
    ∧ h' !! ld = Some (ODict {[ "summary" := VStr (py_join " " summaries) ]})
    ∧ (∀ l o, h !! l = Some o → h' !! l = Some o).
Proof.
  intros Hst Hsum Hls.
  set (h0 := <[heap_top h := OList []]> h).
  assert (h0 !! state = Some (ODict d)) as Hst0 by by apply alloc_keeps.
  assert (h0 !! ls = Some (OList (VStr <$> summaries))) as Hls0 by by apply alloc_keeps.
  exists (<[heap_top h0 := ODict {[ "summary" := VStr (py_join " " summaries) ]}]> h0),
         (heap_top h0).
  split; [|split].
  - unfold merge_summaries_tool. rewrite alloc_bind. fold h0. tool_gets.
    rewrite Hsum. simpl default.
    unfold bind at 1. unfold iterate. rewrite Hls0. simpl lift. unfold ret at 1.
    rewrite join_values_strs. by rewrite lift_Ok_bind, alloc_bind.
  - apply lookup_insert_eq.
  - intros l o Hl. by do 2 apply alloc_keeps.
Qed.

(** X13. [merge_summaries_tool] on a state whose ["chunk_summaries"] is a
    list of strings: it returns a new dictionary binding ["summary"] to a
    string whose words are the words of the summaries, in order; a list
    with an element that is no string raises TypeError. *)
Theorem merge_summaries_words state config h d ls :
  h !! state = Some (ODict d) →
  d !! "chunk_summaries" = Some (VRef ls) →
  (∀ summaries,
     h !! ls = Some (OList (VStr <$> summaries)) →
     ∃ h' ld summary,
       merge_summaries_tool state config h = Done h' (VRef ld)
       ∧ h' !! ld = Some (ODict {[ "summary" := VStr summary ]})
       ∧ (∀ l o, h !! l = Some o → h' !! l = Some o)
       ∧ py_split summary = concat (py_split <$> summaries))
  ∧ (∀ items,
       h !! ls = Some (OList items) →
       (∃ v, v ∈ items ∧ ∀ s, v ≠ VStr s) →
       ∃ h', merge_summaries_tool state config h = Fail h' TypeError).
Proof.
  intros Hst Hsum.
  set (h0 := <[heap_top h := OList []]> h).
  assert (h0 !! state = Some (ODict d)) as Hst0 by by apply alloc_keeps.
  split.
  - intros summaries Hls.
    destruct (merge_summaries_returns state config h d ls summaries)
      as (h' & ld & Hrun & Hld & Hframe); try done.
    exists h', ld, (py_join " " summaries).
    split; [done|]. split; [done|]. split; [done|]. apply split_join.
  - intros items Hls (v & Hin & Hns).
    assert (h0 !! ls = Some (OList items)) as Hls0 by by apply alloc_keeps.
    assert (join_values " " items = Raise TypeError) as Hjoin.
    { clear Hls Hls0. induction items as [|x items IH]; [by apply elem_of_nil in Hin|].
      apply elem_of_cons in Hin as [<-|Hin].
      - destruct v; try done. by destruct (Hns s).
      - specialize (IH Hin). destruct x; try done.
        destruct items; [by apply elem_of_nil in Hin|].
        by rewrite join_values_cons, IH. }
    exists h0. unfold merge_summaries_tool. rewrite alloc_bind. fold h0. tool_gets.
    rewrite Hsum. simpl default.
    unfold bind at 1. unfold iterate. rewrite Hls0. simpl lift. unfold ret at 1.
    by rewrite Hjoin.
Qed.

Lemma merge_summaries_words_witness :
  ∃ h' ld summary,
    merge_summaries_tool 0%nat 1%nat
      (<[0%nat := ODict {[ "chunk_summaries" := VRef 2%nat ]}]>
         (<[1%nat := ODict ∅]>
            (<[2%nat := OList [VStr "a b"; VStr ""; VStr "c"]]> ∅)))
    = Done h' (VRef ld)
    ∧ h' !! ld = Some (ODict {[ "summary" := VStr summary ]})
    ∧ py_split summary = ["a"; "b"; "c"].
Proof.
  destruct (merge_summaries_words 0%nat 1%nat
              (<[0%nat := ODict {[ "chunk_summaries" := VRef 2%nat ]}]>
                 (<[1%nat := ODict ∅]>
                    (<[2%nat := OList [VStr "a b"; VStr ""; VStr "c"]]> ∅)))
              {[ "chunk_summaries" := VRef 2%nat ]} 2%nat)
    as [Hok _]; [vm_compute; reflexivity .. |].
  destruct (Hok ["a b"; ""; "c"])
    as (h' & ld & summary & Hrun & Hld & _ & Hwords); [vm_compute; reflexivity |].
  exists h', ld, summary. repeat split; assumption.
Defined.

(** *** [refine_summary_tool] and [evaluate_summary_tool] *)

Lemma refine_summary_returns state config h d c summary m :
  h !! state = Some (ODict d) →
  h !! config = Some (ODict c) →
  default (VStr "") (d !! "summary") = VStr summary →
  default (default (VInt 80) (c !! "max_summary_words"))
          (d !! "max_summary_words") = VInt m →
  ∃ h' ld,
    refine_summary_tool state config h = Done h' (VRef ld)
    ∧ (∀ l o, h !! l = Some o → h' !! l = Some o)
    ∧ h' !! ld
      = Some (ODict (if bool_decide (Z.of_nat (length (py_split summary)) ≤ m)
                     then ∅
                     else {[ "summary"
                             := VStr (py_join " " (py_slice (py_split summary) 0 m)) ]})).
Proof.
  intros Hst Hcfg Hsum Hmax.
  unfold refine_summary_tool. tool_gets. rewrite Hsum, Hmax.
  simpl str_split. rewrite lift_Ok_bind.
  unfold bind at 1. rewrite py_cmp_int. simpl lift. unfold ret at 1.
  unfold int_cmp. case_bool_decide as Hle.
  - rewrite (proj2 (Z.leb_le _ _) Hle). rewrite alloc_bind.
    eexists _, _. split; [done|]. split; [by intros; apply alloc_keeps|].
    apply lookup_insert_eq.
  - rewrite (proj2 (Z.leb_gt _ _)) by lia.
    simpl py_slice_to. rewrite lift_Ok_bind, alloc_bind.
    eexists _, _. split; [done|]. split; [by intros; apply alloc_keeps|].
    apply lookup_insert_eq.
Qed.

(** X14. [refine_summary_tool] on a summary string and a bound [m >= 0]
    (the state's [max_summary_words], else the configuration's, else 80):
    a summary of at most [m] words gives an empty dictionary (no update);
    a longer one gives a new dictionary binding ["summary"] to its first [m]
    words joined by spaces.  Existing objects are left as they are. *)
Theorem refine_summary_bound state config h d c summary m :
  h !! state = Some (ODict d) →
  h !! config = Some (ODict c) →
  default (VStr "") (d !! "summary") = VStr summary →
  default (default (VInt 80) (c !! "max_summary_words"))
          (d !! "max_summary_words") = VInt m →
  0 ≤ m →
  ∃ h' ld,
    refine_summary_tool state config h = Done h' (VRef ld)
    ∧ (∀ l o, h !! l = Some o → h' !! l = Some o)
    ∧ if bool_decide (Z.of_nat (length (py_split summary)) ≤ m)
      then h' !! ld = Some (ODict ∅)
      else ∃ s, h' !! ld = Some (ODict {[ "summary" := VStr s ]})
                ∧ py_split s = take (Z.to_nat m) (py_split summary)
                ∧ Z.of_nat (length (py_split s)) = m.
Proof.
  intros Hst Hcfg Hsum Hmax Hm.
  destruct (refine_summary_returns state config h d c summary m)
    as (h' & ld & Hrun & Hframe & Hld); try done.
  exists h', ld. split; [done|]. split; [done|].
  case_bool_decide as Hle; [done|].
  eexists. split; [exact Hld|].
  rewrite py_slice_from_zero by done.
  rewrite split_join_words by apply Forall_take, split_words.
  split; [done|]. rewrite length_take. lia.
Qed.

Lemma refine_summary_bound_witness :
  ∃ h' ld s,
    refine_summary_tool 0%nat 1%nat
      (<[0%nat := ODict {[ "summary" := VStr "a b c d" ]}]>
         (<[1%nat := ODict {[ "max_summary_words" := VInt 3 ]}]> ∅))
    = Done h' (VRef ld)
    ∧ h' !! ld = Some (ODict {[ "summary" := VStr s ]})
    ∧ py_split s = ["a"; "b"; "c"].
Proof.
  destruct (refine_summary_bound 0%nat 1%nat
              (<[0%nat := ODict {[ "summary" := VStr "a b c d" ]}]>
                 (<[1%nat := ODict {[ "max_summary_words" := VInt 3 ]}]> ∅))
              {[ "summary" := VStr "a b c d" ]} {[ "max_summary_words" := VInt 3 ]}
              "a b c d" 3)
    as (h' & ld & Hrun & _ & s & Hld & Hwords & _);
    [vm_compute; reflexivity .. | lia |].
  exists h', ld, s. repeat split; assumption.
Defined.

Lemma evaluate_summary_returns state config h d summary :
  h !! state = Some (ODict d) →
  default (VStr "") (d !! "summary") = VStr summary →
  ∃ h' ld,
    evaluate_summary_tool state config h = Done h' (VRef ld)
    ∧ h' !! ld = Some (ODict {[ "summary_length"
                                := VInt (Z.of_nat (length (py_split summary))) ]})
    ∧ (∀ l o, h !! l = Some o → h' !! l = Some o).
Proof.
  intros Hst Hsum. unfold evaluate_summary_tool. tool_gets. rewrite Hsum.
  simpl str_split. rewrite lift_Ok_bind, alloc_bind.
  eexists _, _. split; [done|]. split; [apply lookup_insert_eq|].
  by intros; apply alloc_keeps.
Qed.

(** X15. [evaluate_summary_tool] on a summary string: it returns a new
    dictionary binding ["summary_length"] to the number of words of the
    summary; a state without summary gives 0, a summary that is no string
    raises AttributeError. *)
Theorem evaluate_summary_counts state config h d :
  h !! state = Some (ODict d) →
  (∀ summary,
     default (VStr "") (d !! "summary") = VStr summary →
     ∃ h' ld,
       evaluate_summary_tool state config h = Done h' (VRef ld)
       ∧ h' !! ld = Some (ODict {[ "summary_length"
                                   := VInt (Z.of_nat (length (py_split summary))) ]})
       ∧ (∀ l o, h !! l = Some o → h' !! l = Some o))
  ∧ (d !! "summary" = None →
       ∃ h' ld,
         evaluate_summary_tool state config h = Done h' (VRef ld)
         ∧ h' !! ld = Some (ODict {[ "summary_length" := VInt 0 ]}))
  ∧ (∀ v, d !! "summary" = Some v → (∀ s, v ≠ VStr s) →
       evaluate_summary_tool state config h = Fail h (OtherError "AttributeError")).
Proof.
  intros Hst. split; [|split].
  - intros summary Hsum. by apply (evaluate_summary_returns state config h d).
  - intros Hnone. unfold evaluate_summary_tool. tool_gets. rewrite Hnone.
    simpl. eexists _, _. split; [done|]. apply lookup_insert_eq.
  - intros v Hv Hns. unfold evaluate_summary_tool. tool_gets. rewrite Hv. simpl.
    destruct v; try done. by destruct (Hns s).
Qed.

Lemma evaluate_summary_counts_witness :
  ∃ h' ld,
    evaluate_summary_tool 0%nat 1%nat
      (<[0%nat := ODict {[ "summary" := VStr "a b  c" ]}]> (<[1%nat := ODict ∅]> ∅))
    = Done h' (VRef ld)
    ∧ h' !! ld = Some (ODict {[ "summary_length" := VInt 3 ]}).
Proof.
  destruct (evaluate_summary_counts 0%nat 1%nat
              (<[0%nat := ODict {[ "summary" := VStr "a b  c" ]}]>
                 (<[1%nat := ODict ∅]> ∅))
              {[ "summary" := VStr "a b  c" ]})
    as [Hok _]; [vm_compute; reflexivity |].
  destruct (Hok "a b  c") as (h' & ld & Hrun & Hld & _); [vm_compute; reflexivity |].
  exists h', ld. split; assumption.
Defined.

(** ** The summarization workflow *)

Lemma update_lookup k v (d : gmap string value) : ({[ k := v ]} ∪ d) !! k = Some v.
Proof. apply lookup_union_Some_l, lookup_singleton_eq. Qed.

Lemma update_lookup_ne k k' v (d : gmap string value) :
  k ≠ k' → ({[ k := v ]} ∪ d) !! k' = d !! k'.
Proof. intros Hk. rewrite lookup_union_r; [done|]. by apply lookup_singleton_ne. Qed.

Lemma default_tools_registered registry :
  let r := ToolRegistry._tools (register_default_tools registry) in
  r !! "split_text" = Some split_text_tool
  ∧ r !! "summarize_chunks" = Some summarize_chunks_tool
  ∧ r !! "merge_summaries" = Some merge_summaries_tool
  ∧ r !! "refine_summary" = Some refine_summary_tool
  ∧ r !! "evaluate_summary" = Some evaluate_summary_tool.
Proof.
  unfold register_default_tools, ToolRegistry.register. cbn.
  repeat split;
    repeat (first [ apply lookup_insert_eq | rewrite lookup_insert_ne by done ]).
Qed.

Section merging.
Context (registry : ToolRegistry.t) (graph : Graph.t) (state : loc).

(** A step whose tool returns the dictionary [du]: the state becomes
    [du] over its former bindings, other objects stay. *)
Lemma exec_node_merges i cid node (t : tool_fn) h h1 lu du d next :
  ToolRegistry._tools registry !! Node.tool node = Some t →
  t state (Node.config node) h = Done h1 (VRef lu) →
  h1 !! lu = Some (ODict du) →
  h1 !! state = Some (ODict d) →
  (∀ h2, h2 !! state = Some (ODict (du ∪ d)) →
         _next_node_id graph cid state h2 = Done h2 next) →
  ∃ h2 snapshot,
    exec_node registry graph state i cid node h
    = Done h2 (StepLog.mk i (Node.id node) (Node.tool node) snapshot, next)
    ∧ h2 !! state = Some (ODict (du ∪ d))
    ∧ (∀ l o, l ≠ state → h1 !! l = Some o → h2 !! l = Some o).
Proof.
  intros Ht Hcall Hlu Hst Hnext.
  assert (∃ hm, merge_phase registry state node h = Done hm ()
                ∧ hm !! state = Some (ODict (du ∪ d))
                ∧ ∀ l o, l ≠ state → h1 !! l = Some o → hm !! l = Some o)
    as (hm & Hmerge & Hstm & Hframe).
  { unfold merge_phase, ToolRegistry.get. rewrite Ht, lift_Ok_bind.
    rewrite (bind_Done _ _ _ _ _ Hcall).
    cbv beta. unfold bind at 1. unfold or_empty, truthy. rewrite Hlu.
    destruct (decide (du = ∅)) as [->|Hne].
    - rewrite bool_decide_eq_true_2 by done. cbn [negb].
      rewrite alloc_bind. unfold ret at 1.
      unfold dict_update. rewrite alloc_keeps with (o' := ODict d) by done.
      rewrite lookup_insert_eq.
      eexists. split; [done|]. split; [apply lookup_insert_eq|].
      intros l o Hl Hlo. rewrite lookup_insert_ne by done. by apply alloc_keeps.
    - rewrite bool_decide_eq_false_2 by done. cbn [negb].
      unfold dict_update. rewrite Hst, Hlu.
      eexists. split; [done|]. split; [apply lookup_insert_eq|].
      intros l o Hl Hlo. by rewrite lookup_insert_ne. }
  eexists _, _. split; [|split].
  - unfold exec_node. rewrite (bind_Done _ _ _ _ _ Hmerge).
    unfold log_phase. rewrite (bind_Done _ _ _ _ _ (deepcopy_unfold _ _)).
    rewrite (bind_Done _ _ _ _ _ (Hnext _ (lookup_union_Some_l _ _ _ _ Hstm))).
    reflexivity.
  - by apply lookup_union_Some_l.
  - intros l o Hl Hlo. apply lookup_union_Some_l. by apply Hframe.
Qed.

Lemma next_node_id_to cid h e b :
  Graph.edges graph !! cid = Some e →
  Edge.condition_key e = None → Edge.to_node e = b →
  _next_node_id graph cid state h = Done h b.
Proof. intros He Hk <-. unfold _next_node_id. by rewrite He, Hk. Qed.

Lemma next_node_id_gt cid h e key bound d n :
  Graph.edges graph !! cid = Some e →
  Edge.condition_key e = Some key → Edge.condition_op e = Some "gt" →
  Edge.condition_value e = VInt bound →
  h !! state = Some (ODict d) → d !! key = Some (VInt n) →
  _next_node_id graph cid state h
  = Done h (if bool_decide (bound < n) then Edge.true_target e
            else Edge.false_target e).
Proof.
  intros He Hk Ho Hv Hst Hn. unfold _next_node_id. rewrite He, Hk, Ho, Hv.
  unfold bind at 1. unfold dict_get. rewrite Hst, Hn. simpl default.
  unfold bind at 1. unfold _compare. rewrite String.eqb_refl.
  rewrite py_cmp_int. cbn [lift ret int_cmp].
  unfold ret. case_bool_decide as Hlt.
  - by rewrite (proj2 (Z.gtb_lt _ _)) by lia.
  - destruct (n >? bound) eqn:Hgt; [|done]. apply Z.gtb_lt in Hgt. lia.
Qed.
End merging.

Lemma merged_summary_words text z p :
  0 < z → 0 ≤ p →
  py_split (py_join " " (summaries_of (chunks_of_words (py_split text) z) p))
  = merged_words text z p.
Proof.
  intros Hz Hp. rewrite split_join, summaries_of_words by done.
  unfold merged_words, chunks_of_words. f_equal.
  rewrite <- !list_fmap_compose. apply list_fmap_ext. intros _ k _. simpl.
  rewrite split_join_words; [done|].
  unfold chunk_at. apply Forall_take, Forall_drop, split_words.
Qed.

Section workflow.
Context (registry : ToolRegistry.t) (graph : Graph.t) (state : loc).
Context (c_split c_summarize c_merge c_evaluate c_refine : loc).
Hypothesis tools :
  ToolRegistry._tools registry !! "split_text" = Some split_text_tool
  ∧ ToolRegistry._tools registry !! "summarize_chunks" = Some summarize_chunks_tool
  ∧ ToolRegistry._tools registry !! "merge_summaries" = Some merge_summaries_tool
  ∧ ToolRegistry._tools registry !! "refine_summary" = Some refine_summary_tool
  ∧ ToolRegistry._tools registry !! "evaluate_summary" = Some evaluate_summary_tool.
Hypothesis wired :
  is_summarization_graph graph c_split c_summarize c_merge c_evaluate c_refine.

(** The evaluation step: the summary is counted, and the refinement is
    next exactly when there are more than 80 words. *)
Lemma evaluate_step i h d summary :
  h !! state = Some (ODict d) →
  d !! "summary" = Some (VStr summary) →
  ∃ h' entry,
    exec_node registry graph state i "evaluate"
              (Node.mk "evaluate" "evaluate_summary" c_evaluate) h
    = Done h' (entry,
               if bool_decide (80 < Z.of_nat (length (py_split summary)))
               then Some "refine" else None)
    ∧ StepLog.node_id entry = "evaluate"
    ∧ h' !! state
      = Some (ODict ({[ "summary_length" := VInt (Z.of_nat (length (py_split summary))) ]}
                     ∪ d))
    ∧ (∀ l o, l ≠ state → h !! l = Some o → h' !! l = Some o).
Proof.
  intros Hst Hsum.
  destruct tools as (_ & _ & _ & _ & Htool).
  destruct wired as (_ & _ & _ & _ & _ & _ & _ & _ & _ & Hedge & _).
  destruct (evaluate_summary_returns state c_evaluate h d summary Hst)
    as (h1 & ld & Hrun & Hld & Hframe); [by rewrite Hsum|].
  destruct (exec_node_merges registry graph state i "evaluate"
              (Node.mk "evaluate" "evaluate_summary" c_evaluate)
              evaluate_summary_tool h h1 ld _ d
              (if bool_decide (80 < Z.of_nat (length (py_split summary)))
               then Some "refine" else None)
              Htool Hrun Hld (Hframe _ _ Hst))
    as (h2 & snapshot & Hexec & Hst2 & Hframe2).
  { intros h2 Hst2.
    by rewrite (next_node_id_gt graph state "evaluate" h2 _ "summary_length" 80 _ _
                  Hedge eq_refl eq_refl eq_refl Hst2 (update_lookup _ _ _)). }
  exists h2, (StepLog.mk i "evaluate" "evaluate_summary" snapshot).
  split; [exact Hexec|]. split; [done|]. split; [done|].
  intros l o Hl Hlo. apply Hframe2; [done|]. by apply Hframe.
Qed.

(** The first three steps: the text is split, the chunks are summarized
    and the summaries merged. *)
Lemma workflow_prefix fuel h d text z p :
  h !! state = Some (ODict d) →
  h !! c_split = Some (ODict {[ "chunk_size" := VInt 80 ]}) →
  h !! c_summarize = Some (ODict {[ "per_chunk_summary_size" := VInt 30 ]}) →
  c_split ≠ state → c_summarize ≠ state →
  default (VStr "") (d !! "text") = VStr text →
  default (VInt 80) (d !! "chunk_size") = VInt z → 0 < z →
  default (VInt 30) (d !! "per_chunk_summary_size") = VInt p → 0 ≤ p →
  ∃ h' logs d' summary,
    loop registry graph state (S (S (S fuel))) 0 (Some "split") [] h
    = loop registry graph state fuel 3 (Some "evaluate") logs h'
    ∧ StepLog.node_id <$> logs = ["split"; "summarize"; "merge"]
    ∧ h' !! state = Some (ODict d')
    ∧ d' !! "summary" = Some (VStr summary)
    ∧ py_split summary = merged_words text z p
    ∧ (∀ k, k ≠ "chunks" → k ≠ "chunk_summaries" → k ≠ "summary" →
            d' !! k = d !! k)
    ∧ (∀ l o, l ≠ state → h !! l = Some o → h' !! l = Some o).
Proof.
  intros Hst Hc1 Hc2 Hn1 Hn2 Htext Hz Hzpos Hp Hppos.
  destruct tools as (Ht1 & Ht2 & Ht3 & _ & _).
  destruct wired as (_ & Hnode1 & Hnode2 & Hnode3 & _ & _ & He1 & He2 & He3 & _ & _).
  (* split *)
  destruct (split_text_returns state c_split h d _ text z Hst Hc1 Htext)
    as (h1 & ld1 & lc & Hrun1 & Hld1 & Hlc & Hframe1);
    [by rewrite lookup_singleton_eq | done |].
  destruct (exec_node_merges registry graph state 0 "split"
              (Node.mk "split" "split_text" c_split) split_text_tool
              h h1 ld1 _ d (Some "summarize") Ht1 Hrun1 Hld1 (Hframe1 _ _ Hst))
    as (h2 & snap1 & Hexec1 & Hst2 & Hframe2).
  { intros. by eapply next_node_id_to. }
  rewrite (loop_exec_step _ _ _ _ _ _ _ _ _ _ _ _ Hnode1 Hexec1).
  set (d2 := {[ "chunks" := VRef lc ]} ∪ d) in *.
  assert (lc ≠ state) as Hnlc by (intros ->; rewrite (Hframe1 _ _ Hst) in Hlc; done).
  (* summarize *)
  destruct (summarize_chunks_returns state c_summarize h2 d2 _ lc _ p Hst2
              (Hframe2 _ _ Hn2 (Hframe1 _ _ Hc2)) (update_lookup _ _ _)
              (Hframe2 _ _ Hnlc Hlc))
    as (h3 & ld3 & ls & Hrun3 & Hld3 & Hls & Hframe3).
  { unfold d2. rewrite update_lookup_ne by done. by rewrite lookup_singleton_eq. }
  destruct (exec_node_merges registry graph state (0 + 1) "summarize"
              (Node.mk "summarize" "summarize_chunks" c_summarize)
              summarize_chunks_tool h2 h3 ld3 _ d2 (Some "merge")
              Ht2 Hrun3 Hld3 (Hframe3 _ _ Hst2))
    as (h4 & snap2 & Hexec2 & Hst4 & Hframe4).
  { intros. by eapply next_node_id_to. }
  rewrite (loop_exec_step _ _ _ _ _ _ _ _ _ _ _ _ Hnode2 Hexec2).
  set (d4 := {[ "chunk_summaries" := VRef ls ]} ∪ d2) in *.
  assert (ls ≠ state) as Hnls by (intros ->; rewrite (Hframe3 _ _ Hst2) in Hls; done).
  (* merge *)
  destruct (merge_summaries_returns state c_merge h4 d4 ls _ Hst4
              (update_lookup _ _ _) (Hframe4 _ _ Hnls Hls))
    as (h5 & ld5 & Hrun5 & Hld5 & Hframe5).
  destruct (exec_node_merges registry graph state (0 + 1 + 1) "merge"
              (Node.mk "merge" "merge_summaries" c_merge)
              merge_summaries_tool h4 h5 ld5 _ d4 (Some "evaluate")
              Ht3 Hrun5 Hld5 (Hframe5 _ _ Hst4))
    as (h6 & snap3 & Hexec3 & Hst6 & Hframe6).
  { intros. by eapply next_node_id_to. }
  rewrite (loop_exec_step _ _ _ _ _ _ _ _ _ _ _ _ Hnode3 Hexec3).
  eexists _, _, _, _. split; [reflexivity|].
  split; [done|]. split; [exact Hst6|]. split; [apply update_lookup|].
  split; [by apply merged_summary_words|]. split.
  - intros k Hk1 Hk2 Hk3. unfold d4, d2. by rewrite !update_lookup_ne by done.
  - intros l o Hl Hlo. apply Hframe6; [done|]. apply Hframe5, Hframe4; [done|].
    apply Hframe3, Hframe2; [done|]. by apply Hframe1.
Qed.

(** With a bound of at most 80 words the workflow completes: after the
    evaluation, at most one refinement and a second evaluation. *)
Lemma workflow_loop fuel h d text z p m :
  h !! state = Some (ODict d) →
  h !! c_split = Some (ODict {[ "chunk_size" := VInt 80 ]}) →
  h !! c_summarize = Some (ODict {[ "per_chunk_summary_size" := VInt 30 ]}) →
  h !! c_refine = Some (ODict {[ "max_summary_words" := VInt 80 ]}) →
  c_split ≠ state → c_summarize ≠ state → c_refine ≠ state →
  default (VStr "") (d !! "text") = VStr text →
  default (VInt 80) (d !! "chunk_size") = VInt z → 0 < z →
  default (VInt 30) (d !! "per_chunk_summary_size") = VInt p → 0 ≤ p →
  default (VInt 80) (d !! "max_summary_words") = VInt m → 0 ≤ m ≤ 80 →
  (6 < fuel)%nat →
  ∃ hf logs df summary,
    loop registry graph state fuel 0 (Some "split") [] h
    = Done hf ("completed", None, logs)
    ∧ StepLog.node_id <$> logs = workflow_path (merged_words text z p)
    ∧ hf !! state = Some (ODict df)
    ∧ df !! "summary" = Some (VStr summary)
    ∧ df !! "summary_length" = Some (VInt (Z.of_nat (length (py_split summary))))
    ∧ py_split summary
      = (if bool_decide (80 < Z.of_nat (length (merged_words text z p)))
         then take (Z.to_nat m) (merged_words text z p)
         else merged_words text z p)
    ∧ (∀ k, k ≠ "chunks" → k ≠ "chunk_summaries" → k ≠ "summary" →
            k ≠ "summary_length" → df !! k = d !! k).
Proof.
  intros Hst Hc1 Hc2 Hc5 Hn1 Hn2 Hn5 Htext Hz Hzpos Hp Hppos Hm Hmrange Hfuel.
  do 7 (destruct fuel as [|fuel]; [lia|]). clear Hfuel.
  destruct (workflow_prefix (S (S (S (S fuel)))) h d text z p)
    as (h6 & logs3 & d6 & summary & -> & Hids & Hst6 & Hsum & Hwords & Hkeep6 & Hframe6);
    try done.
  destruct tools as (_ & _ & _ & Ht5 & _).
  destruct wired as (_ & _ & _ & _ & Hnode4 & Hnode5 & _ & _ & _ & _ & He5).
  (* evaluate *)
  destruct (evaluate_step 3 h6 d6 summary Hst6 Hsum)
    as (h7 & e4 & Hexec4 & Hid4 & Hst7 & Hframe7).
  rewrite (loop_exec_step _ _ _ _ _ _ _ _ _ _ _ _ Hnode4 Hexec4).
  set (d7 := {[ "summary_length" := VInt (Z.of_nat (length (py_split summary))) ]} ∪ d6)
    in *.
  assert (∀ k, k ≠ "chunks" → k ≠ "chunk_summaries" → k ≠ "summary" →
               k ≠ "summary_length" → d7 !! k = d !! k) as Hkeep.
  { intros k Hk1 Hk2 Hk3 Hk4. unfold d7. rewrite update_lookup_ne by done.
    by apply Hkeep6. }
  unfold workflow_path. rewrite <- Hwords.
  case_bool_decide as Hlong.
  - (* refine, then evaluate again *)
    destruct (refine_summary_returns state c_refine h7 d7 _ summary m Hst7
                (Hframe7 _ _ Hn5 (Hframe6 _ _ Hn5 Hc5)))
      as (h8 & ld8 & Hrun8 & Hframe8 & Hld8).
    { unfold d7. by rewrite update_lookup_ne, Hsum. }
    { rewrite Hkeep by done. by rewrite lookup_singleton_eq. }
    rewrite bool_decide_eq_false_2 in Hld8 by lia.
    destruct (exec_node_merges registry graph state (3 + 1) "refine"
                (Node.mk "refine" "refine_summary" c_refine)
                refine_summary_tool h7 h8 ld8 _ d7 (Some "evaluate")
                Ht5 Hrun8 Hld8 (Hframe8 _ _ Hst7))
      as (h9 & snap5 & Hexec5 & Hst9 & Hframe9).
    { intros. by eapply next_node_id_to. }
    rewrite (loop_exec_step _ _ _ _ _ _ _ _ _ _ _ _ Hnode5 Hexec5).
    set (refined := py_join " " (py_slice (py_split summary) 0 m)) in *.
    assert (py_split refined = take (Z.to_nat m) (py_split summary)) as Hrefined.
    { unfold refined. rewrite py_slice_from_zero by lia.
      apply split_join_words, Forall_take, split_words. }
    destruct (evaluate_step (3 + 1 + 1) h9 _ refined Hst9 (update_lookup _ _ _))
      as (h10 & e6 & Hexec6 & Hid6 & Hst10 & Hframe10).
    rewrite (loop_exec_step _ _ _ _ _ _ _ _ _ _ _ _ Hnode4 Hexec6).
    rewrite bool_decide_eq_false_2
      by (rewrite Hrefined, length_take; lia).
    eexists _, _, _, refined. split; [reflexivity|].
    split; [by rewrite !fmap_app, Hids; cbn; rewrite Hid4, Hid6|].
    split; [exact Hst10|]. split; [by rewrite update_lookup_ne, update_lookup|].
    split; [apply update_lookup|]. split; [done|].
    intros k Hk1 Hk2 Hk3 Hk4. rewrite !update_lookup_ne by done.
    by apply Hkeep.
  - eexists _, _, _, summary. split; [reflexivity|].
    split; [by rewrite !fmap_app, Hids; cbn; rewrite Hid4|].
    split; [exact Hst7|]. split; [unfold d7; by rewrite update_lookup_ne|].
    split; [apply update_lookup|]. split; [done|]. exact Hkeep.
Qed.
(** With a bound above 80 words a summary of more than 80 words is never
    short enough for the guard: evaluation and refinement alternate until
    the budget is used up. *)
Lemma workflow_cycles fuel : ∀ i cur logs h d summary m,
  h !! state = Some (ODict d) →
  d !! "summary" = Some (VStr summary) →
  80 < Z.of_nat (length (py_split summary)) →
  h !! c_refine = Some (ODict {[ "max_summary_words" := VInt 80 ]}) →
  c_refine ≠ state →
  default (VInt 80) (d !! "max_summary_words") = VInt m → 80 < m →
  cur = "evaluate" ∨ cur = "refine" →
  ∃ hf c logs',
    loop registry graph state fuel i (Some cur) logs h
    = Done hf ("failed", Some c, logs ++ logs')
    ∧ length logs' = fuel
    ∧ (c = "evaluate" ∨ c = "refine").
Proof.
  destruct tools as (_ & _ & _ & Ht5 & _).
  destruct wired as (_ & _ & _ & _ & Hnode4 & Hnode5 & _ & _ & _ & _ & He5).
  induction fuel as [|fuel IH]; intros i cur logs h d summary m
    Hst Hsum Hlong Hc5 Hn5 Hm Hbig Hcur.
  { exists h, cur, []. by rewrite app_nil_r. }
  destruct Hcur as [-> | ->].
  - destruct (evaluate_step i h d summary Hst Hsum)
      as (h1 & e & Hexec & Hid & Hst1 & Hframe1).
    rewrite bool_decide_eq_true_2 in Hexec by done.
    rewrite (loop_exec_step _ _ _ _ _ _ _ _ _ _ _ _ Hnode4 Hexec).
    destruct (IH (i + 1) "refine" (logs ++ [e]) h1 _ summary m Hst1)
      as (hf & c & logs' & -> & Hlen & Hc); try done.
    + by rewrite update_lookup_ne.
    + by apply Hframe1.
    + by rewrite update_lookup_ne.
    + by right.
    + exists hf, c, (e :: logs'). rewrite <- app_assoc. split; [done|].
      split; [by rewrite length_cons, Hlen | done].
  - destruct (refine_summary_returns state c_refine h d _ summary m Hst Hc5)
      as (h1 & ld & Hrun & Hframe1 & Hld); [by rewrite Hsum | |].
    { by rewrite lookup_singleton_eq. }
    destruct (exec_node_merges registry graph state i "refine"
                (Node.mk "refine" "refine_summary" c_refine)
                refine_summary_tool h h1 ld _ d (Some "evaluate")
                Ht5 Hrun Hld (Hframe1 _ _ Hst))
      as (h2 & snapshot & Hexec & Hst2 & Hframe2).
    { intros. by eapply next_node_id_to. }
    cbn [Node.id Node.tool] in Hexec.
    rewrite (loop_exec_step _ _ _ _ _ _ _ _ _ _ _ _ Hnode5 Hexec).
    assert (∃ summary',
              (((if bool_decide (Z.of_nat (length (py_split summary)) ≤ m)
                 then ∅
                 else {[ "summary"
                         := VStr (py_join " " (py_slice (py_split summary) 0 m)) ]})
                : gmap string value) ∪ d) !! "summary" = Some (VStr summary')
              ∧ 80 < Z.of_nat (length (py_split summary')))
      as (summary' & Hsum' & Hlong').
    { case_bool_decide as Hle.
      - exists summary. by rewrite (left_id_L ∅ (∪)).
      - eexists. split; [apply update_lookup|].
        rewrite py_slice_from_zero by lia.
        rewrite split_join_words by apply Forall_take, split_words.
        rewrite length_take. lia. }
    destruct (IH (i + 1) "evaluate"
                 (logs ++ [StepLog.mk i "refine" "refine_summary" snapshot])
                 h2 _ summary' m Hst2 Hsum' Hlong')
      as (hf & c & logs' & -> & Hlen & Hc); try done.
    + apply Hframe2; [done|]. by apply Hframe1.
    + case_bool_decide; [by rewrite (left_id_L ∅ (∪))|].
      by rewrite update_lookup_ne.
    + by left.
    + eexists hf, c, (_ :: logs'). rewrite <- app_assoc. split; [done|].
      split; [by rewrite length_cons, Hlen | done].
Qed.
End workflow.

(** What [create_summarization_workflow] leaves behind: the graph under
    its identifier and the three configurations that the tools read. *)
Lemma workflow_created engine graph_id h0 hw engine' graph_id' :
  create_summarization_workflow engine graph_id h0 = Done hw (engine', graph_id') →
  ∃ g c_split c_summarize c_merge c_evaluate c_refine,
    graph_id' = graph_id
    ∧ GraphEngine.tool_registry engine' = GraphEngine.tool_registry engine
    ∧ GraphEngine.graphs engine' !! graph_id = Some g
    ∧ is_summarization_graph g c_split c_summarize c_merge c_evaluate c_refine
    ∧ hw !! c_split = Some (ODict {[ "chunk_size" := VInt 80 ]})
    ∧ hw !! c_summarize = Some (ODict {[ "per_chunk_summary_size" := VInt 30 ]})
    ∧ hw !! c_refine = Some (ODict {[ "max_summary_words" := VInt 80 ]})
    ∧ (∀ l o, h0 !! l = Some o → hw !! l = Some o).
Proof.
  unfold create_summarization_workflow. rewrite !alloc_bind.
  set (o1 := ODict {[ "chunk_size" := VInt 80 ]}).
  set (o2 := ODict {[ "per_chunk_summary_size" := VInt 30 ]}).
  set (o5 := ODict {[ "max_summary_words" := VInt 80 ]}).
  set (h1 := <[heap_top h0 := o1]> h0).
  set (h2 := <[heap_top h1 := o2]> h1).
  set (h3 := <[heap_top h2 := ODict ∅]> h2).
  set (h4 := <[heap_top h3 := ODict ∅]> h3).
  generalize (heap_top h3) as c4. generalize (heap_top h2) as c3.
  intros c3 c4. unfold ret, create_graph. intros [= <- <- <-].
  eexists _, (heap_top h0), (heap_top h1), c3, c4, (heap_top h4).
  split; [done|]. split; [done|]. split; [apply lookup_insert_eq|].
  split; [|split; [|split; [|split]]].
  - generalize (heap_top h0), (heap_top h1), (heap_top h4). intros c1 c2 c5.
    repeat split; vm_compute; reflexivity.
  - do 4 apply alloc_keeps. apply lookup_insert_eq.
  - do 3 apply alloc_keeps. apply lookup_insert_eq.
  - apply lookup_insert_eq.
  - intros l o Hl. by do 5 apply alloc_keeps.
Qed.

(** X16. The summarization workflow, created on an engine with the default
    tools and run on a text with a positive chunk size, a summary size
    [p >= 0] and a bound [0 <= m <= 80] (each from the initial state, else
    the node's configuration), with a budget of at least 7 steps:
    the run completes.  The summary is the first [p] words of every chunk;
    when that is more than 80 words the run takes one refinement round and
    keeps the first [m] words, otherwise the summary stays whole (also
    when it is longer than [m]).  ["summary_length"] is the number of words
    of the final summary, at most 80, and the other keys of the initial
    state are kept. *)
Theorem summarization_workflow_completes registry engine graph_id h0 hw engine'
    graph_id' run_id initial_state max_steps h d text z p m :
  GraphEngine.tool_registry engine = register_default_tools registry →
  create_summarization_workflow engine graph_id h0 = Done hw (engine', graph_id') →
  (∀ l o, hw !! l = Some o → h !! l = Some o) →
  h !! initial_state = Some (ODict d) →
  default (VStr "") (d !! "text") = VStr text →
  default (VInt 80) (d !! "chunk_size") = VInt z → 0 < z →
  default (VInt 30) (d !! "per_chunk_summary_size") = VInt p → 0 ≤ p →
  default (VInt 80) (d !! "max_summary_words") = VInt m → 0 ≤ m ≤ 80 →
  6 < max_steps →
  ∃ hf engine'' r df summary,
    run_graph engine' run_id graph_id' initial_state max_steps h
    = Done hf (engine'', r)
    ∧ Run.status r = "completed" ∧ Run.current_node r = None
    ∧ StepLog.node_id <$> Run.log r = workflow_path (merged_words text z p)
    ∧ hf !! Run.state r = Some (ODict df)
    ∧ df !! "summary" = Some (VStr summary)
    ∧ df !! "summary_length" = Some (VInt (Z.of_nat (length (py_split summary))))
    ∧ py_split summary
      = (if bool_decide (80 < Z.of_nat (length (merged_words text z p)))
         then take (Z.to_nat m) (merged_words text z p)
         else merged_words text z p)
    ∧ Z.of_nat (length (py_split summary)) ≤ 80
    ∧ (∀ k, k ≠ "chunks" → k ≠ "chunk_summaries" → k ≠ "summary" →
            k ≠ "summary_length" → df !! k = d !! k).
Proof.
  intros Hreg Hcreate Hlater Hinit Htext Hz Hzpos Hp Hppos Hm Hmrange Hsteps.
  destruct (workflow_created _ _ _ _ _ _ Hcreate)
    as (g & c1 & c2 & c3 & c4 & c5 & -> & Hreg' & Hg & Hwired & Hc1 & Hc2 & Hc5 & _).
  assert (∀ c o, hw !! c = Some o →
                 <[heap_top h := ODict d]> h !! c = Some o ∧ c ≠ heap_top h) as Hcfg.
  { intros c o Hc. apply Hlater in Hc. split; [by apply alloc_keeps|].
    intros ->. by rewrite heap_top_fresh in Hc. }
  destruct (Hcfg _ _ Hc1) as [Hc1' Hn1]. destruct (Hcfg _ _ Hc2) as [Hc2' Hn2].
  destruct (Hcfg _ _ Hc5) as [Hc5' Hn5].
  destruct (workflow_loop (GraphEngine.tool_registry engine') g (heap_top h)
              c1 c2 c3 c4 c5
              ltac:(rewrite Hreg', Hreg; apply default_tools_registered) Hwired
              (Z.to_nat max_steps) (<[heap_top h := ODict d]> h) d text z p m
              (lookup_insert_eq _ _ _) Hc1' Hc2' Hc5' Hn1 Hn2 Hn5
              Htext Hz Hzpos Hp Hppos Hm Hmrange ltac:(lia))
    as (hf & logs & df & summary & Hloop & Hids & Hst & Hsum & Hlen & Hwords & Hkeep).
  rewrite (run_graph_unfold _ _ _ _ _ _ g d Hg Hinit).
  destruct Hwired as (-> & _). rewrite Hloop. cbn zeta.
  eexists _, _, _, df, summary. split; [reflexivity|].
  repeat (split; [done|]). split; [|done].
  rewrite Hwords. case_bool_decide; [rewrite length_take|]; lia.
Qed.

Lemma summarization_workflow_completes_witness :
  ∃ hw engine' graph_id',
    create_summarization_workflow
      (GraphEngine.init (register_default_tools ToolRegistry.init)) "example"
      {[ 0%nat := ODict (<[ "text" := VStr "a b c d e" ]>
                           (<[ "chunk_size" := VInt 2 ]>
                              {[ "per_chunk_summary_size" := VInt 1 ]})) ]}
    = Done hw (engine', graph_id')
    ∧ ∃ hf engine'' r df,
        run_graph engine' "run" graph_id' 0%nat 100 hw = Done hf (engine'', r)
        ∧ Run.status r = "completed"
        ∧ StepLog.node_id <$> Run.log r = ["split"; "summarize"; "merge"; "evaluate"]
        ∧ hf !! Run.state r = Some (ODict df)
        ∧ df !! "summary_length" = Some (VInt 3).
Proof.
  eexists _, _, _.
  split; [unfold create_summarization_workflow; rewrite !alloc_bind;
          unfold ret, create_graph; reflexivity|].
  destruct (summarization_workflow_completes ToolRegistry.init
              (GraphEngine.init (register_default_tools ToolRegistry.init)) "example"
              {[ 0%nat := ODict (<[ "text" := VStr "a b c d e" ]>
                                   (<[ "chunk_size" := VInt 2 ]>
                                      {[ "per_chunk_summary_size" := VInt 1 ]})) ]}
              _ _ _ "run" 0%nat 100 _
              (<[ "text" := VStr "a b c d e" ]>
                 (<[ "chunk_size" := VInt 2 ]>
                    {[ "per_chunk_summary_size" := VInt 1 ]}))
              "a b c d e" 2 1 80 eq_refl eq_refl (λ l o H, H))
    as (hf & engine'' & r & df & summary & Hrun & Hstatus & _ & Hids & Hst & _
        & Hlen & Hwords & _);
    [ vm_compute; reflexivity | vm_compute; reflexivity | vm_compute; reflexivity
    | lia | vm_compute; reflexivity | lia | vm_compute; reflexivity | lia | lia |].
  exists hf, engine'', r, df. split; [exact Hrun|]. split; [exact Hstatus|].
  split; [exact Hids|]. split; [exact Hst|].
  rewrite Hlen, Hwords. reflexivity.
Defined.

(** X17. The same workflow with a bound above 80 words (["max_summary_words"]
    in the initial state) and a merged summary of more than 80 words never
    completes: the refinement cannot bring the summary to 80 words or less,
    so evaluation and refinement alternate until the budget is used up and
    the run fails, with one log entry per step of the budget. *)
Theorem summarization_workflow_cycles registry engine graph_id h0 hw engine'
    graph_id' run_id initial_state max_steps h d text z p m :
  GraphEngine.tool_registry engine = register_default_tools registry →
  create_summarization_workflow engine graph_id h0 = Done hw (engine', graph_id') →
  (∀ l o, hw !! l = Some o → h !! l = Some o) →
  h !! initial_state = Some (ODict d) →
  default (VStr "") (d !! "text") = VStr text →
  default (VInt 80) (d !! "chunk_size") = VInt z → 0 < z →
  default (VInt 30) (d !! "per_chunk_summary_size") = VInt p → 0 ≤ p →
  default (VInt 80) (d !! "max_summary_words") = VInt m → 80 < m →
  80 < Z.of_nat (length (merged_words text z p)) →
  3 ≤ max_steps →
  ∃ hf engine'' r c,
    run_graph engine' run_id graph_id' initial_state max_steps h
    = Done hf (engine'', r)
    ∧ Run.status r = "failed"
    ∧ Run.current_node r = Some c ∧ (c = "evaluate" ∨ c = "refine")
    ∧ Z.of_nat (length (Run.log r)) = max_steps.
Proof.
  intros Hreg Hcreate Hlater Hinit Htext Hz Hzpos Hp Hppos Hm Hbig Hlong Hsteps.
  destruct (workflow_created _ _ _ _ _ _ Hcreate)
    as (g & c1 & c2 & c3 & c4 & c5 & -> & Hreg' & Hg & Hwired & Hc1 & Hc2 & Hc5 & _).
  assert (∀ c o, hw !! c = Some o →
                 <[heap_top h := ODict d]> h !! c = Some o ∧ c ≠ heap_top h) as Hcfg.
  { intros c o Hc. apply Hlater in Hc. split; [by apply alloc_keeps|].
    intros ->. by rewrite heap_top_fresh in Hc. }
  destruct (Hcfg _ _ Hc1) as [Hc1' Hn1]. destruct (Hcfg _ _ Hc2) as [Hc2' Hn2].
  destruct (Hcfg _ _ Hc5) as [Hc5' Hn5].
  assert (ToolRegistry._tools (GraphEngine.tool_registry engine') !! "split_text"
          = Some split_text_tool
          ∧ ToolRegistry._tools (GraphEngine.tool_registry engine') !! "summarize_chunks"
            = Some summarize_chunks_tool
          ∧ ToolRegistry._tools (GraphEngine.tool_registry engine') !! "merge_summaries"
            = Some merge_summaries_tool
          ∧ ToolRegistry._tools (GraphEngine.tool_registry engine') !! "refine_summary"
            = Some refine_summary_tool
          ∧ ToolRegistry._tools (GraphEngine.tool_registry engine') !! "evaluate_summary"
            = Some evaluate_summary_tool) as Htools
    by (rewrite Hreg', Hreg; apply default_tools_registered).
  rewrite (run_graph_unfold _ _ _ _ _ _ g d Hg Hinit).
  destruct (Z.to_nat max_steps) as [|[|[|fuel]]] eqn:Hfuel; [lia ..|].
  pose proof Hwired as (-> & _).
  destruct (workflow_prefix (GraphEngine.tool_registry engine') g (heap_top h)
              c1 c2 c3 c4 c5 Htools Hwired fuel
              (<[heap_top h := ODict d]> h) d text z p
              (lookup_insert_eq _ _ _) Hc1' Hc2' Hn1 Hn2 Htext Hz Hzpos Hp Hppos)
    as (h6 & logs3 & d6 & summary & -> & Hids & Hst6 & Hsum & Hwords & Hkeep & Hframe).
  destruct (workflow_cycles (GraphEngine.tool_registry engine') g (heap_top h)
              c1 c2 c3 c4 c5 Htools Hwired fuel 3 "evaluate" logs3 h6 d6 summary m
              Hst6 Hsum)
    as (hf & c & logs' & -> & Hlen & Hc).
  - by rewrite Hwords.
  - by apply Hframe.
  - done.
  - by rewrite Hkeep.
  - done.
  - by left.
  - cbn zeta. eexists _, _, _, c. split; [reflexivity|].
    split; [done|]. split; [done|]. split; [done|].
    cbn [Run.log]. rewrite length_app, Hlen.
    apply (f_equal length) in Hids. rewrite length_fmap in Hids. rewrite Hids.
    simpl length. lia.
Qed.

Lemma summarization_workflow_cycles_witness :
  ∃ hw engine' graph_id',
    create_summarization_workflow
      (GraphEngine.init (register_default_tools ToolRegistry.init)) "example"
      {[ 0%nat := ODict (<[ "text" := VStr ninety_words ]>
                           (<[ "per_chunk_summary_size" := VInt 100 ]>
                              {[ "max_summary_words" := VInt 85 ]})) ]}
    = Done hw (engine', graph_id')
    ∧ ∃ hf engine'' r,
        run_graph engine' "run" graph_id' 0%nat 5 hw = Done hf (engine'', r)
        ∧ Run.status r = "failed"
        ∧ Z.of_nat (length (Run.log r)) = 5.
Proof.
  eexists _, _, _.
  split; [unfold create_summarization_workflow; rewrite !alloc_bind;
          unfold ret, create_graph; reflexivity|].
  destruct (summarization_workflow_cycles ToolRegistry.init
              (GraphEngine.init (register_default_tools ToolRegistry.init)) "example"
              {[ 0%nat := ODict (<[ "text" := VStr ninety_words ]>
                                   (<[ "per_chunk_summary_size" := VInt 100 ]>
                                      {[ "max_summary_words" := VInt 85 ]})) ]}
              _ _ _ "run" 0%nat 5 _
              (<[ "text" := VStr ninety_words ]>
                 (<[ "per_chunk_summary_size" := VInt 100 ]>
                    {[ "max_summary_words" := VInt 85 ]}))
              ninety_words 80 100 85 eq_refl eq_refl (λ l o H, H))
    as (hf & engine'' & r & c & Hrun & Hstatus & _ & _ & Hlen);
    [ vm_compute; reflexivity | vm_compute; reflexivity | vm_compute; reflexivity
    | lia | vm_compute; reflexivity | lia | vm_compute; reflexivity | lia
    | vm_compute; reflexivity | lia |].
  exists hf, engine'', r. split; [exact Hrun|]. split; [exact Hstatus | exact Hlen].
Defined.

(** ** The HTTP handlers *)

Lemma run_endpoint_fail engine run_id graph_id initial_state h hf e :
  run_graph engine run_id graph_id initial_state 100 h = Fail hf e →
  main.run_graph engine run_id graph_id initial_state h
  = (hf, engine, HTTPException (status_of e)).
Proof. intros Hrun. unfold main.run_graph. rewrite Hrun. by destruct e. Qed.

(** X18. The run endpoint answers 404 for an unknown graph, and just the
    same for a known graph whose start node names a tool that is not
    registered; when the start node's tool raises, the answer is 404 for a
    KeyError and 500 otherwise.  In each case the engine is left as it
    was: no run is stored. *)
Theorem run_endpoint_errors engine run_id graph_id initial_state h :
  (GraphEngine.graphs engine !! graph_id = None →
     main.run_graph engine run_id graph_id initial_state h
     = (h, engine, HTTPException 404))
  ∧ (∀ g d node,
       GraphEngine.graphs engine !! graph_id = Some g →
       h !! initial_state = Some (ODict d) →
       Graph.nodes g !! Graph.start_node g = Some node →
       (ToolRegistry._tools (GraphEngine.tool_registry engine) !! Node.tool node = None →
          main.run_graph engine run_id graph_id initial_state h
          = (<[heap_top h := ODict d]> h, engine, HTTPException 404))
       ∧ (∀ (t : tool_fn) h' e,
            ToolRegistry._tools (GraphEngine.tool_registry engine) !! Node.tool node
            = Some t →
            t (heap_top h) (Node.config node) (<[heap_top h := ODict d]> h) = Fail h' e →
            main.run_graph engine run_id graph_id initial_state h
            = (h', engine, HTTPException (status_of e)))).
Proof.
  split.
  - intros Hg. unfold main.run_graph. by rewrite run_graph_unknown.
  - intros g d node Hg Hinit Hnode. split.
    + intros Ht.
      apply (run_endpoint_fail _ _ _ _ _ _
               (KeyError ("Tool '" +:+ Node.tool node +:+ "' is not registered."))).
      apply (run_graph_loop_fail _ _ _ _ _ g d Hg Hinit).
      change (Z.to_nat 100) with (S 99).
      apply (loop_exec_fails _ _ _ _ _ _ _ _ _ _ _ Hnode).
      by apply exec_node_unregistered.
    + intros t h' e Ht Hcall.
      apply run_endpoint_fail.
      apply (run_graph_loop_fail _ _ _ _ _ g d Hg Hinit).
      change (Z.to_nat 100) with (S 99).
      apply (loop_exec_fails _ _ _ _ _ _ _ _ _ _ _ Hnode).
      by apply (exec_node_tool_raises _ _ _ _ _ _ t).
Qed.

(** X19. When the run endpoint answers with a response, the graph was
    known, the reported status is ["completed"] or ["failed"] (never
    ["running"]), the log has at most 100 entries, and the state endpoint
    answers for the reported run id with the same status, state and log;
    a completed run has no current node. *)
Theorem run_endpoint_reply engine run_id graph_id initial_state h h' engine' r :
  main.run_graph engine run_id graph_id initial_state h = (h', engine', Reply r) →
  GraphEngine.graphs engine !! graph_id ≠ None
  ∧ GraphRunResponse.run_id r = run_id
  ∧ (GraphRunResponse.status r = "completed" ∨ GraphRunResponse.status r = "failed")
  ∧ (length (GraphRunResponse.log r) ≤ 100)%nat
  ∧ ∃ current,
      main.get_run_state engine' (GraphRunResponse.run_id r)
      = Ok (Reply (RunStateResponse.mk run_id graph_id (GraphRunResponse.status r)
                     current (GraphRunResponse.final_state r)
                     (GraphRunResponse.log r)))
      ∧ (GraphRunResponse.status r = "completed" → current = None).
Proof.
  unfold main.run_graph. intros Hreply.
  destruct (run_graph engine run_id graph_id initial_state 100 h)
    as [hf [engine1 run]|hf e] eqn:Hrun; [|by destruct e].
  injection Hreply as <- <- <-.
  destruct (run_graph_inv _ _ _ _ _ _ _ _ _ Hrun)
    as (g & d & Hg & Hinit & Hloop & Hid & Hgid & Hstate & ->).
  pose proof (loop_result _ _ _ _ _ _ _ _ _ _ _ _ Hloop) as Hres.
  cbn [GraphRunResponse.run_id GraphRunResponse.status GraphRunResponse.log
       GraphRunResponse.final_state].
  split; [by rewrite Hg|]. split; [done|].
  split; [destruct Hres as [(Hs & _)|(Hs & _)]; [by left | by right]|].
  split.
  { destruct (loop_log_shape _ _ _ _ _ _ _ _ _ _ _ _ Hloop)
      as (entries & Hentries & _ & Hlen & _).
    change (Z.to_nat 100) with 100%nat in Hlen. by rewrite Hentries, app_nil_l. }
  exists (Run.current_node run). split.
  - unfold main.get_run_state, get_run, stored. cbn [GraphEngine.runs].
    rewrite lookup_insert_eq. by rewrite Hid, Hgid.
  - intros Hs. destruct Hres as [(_ & Hc & _)|(Hf & _)]; [done|congruence].
Qed.

Lemma run_endpoint_errors_witness :
  main.run_graph demo_engine "run" "raising" 0%nat demo_heap
  = (<[heap_top demo_heap := ODict {[ "n" := VInt 5 ]}]> demo_heap, demo_engine,
     HTTPException 500).
Proof.
  refine (proj2 (proj2 (run_endpoint_errors demo_engine "run" "raising" 0%nat demo_heap)
                   (demo_graph "raising") {[ "n" := VInt 5 ]}
                   (Node.mk "a" "broken" 1%nat) _ _ _)
            broken_tool _ (OtherError "RuntimeError") _ _);
    vm_compute; reflexivity.
Defined.

Lemma run_endpoint_reply_witness :
  let engine :=
    (create_graph (GraphEngine.init ToolRegistry.init) "g" "empty" "a" [] []).1 in
  ∃ h' engine' r,
    main.run_graph engine "run" "g" 0%nat {[ 0%nat := ODict ∅ ]} = (h', engine', Reply r)
    ∧ GraphRunResponse.status r = "failed"
    ∧ ∃ current,
        main.get_run_state engine' "run"
        = Ok (Reply (RunStateResponse.mk "run" "g" (GraphRunResponse.status r)
                       current (GraphRunResponse.final_state r)
                       (GraphRunResponse.log r))).
Proof.
  intros engine.
  assert (∃ h' engine' r,
            main.run_graph engine "run" "g" 0%nat {[ 0%nat := ODict ∅ ]}
            = (h', engine', Reply r)
            ∧ GraphRunResponse.status r = "failed")
    as (h' & engine' & r & Hreply & Hstatus).
  { vm_compute. eexists _, _, _. split; reflexivity. }
  destruct (run_endpoint_reply engine "run" "g" 0%nat {[ 0%nat := ODict ∅ ]}
              h' engine' r Hreply)
    as (_ & Hid & _ & _ & current & Hstate & _).
  exists h', engine', r. split; [exact Hreply|]. split; [exact Hstatus|].
  exists current. by rewrite <- Hid at 1.
Defined.

(** ** A chain of the repository's tools *)

Ltac chain_step node tool :=
  exists node, tool; eexists _, _;
  split; [vm_compute; reflexivity|];
  split; [apply default_tools_registered|];
  split; [vm_compute; reflexivity|];
  split; [eexists; vm_compute; reflexivity|];
  split; [right; eexists; split; [reflexivity|]; eexists; vm_compute; reflexivity|].

Lemma tools_chain :
  chain_succeeds (GraphEngine.tool_registry tools_engine) tools_graph
    (heap_top tools_heap) "split" ["summarize"; "merge"]
    (<[heap_top tools_heap
       := ODict (<[ "text" := VStr "a b c" ]> {[ "chunk_size" := VInt 2 ]})]> tools_heap).
Proof.
  chain_step (Node.mk "split" "split_text" 1%nat) split_text_tool.
  split; [vm_compute; auto|].
  chain_step (Node.mk "summarize" "summarize_chunks" 1%nat) summarize_chunks_tool.
  split; [vm_compute; auto|].
  chain_step (Node.mk "merge" "merge_summaries" 1%nat) merge_summaries_tool.
  vm_compute. reflexivity.
Qed.

Lemma linear_chain_completes_witness :
  ∃ hf self' r,
    run_graph tools_engine "r1" "tools" 0%nat 100 tools_heap = Done hf (self', r)
    ∧ Run.status r = "completed"
    ∧ length (Run.log r) = 3%nat
    ∧ StepLog.step_index <$> Run.log r = [0; 1; 2].
Proof.
  apply (linear_chain_completes tools_engine "r1" "tools" 0%nat 100 tools_heap
           tools_graph (<[ "text" := VStr "a b c" ]> {[ "chunk_size" := VInt 2 ]})
           ["summarize"; "merge"]).
  - vm_compute; reflexivity.
  - vm_compute; reflexivity.
  - exact tools_chain.
  - simpl; lia.
Defined.
